(** * pydbm.cnn.convolutionalneuralnetwork.convolutional_auto_encoder

    A shallow embedding of [ConvolutionalAutoEncoder]: the forward pass
    (encoder loop, feature capture, optional dropout on the flattened hidden
    activity, decoder loop), the backward pass and the feature accessor.

    The class only orchestrates collaborators: the layers of
    [layerable_cnn_list], their activation functions, the optimizer
    [opt_params] and the [pydbm] logger.  The collaborators are Python objects
    with private mutable state that may raise; they are embedded as state
    transformers over a [World] that holds the numpy buffers, the log records
    and the collaborators' own state.  Exceptions are values.

    Conventions:
    - an array is a view (buffer address and shape) on a buffer of the world,
      so that aliasing between the running array, the returned array and the
      feature points can be stated; arrays are C-contiguous, and the passes
      are given arrays and collaborators return arrays (never [None]);
    - the variables declared [np.ndarray[DOUBLE_t, ndim=...]] check the number
      of dimensions at every assignment, inside the [try] blocks too;
    - the logger itself does not raise;
    - the instance's attributes [layerable_cnn_list] and [opt_params] are not
      reassigned while a method runs. *)

From Stdlib Require Import Floats DecimalString.
From stdpp Require Import base list strings.

Open Scope string_scope.
Open Scope list_scope.

(** ** Python values *)

(** An exception object: its class name and its content. *)
Record BaseException := PyErr { exc_type : string; exc_args : string }.

Definition ValueError (msg : string) : BaseException := PyErr "ValueError" msg.
Definition IndexError (msg : string) : BaseException := PyErr "IndexError" msg.

(** [str(n)] of a non-negative Python integer.  The loop counter of the
    source is a C [int]; the stacks considered are shorter than [2^31], so
    [i + 1] does not wrap. *)
Definition str (n : nat) : string := NilZero.string_of_uint (Nat.to_uint n).

(** A C-contiguous [np.ndarray] of [float64]: the address of its data buffer
    and its shape.  Two arrays with the same [data] are views of one buffer. *)
Record ndarray := NDArray { data : nat; shape : list nat }.

Definition ndim (a : ndarray) : nat := length (shape a).
Definition size (a : ndarray) : nat := foldr Nat.mul 1 (shape a).

(** One record handed to the [pydbm] logger. *)
Record LogRecord := { levelname : string; message : string }.

(** ** The state monad with exceptions *)

Inductive outcome (A : Type) : Type :=
| Returned (a : A)
| Raised (e : BaseException).
Arguments Returned {A} a.
Arguments Raised {A} e.

Definition M (S A : Type) : Type := S -> S * outcome A.

Definition ret {S A : Type} (a : A) : M S A := fun s => (s, Returned a).

Definition raise {S A : Type} (e : BaseException) : M S A :=
  fun s => (s, Raised e).

Definition bind {S A B : Type} (m : M S A) (k : A -> M S B) : M S B :=
  fun s =>
    match m s with
    | (s', Returned a) => k a s'
    | (s', Raised e) => (s', Raised e)
    end.

Declare Scope py_scope.
Delimit Scope py_scope with py.
Notation "x <- m ;; k" := (bind m (fun x => k))
  (at level 100, m at next level, right associativity) : py_scope.
Notation "m ;;; k" := (bind m (fun _ => k))
  (at level 100, right associativity) : py_scope.
Open Scope py_scope.

(** [try: m  except: h; raise]: the handler runs in the state the failure
    left behind, and the bare [raise] re-raises the caught exception.  An
    exception raised by the handler itself replaces it. *)
Definition try_except {S A : Type} (m : M S A) (h : M S unit) : M S A :=
  fun s =>
    match m s with
    | (s', Returned a) => (s', Returned a)
    | (s', Raised e) =>
        match h s' with
        | (s'', Returned _) => (s'', Raised e)
        | (s'', Raised e') => (s'', Raised e')
        end
    end.

(** [for i in r: arr = body(i, arr)] *)
Fixpoint for_in {S : Type} (r : list nat) (body : nat -> ndarray -> M S ndarray)
    (arr : ndarray) : M S ndarray :=
  match r with
  | [] => ret arr
  | i :: r' => arr' <- body i arr ;; for_in r' body arr'
  end.

Definition range (n : nat) : list nat := seq 0 n.

(** [l[i]] on a Python list. *)
Definition getitem {S A : Type} (l : list A) (i : nat) : M S A :=
  match l !! i with
  | Some x => ret x
  | None => raise (IndexError "list index out of range")
  end.

(** [a.shape[k]] *)
Definition shape_getitem {S : Type} (a : ndarray) (k : nat) : M S Z :=
  match shape a !! k with
  | Some d => ret (Z.of_nat d)
  | None => raise (IndexError "tuple index out of range")
  end.

(** Assignment to a variable declared [np.ndarray[DOUBLE_t, ndim=nd]]:
    Cython acquires the buffer of the assigned array and validates its
    number of dimensions.  What is assigned is an array: [None], which such a
    declaration lets through unchecked, and objects that are no arrays, which
    it refuses with a [TypeError], are not values of the model. *)
Definition acquire_buffer {S : Type} (nd : nat) (a : ndarray) : M S ndarray :=
  if decide (ndim a = nd) then ret a
  else raise (ValueError ("Buffer has wrong number of dimensions (expected "
                          +:+ str nd +:+ ", got " +:+ str (ndim a) +:+ ")")).

Definition typed {S : Type} (nd : nat) (m : M S ndarray) : M S ndarray :=
  a <- m ;; acquire_buffer nd a.

Section Model.

(** The private state of the collaborators (weights, deltas kept for the
    update, the random generator of the dropout, ...). *)
Context {Ext : Type}.

Record World := mkWorld {
  heap : list (list float);        (* numpy data buffers, by address *)
  records : list LogRecord;        (* what the logger has received *)
  ext : Ext
}.

Definition Py (A : Type) : Type := M World A.

(** *** numpy *)

Definition buffer (w : World) (p : nat) : list float := default [] (heap w !! p).

(** [a.copy()]: a new buffer with the elements of [a], same shape. *)
Definition ndarray_copy (a : ndarray) : Py ndarray :=
  fun w =>
    (mkWorld (heap w ++ [buffer w (data a)]) (records w) (ext w),
     Returned (NDArray (length (heap w)) (shape a))).

(** Element assignment through an array (used to state the effect of a
    caller mutating an array it holds): the whole buffer is replaced. *)
Definition ndarray_store (a : ndarray) (v : list float) (w : World) : World :=
  mkWorld (<[data a := v]> (heap w)) (records w) (ext w).

Definition known_size (newshape : list Z) : Z :=
  foldr (fun d acc => if decide (d = (-1)%Z) then acc else (d * acc)%Z) 1%Z newshape.

Definition unknown_dims (newshape : list Z) : nat :=
  length (filter (fun d => d = (-1)%Z) newshape).

(** [a.reshape(newshape)] on a C-contiguous array: a view of the same buffer
    (of an array that is not C-contiguous numpy returns a copy; the arrays of
    the model are C-contiguous).
    At most one entry may be [-1]; it is inferred from the size, which fails
    when the known entries multiply to [0] or do not divide the size.  The
    messages of numpy's [ValueError] are abridged. *)
Definition reshape (a : ndarray) (newshape : list Z) : Py ndarray :=
  let sz := Z.of_nat (size a) in
  let known := known_size newshape in
  if decide (Exists (fun d => (d < -1)%Z) newshape) then
    raise (ValueError "negative dimensions not allowed")
  else match unknown_dims newshape with
       | 0 =>
           if decide (known = sz) then
             ret (NDArray (data a) (Z.to_nat <$> newshape))
           else raise (ValueError "cannot reshape array")
       | 1 =>
           if decide (known = 0%Z \/ (sz mod known)%Z <> 0%Z) then
             raise (ValueError "cannot reshape array")
           else
             ret (NDArray (data a)
                    ((fun d => if decide (d = (-1)%Z) then Z.to_nat (sz / known)
                               else Z.to_nat d) <$> newshape))
       | _ => raise (ValueError "can only specify one unknown dimension")
       end.

(** *** The logger *)

Definition logger_debug (msg : string) : Py unit :=
  fun w =>
    (mkWorld (heap w) (records w ++ [{| levelname := "DEBUG"; message := msg |}]) (ext w),
     Returned tt).

(** *** Collaborator interfaces *)

(** An activation function object. *)
Record ActivatingFunction := {
  activate : ndarray -> Py ndarray;
  backward : ndarray -> Py ndarray;
  forward : ndarray -> Py ndarray
}.

(** [layer.graph] *)
Record Synapse := {
  activation_function : ActivatingFunction;
  deactivation_function : ActivatingFunction
}.

(** A layer of the stack.  [convolve] takes [no_bias_flag]. *)
Record ConvolutionLayer := {
  convolve : ndarray -> bool -> Py ndarray;
  deconvolve : ndarray -> Py ndarray;
  back_propagate : ndarray -> Py ndarray;
  graph : Synapse
}.

(** [opt_params]: the optimizer, which also implements the dropout. *)
Record OptParams := {
  dropout_rate : float;
  dropout : ndarray -> Py ndarray;
  de_dropout : ndarray -> Py ndarray
}.

(** ** The class *)

Record ConvolutionalAutoEncoder := {
  layerable_cnn_list : list ConvolutionLayer;
  opt_params : OptParams;
  (* Feature points. *)
  __feature_points_arr : option ndarray
}.

(** A method runs on the instance and the world. *)
Record Obj := mkObj { self : ConvolutionalAutoEncoder; world : World }.

Definition Method (A : Type) : Type := M Obj A.

(** A call on a collaborator: it sees the world, not the instance. *)
Definition call {A : Type} (m : Py A) : Method A :=
  fun s => let (w, o) := m (world s) in (mkObj (self s) w, o).

Definition getattr {A : Type} (f : ConvolutionalAutoEncoder -> A) : Method A :=
  fun s => (s, Returned (f (self s))).

Definition set_feature_points_arr (a : ndarray) : Method unit :=
  fun s =>
    (mkObj {| layerable_cnn_list := layerable_cnn_list (self s);
              opt_params := opt_params (self s);
              __feature_points_arr := Some a |} (world s),
     Returned tt).

(** Modelled from the spec: the constructor of the base class
    [ConvolutionalNeuralNetwork], which is not in this file.  The instance is
    "constructed once per training run with a fixed stack", which the methods
    read as [self.layerable_cnn_list]; what the base class does with the
    training parameters is not read by this class.  The feature points are a
    private name of this class: they have the class attribute's value [None]. *)
Definition super_init (layerable_cnn_list : list ConvolutionLayer) (opt_params : OptParams)
    : ConvolutionalAutoEncoder :=
  {| layerable_cnn_list := layerable_cnn_list;
     opt_params := opt_params;
     __feature_points_arr := None |}.

(** [self.opt_params = opt] *)
Definition with_optimizer (cae : ConvolutionalAutoEncoder) (opt : OptParams)
    : ConvolutionalAutoEncoder :=
  {| layerable_cnn_list := layerable_cnn_list cae;
     opt_params := opt;
     __feature_points_arr := __feature_points_arr cae |}.

(** [__init__]: after the base constructor, [self.opt_params = opt_params]
    and the set-up is logged. *)
Definition init (layerable_cnn_list : list ConvolutionLayer) (opt_params : OptParams)
    : Py ConvolutionalAutoEncoder :=
  let self := super_init layerable_cnn_list opt_params in
  let self := with_optimizer self opt_params in
  logger_debug "Setup Convolutional Auto-Encoder and the parameters." ;;;
  ret self.

(** Modelled from the spec: the default of [no_bias_flag] in the [convolve]
    of [ConvolutionLayer], which is not in this file
    ("convolve(tensor, noBias=false)"). *)
Definition no_bias_flag_default : bool := false.

(** The body of the encoder loop of [forward_propagation]. *)
Definition encoder_try (i : nat) (img_arr : ndarray) : Method ndarray :=
  L <- (l <- getattr layerable_cnn_list ;; getitem l i) ;;
  img_arr <- typed 4 (call (convolve L img_arr no_bias_flag_default)) ;;
  L <- (l <- getattr layerable_cnn_list ;; getitem l i) ;;
  typed 4 (call (activate (activation_function (graph L)) img_arr)).

Definition encoder_body (i : nat) (img_arr : ndarray) : Method ndarray :=
  try_except (encoder_try i img_arr)
    (call (logger_debug ("Error raised in Convolution layer " +:+ str (i + 1)))).

(** The dropout on the flattened hidden activity, when the rate is positive. *)
Definition hidden_dropout (img_arr : ndarray) : Method ndarray :=
  opt <- getattr opt_params ;;
  if PrimFloat.ltb 0 (dropout_rate opt) then
    b <- shape_getitem img_arr 0 ;;
    hidden_activity_arr <- typed 2 (call (reshape img_arr [b; (-1)%Z])) ;;
    opt <- getattr opt_params ;;
    hidden_activity_arr <- typed 2 (call (dropout opt hidden_activity_arr)) ;;
    s0 <- shape_getitem img_arr 0 ;;
    s1 <- shape_getitem img_arr 1 ;;
    s2 <- shape_getitem img_arr 2 ;;
    s3 <- shape_getitem img_arr 3 ;;
    typed 4 (call (reshape hidden_activity_arr [s0; s1; s2; s3]))
  else ret img_arr.

(** The body of the decoder loop, on the reversed list. *)
Definition decoder_try (layerable_cnn_list : list ConvolutionLayer)
    (i : nat) (img_arr : ndarray) : Method ndarray :=
  L <- getitem layerable_cnn_list i ;;
  img_arr <- typed 4 (call (backward (activation_function (graph L)) img_arr)) ;;
  L <- getitem layerable_cnn_list i ;;
  img_arr <- typed 4 (call (deconvolve L img_arr)) ;;
  L <- getitem layerable_cnn_list i ;;
  typed 4 (call (activate (deactivation_function (graph L)) img_arr)).

Definition decoder_body (layerable_cnn_list : list ConvolutionLayer)
    (i : nat) (img_arr : ndarray) : Method ndarray :=
  try_except (decoder_try layerable_cnn_list i img_arr)
    (call (logger_debug ("Error raised in Deconvolution layer " +:+ str (i + 1)))).

(** [for i in range(len(self.layerable_cnn_list))] with the encoder body. *)
Definition encoder_loop (img_arr : ndarray) : Method ndarray :=
  n <- (l <- getattr layerable_cnn_list ;; ret (length l)) ;;
  for_in (range n) encoder_body img_arr.

(** [self.__feature_points_arr = img_arr.copy()] *)
Definition capture_feature_points (img_arr : ndarray) : Method unit :=
  feature_points_arr <- call (ndarray_copy img_arr) ;;
  set_feature_points_arr feature_points_arr.

(** [layerable_cnn_list = self.layerable_cnn_list[::-1]] and the decoder loop. *)
Definition decoder_loop (img_arr : ndarray) : Method ndarray :=
  layerable_cnn_list <- (l <- getattr layerable_cnn_list ;; ret (reverse l)) ;;
  for_in (range (length layerable_cnn_list)) (decoder_body layerable_cnn_list) img_arr.

Definition forward_propagation (img_arr : ndarray) : Method ndarray :=
  img_arr <- acquire_buffer 4 img_arr ;;
  img_arr <- encoder_loop img_arr ;;
  capture_feature_points img_arr ;;;
  img_arr <- hidden_dropout img_arr ;;
  decoder_loop img_arr.

(** The body of the first loop of [back_propagation]. *)
Definition backward_convolve_try (i : nat) (delta_arr : ndarray) : Method ndarray :=
  L <- (l <- getattr layerable_cnn_list ;; getitem l i) ;;
  typed 4 (call (convolve L delta_arr true)).

Definition backward_convolve_body (i : nat) (delta_arr : ndarray) : Method ndarray :=
  try_except (backward_convolve_try i delta_arr)
    (call (logger_debug ("Backward raised error in Convolution layer " +:+ str (i + 1)))).

(** The inverse of the dropout on the flattened delta. *)
Definition hidden_de_dropout (delta_arr : ndarray) : Method ndarray :=
  opt <- getattr opt_params ;;
  if PrimFloat.ltb 0 (dropout_rate opt) then
    b <- shape_getitem delta_arr 0 ;;
    hidden_activity_arr <- typed 2 (call (reshape delta_arr [b; (-1)%Z])) ;;
    opt <- getattr opt_params ;;
    hidden_activity_arr <- typed 2 (call (de_dropout opt hidden_activity_arr)) ;;
    s0 <- shape_getitem delta_arr 0 ;;
    s1 <- shape_getitem delta_arr 1 ;;
    s2 <- shape_getitem delta_arr 2 ;;
    s3 <- shape_getitem delta_arr 3 ;;
    typed 4 (call (reshape hidden_activity_arr [s0; s1; s2; s3]))
  else ret delta_arr.

(** The body of the second loop of [back_propagation], on the reversed list. *)
Definition delta_try (layerable_cnn_list : list ConvolutionLayer)
    (i : nat) (delta_arr : ndarray) : Method ndarray :=
  L <- getitem layerable_cnn_list i ;;
  delta_arr <- typed 4 (call (back_propagate L delta_arr)) ;;
  L <- getitem layerable_cnn_list i ;;
  typed 4 (call (forward (deactivation_function (graph L)) delta_arr)).

Definition delta_body (layerable_cnn_list : list ConvolutionLayer)
    (i : nat) (delta_arr : ndarray) : Method ndarray :=
  try_except (delta_try layerable_cnn_list i delta_arr)
    (call (logger_debug ("Delta computation raised an error in CNN layer "
                         +:+ str (length layerable_cnn_list - i)))).

Definition backward_convolve_loop (delta_arr : ndarray) : Method ndarray :=
  n <- (l <- getattr layerable_cnn_list ;; ret (length l)) ;;
  for_in (range n) backward_convolve_body delta_arr.

Definition delta_loop (delta_arr : ndarray) : Method ndarray :=
  layerable_cnn_list <- (l <- getattr layerable_cnn_list ;; ret (reverse l)) ;;
  for_in (range (length layerable_cnn_list)) (delta_body layerable_cnn_list) delta_arr.

Definition back_propagation (delta_arr : ndarray) : Method ndarray :=
  delta_arr <- acquire_buffer 4 delta_arr ;;
  delta_arr <- backward_convolve_loop delta_arr ;;
  delta_arr <- hidden_de_dropout delta_arr ;;
  delta_loop delta_arr.

Definition extract_feature_points_arr : Method (option ndarray) :=
  getattr __feature_points_arr.

(** The statements of [forward_propagation] before its decoder loop, and
    those of [back_propagation] before its second loop. *)
Definition up_to_decoder_loop (img_arr : ndarray) : Method ndarray :=
  img_arr <- acquire_buffer 4 img_arr ;;
  img_arr <- encoder_loop img_arr ;;
  capture_feature_points img_arr ;;;
  hidden_dropout img_arr.

Definition up_to_delta_loop (delta_arr : ndarray) : Method ndarray :=
  delta_arr <- acquire_buffer 4 delta_arr ;;
  delta_arr <- backward_convolve_loop delta_arr ;;
  hidden_de_dropout delta_arr.

End Model.

Arguments World : clear implicits.
Arguments Py : clear implicits.
Arguments ActivatingFunction : clear implicits.
Arguments Synapse : clear implicits.
Arguments ConvolutionLayer : clear implicits.
Arguments OptParams : clear implicits.
Arguments ConvolutionalAutoEncoder : clear implicits.
Arguments Obj : clear implicits.
Arguments Method : clear implicits.

(** A log record whose message contains [what]. *)
Definition references (what : string) (r : LogRecord) : bool :=
  match String.index 0 what (message r) with
  | Some _ => true
  | None => false
  end.

(** ** Recording collaborators

    To state in which order the class calls its collaborators, and with which
    arguments, a stack is wrapped the way a test wraps it in spies: every
    method of a wrapped collaborator appends a [Call] to a trace and then
    behaves as the collaborator it wraps, which cannot see the trace. *)

Inductive callee := Layer (name : nat) | Optimizer.

Inductive method :=
| m_convolve (no_bias_flag : bool)
| m_deconvolve
| m_back_propagate
| m_activation_activate
| m_activation_backward
| m_activation_forward
| m_deactivation_activate
| m_deactivation_backward
| m_deactivation_forward
| m_dropout
| m_de_dropout.

Record Call := {
  target : callee;
  meth : method;
  argument : ndarray;
  result : outcome ndarray
}.

Definition kind (c : Call) : callee * method := (target c, meth c).

#[global] Instance callee_eq_dec : EqDecision callee.
Proof. solve_decision. Defined.
#[global] Instance method_eq_dec : EqDecision method.
Proof. solve_decision. Defined.

Section Recording.

Context {X : Type}.

Definition trace (w : World (list Call * X)) : list Call := (ext w).1.

Definition spied (t : callee) (m : method) (f : ndarray -> Py X ndarray)
    : ndarray -> Py (list Call * X) ndarray :=
  fun a w =>
    let (w', o) := f a (mkWorld (heap w) (records w) (ext w).2) in
    (mkWorld (heap w') (records w')
       ((ext w).1 ++ [{| target := t; meth := m; argument := a; result := o |}], ext w'),
     o).

Definition spy_function (t : callee) (act : bool) (f : ActivatingFunction X)
    : ActivatingFunction (list Call * X) :=
  {| activate := spied t (if act then m_activation_activate else m_deactivation_activate)
                   (activate f);
     backward := spied t (if act then m_activation_backward else m_deactivation_backward)
                   (backward f);
     forward := spied t (if act then m_activation_forward else m_deactivation_forward)
                  (forward f) |}.

Definition spy_layer (name : nat) (L : ConvolutionLayer X)
    : ConvolutionLayer (list Call * X) :=
  {| convolve := fun a no_bias_flag =>
       spied (Layer name) (m_convolve no_bias_flag) (fun a => convolve L a no_bias_flag) a;
     deconvolve := spied (Layer name) m_deconvolve (deconvolve L);
     back_propagate := spied (Layer name) m_back_propagate (back_propagate L);
     graph :=
       {| activation_function :=
            spy_function (Layer name) true (activation_function (graph L));
          deactivation_function :=
            spy_function (Layer name) false (deactivation_function (graph L)) |} |}.

Definition spy_optimizer (o : OptParams X) : OptParams (list Call * X) :=
  {| dropout_rate := dropout_rate o;
     dropout := spied Optimizer m_dropout (dropout o);
     de_dropout := spied Optimizer m_de_dropout (de_dropout o) |}.

(** The layers of a stack wrapped under the given names. *)
Definition spy_stack (names : list nat) (l : list (ConvolutionLayer X))
    : list (ConvolutionLayer (list Call * X)) :=
  zip_with spy_layer names l.

(** The instance with its optimizer wrapped and each layer wrapped under its
    index in the stack, from 0. *)
Definition spy_on (cae : ConvolutionalAutoEncoder X)
    : ConvolutionalAutoEncoder (list Call * X) :=
  {| layerable_cnn_list :=
       spy_stack (seq 0 (length (layerable_cnn_list cae))) (layerable_cnn_list cae);
     opt_params := spy_optimizer (opt_params cae);
     __feature_points_arr := __feature_points_arr cae |}.

(** The calls of one iteration of each loop on the layer called [name]. *)
Definition encode_calls (name : nat) : list (callee * method) :=
  [(Layer name, m_convolve no_bias_flag_default); (Layer name, m_activation_activate)].

Definition decode_calls (name : nat) : list (callee * method) :=
  [(Layer name, m_activation_backward); (Layer name, m_deconvolve);
   (Layer name, m_deactivation_activate)].



Definition optimizer_calls (rate : float) (m : method) : list (callee * method) :=
  if PrimFloat.ltb 0 rate then [(Optimizer, m)] else [].

(** The calls of a whole pass over a stack of [n] layers. *)
Definition forward_calls (n : nat) (rate : float) : list (callee * method) :=
  (seq 0 n ≫= encode_calls) ++ optimizer_calls rate m_dropout
  ++ (reverse (seq 0 n) ≫= decode_calls).


(** Each call of [calls] is handed a view of the buffer the call before it
    returned, the first one a view of [a]'s; nothing follows a call that
    raised. *)
Fixpoint chained (a : ndarray) (calls : list Call) : Prop :=
  match calls with
  | [] => True
  | c :: calls' =>
      data (argument c) = data a
      /\ match result c with
         | Returned a' => chained a' calls'
         | Raised _ => calls' = []
         end
  end.


(** What the last of [calls] returned ([a] if there is none). *)
Fixpoint final (a : ndarray) (calls : list Call) : outcome ndarray :=
  match calls with
  | [] => Returned a
  | c :: calls' =>
      match result c with
      | Returned a' => final a' calls'
      | Raised e => Raised e
      end
  end.

(** A world given a trace. *)
Definition with_trace (tr : list Call) (w : World X) : World (list Call * X) :=
  mkWorld (heap w) (records w) (tr, ext w).

(** [runs a K m]: whatever the world, the calls that [m] adds to the trace
    are the first ones of [K], all of [K] if [m] returns, and they are
    chained from [a] to the array that [m] returns. *)
Definition runs (a : ndarray) (K : list (callee * method))
    (m : Py (list Call * X) ndarray) : Prop :=
  forall w, exists calls,
    trace (m w).1 = trace w ++ calls
    /\ kind <$> calls `prefix_of` K
    /\ chained a calls
    /\ forall r, (m w).2 = Returned r ->
         kind <$> calls = K /\ exists r0, final a calls = Returned r0 /\ data r0 = data r.

(** [propagates m]: an exception raised by a call that [m] makes is the
    outcome of [m]. *)
Definition propagates (m : Py (list Call * X) ndarray) : Prop :=
  forall w, exists calls,
    trace (m w).1 = trace w ++ calls
    /\ forall c e, c ∈ calls -> result c = Raised e -> (m w).2 = Raised e.

(** [accounted P m]: an array that [m] returns satisfies [P], and an exception
    that [m] raises is the one that the last call [m] made has raised, or is
    a [ValueError]. *)
Definition accounted (P : ndarray -> Prop) (m : Py (list Call * X) ndarray) : Prop :=
  forall w, exists calls,
    trace (m w).1 = trace w ++ calls
    /\ match (m w).2 with
       | Returned a => P a
       | Raised e =>
           (exists c, last calls = Some c /\ result c = Raised e)
           \/ exc_type e = "ValueError"
       end.

(** The world without the trace, and a computation on the recording world
    that does to it, the trace apart, what [m] does to the world. *)
Definition erase (w : World (list Call * X)) : World X :=
  mkWorld (heap w) (records w) (ext w).2.

Definition simulates {A : Type} (m' : Py (list Call * X) A) (m : Py X A) : Prop :=
  forall w, (erase (m' w).1, (m' w).2) = m (erase w).

(** Every call recorded so far was handed an array of batch dimension [b]. *)
Definition batch_traced (b : option nat) (w : World (list Call * X)) : Prop :=
  Forall (fun c => head (shape (argument c)) = b) (trace w).

End Recording.

(** ** Simple collaborators, used to run the class on concrete inputs *)

Section Doubles.

Context {X : Type}.

(** Returns a new array: elements [f] of the argument's, shape [g] of the
    argument's. *)
Definition allocating (f : list float -> list float) (g : list nat -> list nat)
    : ndarray -> Py X ndarray :=
  fun a w =>
    (mkWorld (heap w ++ [f (buffer w (data a))]) (records w) (ext w),
     Returned (NDArray (length (heap w)) (g (shape a)))).

(** Overwrites the argument's buffer and returns the argument. *)
Definition in_place (f : list float -> list float) : ndarray -> Py X ndarray :=
  fun a w =>
    (mkWorld (<[data a := f (buffer w (data a))]> (heap w)) (records w) (ext w),
     Returned a).

Definition failing (e : BaseException) : ndarray -> Py X ndarray :=
  fun _ => raise e.

Definition function_of (act back fwd : ndarray -> Py X ndarray) : ActivatingFunction X :=
  {| activate := act; backward := back; forward := fwd |}.

End Doubles.

Arguments str : simpl never.
Arguments String.append : simpl never.

(** ** The passes as functions of the world

    Neither loop changes the instance, and the instance's own step between
    them is the feature capture.  Each loop is therefore one computation on
    the world, by recursion on the layers it visits; the passes of the class
    are shown below to be these computations. *)

Section Phases.

Context {Ext : Type}.

Definition with_feature_points (cae : ConvolutionalAutoEncoder Ext) (a : ndarray)
    : ConvolutionalAutoEncoder Ext :=
  {| layerable_cnn_list := layerable_cnn_list cae;
     opt_params := opt_params cae;
     __feature_points_arr := Some a |}.

(** [step] on each layer of [l] in turn, the counter starting at [i]. *)
Fixpoint for_each (step : nat -> ConvolutionLayer Ext -> ndarray -> Py Ext ndarray)
    (i : nat) (l : list (ConvolutionLayer Ext)) (arr : ndarray) : Py Ext ndarray :=
  match l with
  | [] => ret arr
  | L :: l' => arr' <- step i L arr ;; for_each step (S i) l' arr'
  end.

(** What one iteration of each loop does to the running array. *)
Definition encode_layer (L : ConvolutionLayer Ext) (img_arr : ndarray) : Py Ext ndarray :=
  img_arr <- typed 4 (convolve L img_arr no_bias_flag_default) ;;
  typed 4 (activate (activation_function (graph L)) img_arr).

Definition decode_layer (L : ConvolutionLayer Ext) (img_arr : ndarray) : Py Ext ndarray :=
  img_arr <- typed 4 (backward (activation_function (graph L)) img_arr) ;;
  img_arr <- typed 4 (deconvolve L img_arr) ;;
  typed 4 (activate (deactivation_function (graph L)) img_arr).

Definition convolve_delta (L : ConvolutionLayer Ext) (delta_arr : ndarray) : Py Ext ndarray :=
  typed 4 (convolve L delta_arr true).

Definition propagate_delta (L : ConvolutionLayer Ext) (delta_arr : ndarray) : Py Ext ndarray :=
  delta_arr <- typed 4 (back_propagate L delta_arr) ;;
  typed 4 (forward (deactivation_function (graph L)) delta_arr).

(** The messages of the four handlers. *)
Definition convolution_message (i : nat) : string :=
  "Error raised in Convolution layer " +:+ str (i + 1).
Definition deconvolution_message (i : nat) : string :=
  "Error raised in Deconvolution layer " +:+ str (i + 1).
Definition backward_convolution_message (i : nat) : string :=
  "Backward raised error in Convolution layer " +:+ str (i + 1).
Definition delta_message (n i : nat) : string :=
  "Delta computation raised an error in CNN layer " +:+ str (n - i).

Definition encode (l : list (ConvolutionLayer Ext)) : ndarray -> Py Ext ndarray :=
  for_each (fun i L a => try_except (encode_layer L a) (logger_debug (convolution_message i)))
    0 l.

Definition decode (l : list (ConvolutionLayer Ext)) : ndarray -> Py Ext ndarray :=
  for_each (fun i L a => try_except (decode_layer L a) (logger_debug (deconvolution_message i)))
    0 (reverse l).

Definition convolve_deltas (l : list (ConvolutionLayer Ext)) : ndarray -> Py Ext ndarray :=
  for_each (fun i L a =>
              try_except (convolve_delta L a) (logger_debug (backward_convolution_message i)))
    0 l.

Definition propagate_deltas (l : list (ConvolutionLayer Ext)) : ndarray -> Py Ext ndarray :=
  for_each (fun i L a =>
              try_except (propagate_delta L a) (logger_debug (delta_message (length l) i)))
    0 (reverse l).

(** [f] on the array flattened to [(batch, -1)], its result given the
    array's four dimensions again. *)
Definition on_flattened (f : ndarray -> Py Ext ndarray) (arr : ndarray) : Py Ext ndarray :=
  b <- shape_getitem arr 0 ;;
  hidden_activity_arr <- typed 2 (reshape arr [b; (-1)%Z]) ;;
  hidden_activity_arr <- typed 2 (f hidden_activity_arr) ;;
  s0 <- shape_getitem arr 0 ;;
  s1 <- shape_getitem arr 1 ;;
  s2 <- shape_getitem arr 2 ;;
  s3 <- shape_getitem arr 3 ;;
  typed 4 (reshape hidden_activity_arr [s0; s1; s2; s3]).

Definition regularized (rate : float) (f : ndarray -> Py Ext ndarray) (arr : ndarray)
    : Py Ext ndarray :=
  if PrimFloat.ltb 0 rate then on_flattened f arr else ret arr.

(** The backward pass on the world. *)
Definition propagate_back (cae : ConvolutionalAutoEncoder Ext) (delta_arr : ndarray)
    : Py Ext ndarray :=
  delta_arr <- acquire_buffer 4 delta_arr ;;
  delta_arr <- convolve_deltas (layerable_cnn_list cae) delta_arr ;;
  delta_arr <- regularized (dropout_rate (opt_params cae)) (de_dropout (opt_params cae))
                 delta_arr ;;
  propagate_deltas (layerable_cnn_list cae) delta_arr.

(** The forward pass up to the capture, and from the capture on. *)
Definition encoder_phase (cae : ConvolutionalAutoEncoder Ext) (img_arr : ndarray)
    : Py Ext ndarray :=
  img_arr <- acquire_buffer 4 img_arr ;;
  encode (layerable_cnn_list cae) img_arr.

Definition decoder_phase (cae : ConvolutionalAutoEncoder Ext) (img_arr : ndarray)
    : Py Ext ndarray :=
  img_arr <- regularized (dropout_rate (opt_params cae)) (dropout (opt_params cae)) img_arr ;;
  decode (layerable_cnn_list cae) img_arr.

(** The decoder step with the deactivation function's [backward] in the place
    of the activation function's. *)
Definition decode_layer_by_deactivation (L : ConvolutionLayer Ext) (img_arr : ndarray)
    : Py Ext ndarray :=
  img_arr <- typed 4 (backward (deactivation_function (graph L)) img_arr) ;;
  img_arr <- typed 4 (deconvolve L img_arr) ;;
  typed 4 (activate (deactivation_function (graph L)) img_arr).

(** The encode-then-decode transform: the encoder loop, the capture of its
    result, the decoder loop, and no step of the optimizer. *)
Definition encode_then_decode (img_arr : ndarray) : Method Ext ndarray :=
  img_arr <- acquire_buffer 4 img_arr ;;
  l <- getattr layerable_cnn_list ;;
  img_arr <- call (encode l img_arr) ;;
  capture_feature_points img_arr ;;;
  call (decode l img_arr).

(** The elements of the array a run returned, in the world it left. *)
Definition returned_elements (r : Obj Ext * outcome ndarray) : option (list float) :=
  match r.2 with
  | Returned a => Some (buffer (world r.1) (data a))
  | Raised _ => None
  end.

(** A method that leaves the instance as it is, whatever its outcome. *)
Definition keeps_self {A : Type} (m : Method Ext A) : Prop :=
  forall s, self (m s).1 = self s.

(** The state after a series of backward passes, whatever their outcomes. *)
Definition after_back_propagations (deltas : list ndarray) (s : Obj Ext) : Obj Ext :=
  foldl (fun s delta_arr => (back_propagation delta_arr s).1) s deltas.

End Phases.

(** ** What is supposed of the collaborators *)

Section Contracts.

Context {Ext : Type}.

Implicit Types (L : ConvolutionLayer Ext) (l : list (ConvolutionLayer Ext)).
Implicit Types (s : list nat) (a : ndarray) (w : World Ext) (p : nat).

(** *** Buffers left alone

    A computation leaves the buffer [p] alone when it keeps it allocated,
    does not write to it and returns no array on it. *)

Definition leaves p (m : Py Ext ndarray) : Prop :=
  forall w, p < length (heap w) ->
    p < length (heap (m w).1)
    /\ buffer (m w).1 p = buffer w p
    /\ forall b, (m w).2 = Returned b -> data b <> p.

(** [f] handed an array on another buffer leaves [p] alone. *)
Definition untouched p (f : ndarray -> Py Ext ndarray) : Prop :=
  forall a, data a <> p -> leaves p (f a).

Definition layer_untouched p L : Prop :=
  untouched p (backward (activation_function (graph L)))
  /\ untouched p (deconvolve L)
  /\ untouched p (activate (deactivation_function (graph L))).

(** *** Collaborators that do not log *)

Definition silent {A : Type} (m : Py Ext A) : Prop :=
  forall w, records (m w).1 = records w.

Definition quiet (f : ndarray -> Py Ext ndarray) : Prop := forall a, silent (f a).

Definition function_quiet (f : ActivatingFunction Ext) : Prop :=
  quiet (activate f) /\ quiet (backward f) /\ quiet (forward f).

Definition layer_quiet L : Prop :=
  (forall no_bias_flag, quiet (fun a => convolve L a no_bias_flag))
  /\ quiet (deconvolve L)
  /\ quiet (back_propagate L)
  /\ function_quiet (activation_function (graph L))
  /\ function_quiet (deactivation_function (graph L)).

Definition optimizer_quiet (opt : OptParams Ext) : Prop :=
  quiet (dropout opt) /\ quiet (de_dropout opt).

(** [m] adds no record when it returns and at most one, a debug record,
    when it raises. *)
Definition logs_on_failure_only (w w' : World Ext) (o : outcome ndarray) : Prop :=
  match o with
  | Returned _ => records w' = records w
  | Raised _ =>
      records w' = records w
      \/ exists msg, records w' = records w ++ [{| levelname := "DEBUG"; message := msg |}]
  end.

(** *** Shapes

    [Inv] is a property of the world that the collaborators keep. *)

Variable Inv : World Ext -> Prop.

(** [f] maps arrays of shape [s] to arrays of shape [s'], and returns. *)
Definition maps_shape (f : ndarray -> Py Ext ndarray) s s' : Prop :=
  forall a w, shape a = s -> Inv w ->
    exists w' r, f a w = (w', Returned r) /\ shape r = s' /\ Inv w'.

(** The shape contract of a layer that takes [s] to [s']: convolve maps [s]
    to [s'] and deconvolve maps it back, the activation functions keep the
    shape, both shapes have four dimensions and the same batch dimension. *)
Record layer_contract L s s' : Prop := {
  convolve_shape : maps_shape (fun a => convolve L a no_bias_flag_default) s s';
  activate_shape : maps_shape (activate (activation_function (graph L))) s' s';
  backward_shape : maps_shape (backward (activation_function (graph L))) s' s';
  deconvolve_shape : maps_shape (deconvolve L) s' s;
  deactivate_shape : maps_shape (activate (deactivation_function (graph L))) s s;
  four_in : length s = 4;
  four_out : length s' = 4;
  same_batch : head s' = head s
}.

Inductive stack_contract : list nat -> list (ConvolutionLayer Ext) -> list nat -> Prop :=
| stack_contract_nil s : stack_contract s [] s
| stack_contract_cons s s1 s2 L l :
    layer_contract L s s1 -> stack_contract s1 l s2 -> stack_contract s (L :: l) s2.

(** The shape contract of a layer for the deltas: the bias-free convolve
    maps [s] to [s'], back_propagate maps it back and the forward of the
    deactivation function keeps [s]. *)
Record layer_delta_contract L s s' : Prop := {
  convolve_delta_shape : maps_shape (fun a => convolve L a true) s s';
  back_propagate_shape : maps_shape (back_propagate L) s' s;
  deactivation_forward_shape : maps_shape (forward (deactivation_function (graph L))) s s;
  delta_four_in : length s = 4;
  delta_four_out : length s' = 4;
  delta_same_batch : head s' = head s
}.

Inductive stack_delta_contract
    : list nat -> list (ConvolutionLayer Ext) -> list nat -> Prop :=
| stack_delta_contract_nil s : stack_delta_contract s [] s
| stack_delta_contract_cons s s1 s2 L l :
    layer_delta_contract L s s1 -> stack_delta_contract s1 l s2 ->
    stack_delta_contract s (L :: l) s2.

(** No property at all. *)
Definition anything (w : World Ext) : Prop := True.

End Contracts.

(** ** Concrete stacks *)

Module Scenario.

Definition same : list float -> list float := fun v => v.
Definition const (x : float) : list float -> list float := fmap (fun _ => x).

(** An activation function whose three methods return new arrays; the
    elements of what [backward] returns are all [x]. *)
Definition marking (x : float) : ActivatingFunction unit :=
  function_of (allocating same id) (allocating (const x) id) (allocating same id).

(** A layer that keeps shapes; its activation function marks with [1] and
    its deactivation function with [2]. *)
Definition plain : ConvolutionLayer unit :=
  {| convolve := fun a _ => allocating same id a;
     deconvolve := allocating same id;
     back_propagate := allocating same id;
     graph := {| activation_function := marking 1; deactivation_function := marking 2 |} |}.

Definition boom : BaseException := PyErr "RuntimeError" "boom".

(** As [plain], but [deconvolve] raises. *)
Definition broken_deconvolve : ConvolutionLayer unit :=
  {| convolve := convolve plain;
     deconvolve := failing boom;
     back_propagate := back_propagate plain;
     graph := graph plain |}.

(** As [plain], but [convolve] raises, with or without the bias. *)
Definition broken_convolve : ConvolutionLayer unit :=
  {| convolve := fun a _ => failing boom a;
     deconvolve := deconvolve plain;
     back_propagate := back_propagate plain;
     graph := graph plain |}.

(** As [plain], but [back_propagate] raises. *)
Definition broken_back_propagate : ConvolutionLayer unit :=
  {| convolve := convolve plain;
     deconvolve := deconvolve plain;
     back_propagate := failing boom;
     graph := graph plain |}.

(** As [plain], but the backward of the activation function overwrites the
    array it is handed, with [9], and returns it. *)
Definition overwriting : ConvolutionLayer unit :=
  {| convolve := convolve plain;
     deconvolve := deconvolve plain;
     back_propagate := back_propagate plain;
     graph := {| activation_function :=
                   function_of (allocating same id) (in_place (const 9)) (allocating same id);
                 deactivation_function := marking 2 |} |}.

Definition optimizer (rate : float) : OptParams unit :=
  {| dropout_rate := rate; dropout := allocating same id; de_dropout := allocating same id |}.


Definition network (l : list (ConvolutionLayer unit)) (rate : float)
    : ConvolutionalAutoEncoder unit :=
  {| layerable_cnn_list := l; opt_params := optimizer rate; __feature_points_arr := None |}.

(** A layer whose convolve returns arrays of shape [s_out] and whose
    deconvolve returns arrays of shape [s_in]. *)
Definition shaping (s_in s_out : list nat) : ConvolutionLayer unit :=
  {| convolve := fun a _ => allocating same (fun _ => s_out) a;
     deconvolve := allocating same (fun _ => s_in);
     back_propagate := allocating same (fun _ => s_in);
     graph := graph plain |}.

(** A batch of two images of four by four pixels, in buffer [0]. *)
Definition images : ndarray := NDArray 0 [2; 1; 4; 4].
Definition world1 : World unit := mkWorld [replicate 32 0%float] [] tt.

(** A batch of two images of one pixel, in buffer [0]. *)
Definition batch : ndarray := NDArray 0 [2; 1; 1; 1].
Definition world0 : World unit := mkWorld [[7%float; 8%float]] [] tt.

End Scenario.

(** ** Facts about the monad and the loops *)

(** [bind (ret v) k] is [k v]. *)
Ltac bind_ret := change (bind (ret ?v) ?k ?s) with (k v s); cbv beta.

Section MonadFacts.

Context {S : Type}.

Lemma bind_returned {A B : Type} (m : M S A) (k : A -> M S B) (s s' : S) (a : A) :
  m s = (s', Returned a) -> bind m k s = k a s'.
Proof. intros H. unfold bind. rewrite H. reflexivity. Qed.

Lemma bind_raised {A B : Type} (m : M S A) (k : A -> M S B) (s s' : S) (e : BaseException) :
  m s = (s', Raised e) -> bind m k s = (s', Raised e).
Proof. intros H. unfold bind. rewrite H. reflexivity. Qed.

Lemma bind_assoc {A B C : Type} (m : M S A) (k : A -> M S B) (h : B -> M S C) (s : S) :
  bind (bind m k) h s = bind m (fun a => bind (k a) h) s.
Proof. unfold bind. destruct (m s) as [s1 [a|e]]; reflexivity. Qed.

Lemma bind_ext {A B : Type} (m : M S A) (k k' : A -> M S B) (s : S) :
  (forall a s', k a s' = k' a s') -> bind m k s = bind m k' s.
Proof. intros H. unfold bind. destruct (m s) as [s1 [a|e]]; [apply H | reflexivity]. Qed.

Lemma for_in_app (r1 r2 : list nat) (body : nat -> ndarray -> M S ndarray)
    (arr : ndarray) (s : S) :
  for_in (r1 ++ r2) body arr s = (arr' <- for_in r1 body arr ;; for_in r2 body arr') s.
Proof.
  revert arr s. induction r1 as [|i r1 IH]; intros arr s; simpl.
  - reflexivity.
  - rewrite bind_assoc. apply bind_ext. intros a s'. apply IH.
Qed.

End MonadFacts.

Section LoopFacts.

Context {Ext : Type}.

Implicit Types (cae : ConvolutionalAutoEncoder Ext) (w : World Ext) (a : ndarray).
Implicit Types (L : ConvolutionLayer Ext) (l : list (ConvolutionLayer Ext)).

Lemma call_bind {A B : Type} (m : Py Ext A) (k : A -> Py Ext B) (s : Obj Ext) :
  call (bind m k) s = bind (call m) (fun x => call (k x)) s.
Proof. unfold call, bind. destruct (m (world s)) as [w1 [x|e]]; reflexivity. Qed.

Lemma call_try_except {A : Type} (m : Py Ext A) (h : Py Ext unit) (s : Obj Ext) :
  call (try_except m h) s = try_except (call m) (call h) s.
Proof.
  unfold call, try_except. destruct (m (world s)) as [w1 [x|e]]; simpl.
  - reflexivity.
  - destruct (h w1) as [w2 [[]|e']]; reflexivity.
Qed.

Lemma call_typed (nd : nat) (m : Py Ext ndarray) (s : Obj Ext) :
  call (typed nd m) s = typed nd (call m) s.
Proof.
  unfold typed. rewrite call_bind. apply bind_ext. intros a [cae w].
  unfold call, acquire_buffer. destruct (decide (ndim a = nd)); reflexivity.
Qed.

Lemma bind_call_ext {A B : Type} (m : Py Ext A) (k k' : A -> Method Ext B) cae w :
  (forall x w', k x (mkObj cae w') = k' x (mkObj cae w')) ->
  bind (call m) k (mkObj cae w) = bind (call m) k' (mkObj cae w).
Proof.
  intros H. unfold bind, call. simpl. destruct (m w) as [w1 [x|e]]; [apply H | reflexivity].
Qed.

Lemma bind_cong {A B : Type} {S : Type} (m m' : M S A) (k : A -> M S B) (s : S) :
  m s = m' s -> bind m k s = bind m' k s.
Proof. intros H. unfold bind. rewrite H. reflexivity. Qed.

Lemma try_except_cong {A : Type} {S : Type} (m m' : M S A) (h : M S unit) (s : S) :
  m s = m' s -> try_except m h s = try_except m' h s.
Proof. intros H. unfold try_except. rewrite H. reflexivity. Qed.

Lemma for_in_for_each (body : nat -> ndarray -> Method Ext ndarray)
    (step : nat -> ConvolutionLayer Ext -> ndarray -> Py Ext ndarray) cae l :
  (forall i L a w, l !! i = Some L ->
     body i a (mkObj cae w) = call (step i L a) (mkObj cae w)) ->
  forall a w,
    for_in (range (length l)) body a (mkObj cae w) = call (for_each step 0 l a) (mkObj cae w).
Proof.
  intros Hbody. unfold range.
  cut (forall l' k a w, (forall j L, l' !! j = Some L -> l !! (k + j) = Some L) ->
         for_in (seq k (length l')) body a (mkObj cae w)
         = call (for_each step k l' a) (mkObj cae w)).
  { intros H a w. apply H. intros j L Hj. exact Hj. }
  induction l' as [|L l' IH]; intros k a w Hl'; simpl.
  - reflexivity.
  - rewrite call_bind.
    rewrite (bind_cong _ (call (step k L a))).
    + apply bind_call_ext. intros a1 w1. apply IH.
      intros j L' Hj. replace (S k + j) with (k + S j) by lia. apply Hl'. exact Hj.
    + apply Hbody. rewrite <- (Nat.add_0_r k). apply Hl'. reflexivity.
Qed.

Lemma bind_typed_call_ext {B : Type} (nd : nat) (m : Py Ext ndarray)
    (k k' : ndarray -> Method Ext B) cae w :
  (forall x w', k x (mkObj cae w') = k' x (mkObj cae w')) ->
  bind (typed nd (call m)) k (mkObj cae w) = bind (call (typed nd m)) k' (mkObj cae w).
Proof.
  intros H. rewrite (bind_cong (call (typed nd m)) (typed nd (call m))) by apply call_typed.
  unfold typed. rewrite !bind_assoc. apply bind_call_ext. intros x w'.
  unfold bind, acquire_buffer. destruct (decide (ndim x = nd)); simpl; [apply H | reflexivity].
Qed.

Lemma getattr_getitem_bind {B : Type} (k : ConvolutionLayer Ext -> Method Ext B) cae i L w :
  layerable_cnn_list cae !! i = Some L ->
  bind (l <- getattr layerable_cnn_list ;; getitem l i) k (mkObj cae w) = k L (mkObj cae w).
Proof. intros H. unfold bind, getattr, getitem. simpl. rewrite H. reflexivity. Qed.

Lemma getitem_bind {B : Type} (k : ConvolutionLayer Ext -> Method Ext B) l i L (s : Obj Ext) :
  l !! i = Some L -> bind (getitem l i) k s = k L s.
Proof. intros H. unfold bind, getitem. rewrite H. reflexivity. Qed.

Lemma encoder_body_eq cae i L a w :
  layerable_cnn_list cae !! i = Some L ->
  encoder_body i a (mkObj cae w)
  = call (try_except (encode_layer L a) (logger_debug (convolution_message i))) (mkObj cae w).
Proof.
  intros H. rewrite call_try_except. apply try_except_cong.
  unfold encoder_try, encode_layer.
  rewrite (getattr_getitem_bind _ cae i L) by exact H. rewrite call_bind.
  apply bind_typed_call_ext. intros x w'.
  rewrite (getattr_getitem_bind _ cae i L) by exact H. symmetry. apply call_typed.
Qed.

Lemma decoder_body_eq cae l i L a w :
  l !! i = Some L ->
  decoder_body l i a (mkObj cae w)
  = call (try_except (decode_layer L a) (logger_debug (deconvolution_message i))) (mkObj cae w).
Proof.
  intros H. rewrite call_try_except. apply try_except_cong.
  unfold decoder_try, decode_layer.
  rewrite (getitem_bind _ l i L) by exact H. rewrite call_bind.
  apply bind_typed_call_ext. intros x w'.
  rewrite (getitem_bind _ l i L) by exact H. rewrite call_bind.
  apply bind_typed_call_ext. intros x' w''.
  rewrite (getitem_bind _ l i L) by exact H. symmetry. apply call_typed.
Qed.

Lemma backward_convolve_body_eq cae i L a w :
  layerable_cnn_list cae !! i = Some L ->
  backward_convolve_body i a (mkObj cae w)
  = call (try_except (convolve_delta L a) (logger_debug (backward_convolution_message i)))
      (mkObj cae w).
Proof.
  intros H. rewrite call_try_except. apply try_except_cong.
  unfold backward_convolve_try, convolve_delta.
  rewrite (getattr_getitem_bind _ cae i L) by exact H. symmetry. apply call_typed.
Qed.

Lemma delta_body_eq cae l i L a w :
  l !! i = Some L ->
  delta_body l i a (mkObj cae w)
  = call (try_except (propagate_delta L a) (logger_debug (delta_message (length l) i)))
      (mkObj cae w).
Proof.
  intros H. rewrite call_try_except. apply try_except_cong.
  unfold delta_try, propagate_delta.
  rewrite (getitem_bind _ l i L) by exact H. rewrite call_bind.
  apply bind_typed_call_ext. intros x w'.
  rewrite (getitem_bind _ l i L) by exact H. symmetry. apply call_typed.
Qed.

Lemma encoder_loop_eq cae a w :
  encoder_loop a (mkObj cae w) = call (encode (layerable_cnn_list cae) a) (mkObj cae w).
Proof.
  unfold encoder_loop, encode.
  rewrite <- (for_in_for_each encoder_body _ cae (layerable_cnn_list cae)).
  - reflexivity.
  - intros i L a' w' H. apply encoder_body_eq. exact H.
Qed.

Lemma decoder_loop_eq cae a w :
  decoder_loop a (mkObj cae w) = call (decode (layerable_cnn_list cae) a) (mkObj cae w).
Proof.
  unfold decoder_loop, decode.
  rewrite <- (for_in_for_each (decoder_body (reverse (layerable_cnn_list cae))) _ cae).
  - reflexivity.
  - intros i L a' w' H. apply decoder_body_eq. exact H.
Qed.

Lemma backward_convolve_loop_eq cae a w :
  backward_convolve_loop a (mkObj cae w)
  = call (convolve_deltas (layerable_cnn_list cae) a) (mkObj cae w).
Proof.
  unfold backward_convolve_loop, convolve_deltas.
  rewrite <- (for_in_for_each backward_convolve_body _ cae (layerable_cnn_list cae)).
  - reflexivity.
  - intros i L a' w' H. apply backward_convolve_body_eq. exact H.
Qed.

Lemma delta_loop_eq cae a w :
  delta_loop a (mkObj cae w) = call (propagate_deltas (layerable_cnn_list cae) a) (mkObj cae w).
Proof.
  unfold delta_loop, propagate_deltas.
  rewrite <- (for_in_for_each (delta_body (reverse (layerable_cnn_list cae))) _ cae).
  - reflexivity.
  - intros i L a' w' H. rewrite <- (length_reverse (layerable_cnn_list cae)).
    apply delta_body_eq. exact H.
Qed.

Lemma bind_getattr {A B : Type} (f : ConvolutionalAutoEncoder Ext -> A)
    (k : A -> Method Ext B) cae w :
  bind (getattr f) k (mkObj cae w) = k (f cae) (mkObj cae w).
Proof. reflexivity. Qed.

Lemma bind_shape_getitem_ext {B : Type} (k k' : Z -> Method Ext B) a n cae w :
  (forall x, k x (mkObj cae w) = k' x (mkObj cae w)) ->
  bind (shape_getitem a n) k (mkObj cae w) = bind (call (shape_getitem a n)) k' (mkObj cae w).
Proof.
  intros H. unfold bind, call, shape_getitem. simpl.
  destruct (shape a !! n); simpl; [apply H | reflexivity].
Qed.

Lemma on_flattened_eq (f : OptParams Ext -> ndarray -> Py Ext ndarray) a cae w :
  (b <- shape_getitem a 0 ;;
   hidden_activity_arr <- typed 2 (call (reshape a [b; (-1)%Z])) ;;
   opt <- getattr opt_params ;;
   hidden_activity_arr <- typed 2 (call (f opt hidden_activity_arr)) ;;
   s0 <- shape_getitem a 0 ;;
   s1 <- shape_getitem a 1 ;;
   s2 <- shape_getitem a 2 ;;
   s3 <- shape_getitem a 3 ;;
   typed 4 (call (reshape hidden_activity_arr [s0; s1; s2; s3]))) (mkObj cae w)
  = call (on_flattened (f (opt_params cae)) a) (mkObj cae w).
Proof.
  unfold on_flattened.
  rewrite call_bind. apply bind_shape_getitem_ext. intros b.
  rewrite call_bind. apply bind_typed_call_ext. intros h w1.
  rewrite bind_getattr.
  rewrite call_bind. apply bind_typed_call_ext. intros h' w2.
  rewrite call_bind. apply bind_shape_getitem_ext. intros s0.
  rewrite call_bind. apply bind_shape_getitem_ext. intros s1.
  rewrite call_bind. apply bind_shape_getitem_ext. intros s2.
  rewrite call_bind. apply bind_shape_getitem_ext. intros s3.
  symmetry. apply call_typed.
Qed.

Lemma hidden_dropout_eq cae a w :
  hidden_dropout a (mkObj cae w)
  = call (regularized (dropout_rate (opt_params cae)) (dropout (opt_params cae)) a)
      (mkObj cae w).
Proof.
  unfold hidden_dropout, regularized. rewrite bind_getattr.
  destruct (PrimFloat.ltb 0 (dropout_rate (opt_params cae))).
  - apply (on_flattened_eq dropout).
  - reflexivity.
Qed.

Lemma hidden_de_dropout_eq cae a w :
  hidden_de_dropout a (mkObj cae w)
  = call (regularized (dropout_rate (opt_params cae)) (de_dropout (opt_params cae)) a)
      (mkObj cae w).
Proof.
  unfold hidden_de_dropout, regularized. rewrite bind_getattr.
  destruct (PrimFloat.ltb 0 (dropout_rate (opt_params cae))).
  - apply (on_flattened_eq de_dropout).
  - reflexivity.
Qed.

(** The backward pass is one computation on the world. *)
Lemma back_propagation_eq cae delta_arr w :
  back_propagation delta_arr (mkObj cae w) = call (propagate_back cae delta_arr) (mkObj cae w).
Proof.
  unfold back_propagation, propagate_back.
  rewrite call_bind.
  assert (Hacq : forall (k k' : ndarray -> Method Ext ndarray),
             (forall x, k x (mkObj cae w) = k' x (mkObj cae w)) ->
             bind (acquire_buffer 4 delta_arr) k (mkObj cae w)
             = bind (call (acquire_buffer 4 delta_arr)) k' (mkObj cae w)).
  { intros k k' H. unfold bind, call, acquire_buffer.
    destruct (decide (ndim delta_arr = 4)); simpl; [apply H | reflexivity]. }
  apply Hacq. intros d.
  rewrite call_bind.
  rewrite (bind_cong _ (call (convolve_deltas (layerable_cnn_list cae) d)))
    by apply backward_convolve_loop_eq.
  apply bind_call_ext. intros d1 w1.
  rewrite call_bind.
  rewrite (bind_cong _ (call (regularized (dropout_rate (opt_params cae))
                                (de_dropout (opt_params cae)) d1)))
    by apply hidden_de_dropout_eq.
  apply bind_call_ext. intros d2 w2.
  apply delta_loop_eq.
Qed.

(** The forward pass: the encoder on the world, then the capture, which
    allocates the copy and stores it in the instance, then the decoder on
    the world. *)
Lemma forward_propagation_eq cae img_arr w :
  forward_propagation img_arr (mkObj cae w)
  = match encoder_phase cae img_arr w with
    | (w1, Raised e) => (mkObj cae w1, Raised e)
    | (w1, Returned t) =>
        let (w2, o) := decoder_phase cae t (ndarray_copy t w1).1 in
        (mkObj (with_feature_points cae (NDArray (length (heap w1)) (shape t))) w2, o)
    end.
Proof.
  unfold forward_propagation, encoder_phase.
  unfold acquire_buffer.
  destruct (decide (ndim img_arr = 4)) as [Hnd|Hnd]; [|reflexivity].
  bind_ret.
  rewrite (bind_cong _ (call (encode (layerable_cnn_list cae) img_arr)))
    by apply encoder_loop_eq.
  unfold bind at 1. unfold call at 1. simpl.
  destruct (encode (layerable_cnn_list cae) img_arr w) as [w1 [t|e]]; [|reflexivity].
  unfold capture_feature_points, set_feature_points_arr, ndarray_copy.
  unfold bind at 1 2. unfold call at 1. simpl.
  fold (with_feature_points cae (NDArray (length (heap w1)) (shape t))).
  set (cae' := with_feature_points cae _). set (w2 := mkWorld _ _ _).
  rewrite (bind_cong _ (call (regularized (dropout_rate (opt_params cae'))
                                (dropout (opt_params cae')) t)))
    by apply hidden_dropout_eq.
  transitivity (call (decoder_phase cae t) (mkObj cae' w2)).
  - unfold decoder_phase. rewrite call_bind. apply bind_call_ext. intros t' w3.
    apply (decoder_loop_eq cae').
  - reflexivity.
Qed.

End LoopFacts.

(** ** The feature accessor *)

Section Accessor.

Context {Ext : Type}.

Implicit Types (cae : ConvolutionalAutoEncoder Ext) (w : World Ext) (a : ndarray).

Lemma back_propagation_self delta_arr (s : Obj Ext) :
  self (back_propagation delta_arr s).1 = self s.
Proof.
  destruct s as [cae w]. rewrite back_propagation_eq. unfold call. simpl.
  destruct (propagate_back cae delta_arr w). reflexivity.
Qed.

Lemma after_back_propagations_self deltas (s : Obj Ext) :
  self (after_back_propagations deltas s) = self s.
Proof.
  revert s. induction deltas as [|d deltas IH]; intros s; simpl.
  - reflexivity.
  - unfold after_back_propagations in *. simpl. rewrite IH. apply back_propagation_self.
Qed.

(** C7.  On an instance as [__init__] leaves it, and after any number of
    backward passes on it, [extract_feature_points_arr] returns [None] and
    does not raise. *)
Theorem extract_feature_points_arr_before_forward
    (l : list (ConvolutionLayer Ext)) (opt : OptParams Ext) w (deltas : list ndarray) :
  exists cae w',
    init l opt w = (w', Returned cae)
    /\ let s := after_back_propagations deltas (mkObj cae w') in
       extract_feature_points_arr s = (s, Returned None).
Proof.
  eexists. eexists. split.
  - reflexivity.
  - simpl. unfold extract_feature_points_arr, getattr.
    rewrite after_back_propagations_self. reflexivity.
Qed.

(** C9.  [back_propagation] neither writes nor reads the feature points:
    whatever the collaborators do, the accessor returns after the call what
    it returned before it, and the call does the same to the world, with the
    same outcome, whatever the feature points are. *)
Theorem back_propagation_keeps_feature_points delta_arr cae w :
  (extract_feature_points_arr (back_propagation delta_arr (mkObj cae w)).1).2
  = (extract_feature_points_arr (mkObj cae w)).2
  /\ self (back_propagation delta_arr (mkObj cae w)).1 = cae
  /\ forall cache : option ndarray,
       let cae' := {| layerable_cnn_list := layerable_cnn_list cae;
                      opt_params := opt_params cae;
                      __feature_points_arr := cache |} in
       world (back_propagation delta_arr (mkObj cae' w)).1
       = world (back_propagation delta_arr (mkObj cae w)).1
       /\ (back_propagation delta_arr (mkObj cae' w)).2
          = (back_propagation delta_arr (mkObj cae w)).2.
Proof.
  split; [|split].
  - unfold extract_feature_points_arr, getattr. simpl.
    rewrite back_propagation_self. reflexivity.
  - apply (back_propagation_self delta_arr (mkObj cae w)).
  - intros cache cae'. rewrite !back_propagation_eq. unfold call. simpl.
    change (propagate_back cae' delta_arr w) with (propagate_back cae delta_arr w).
    destruct (propagate_back cae delta_arr w). split; reflexivity.
Qed.

End Accessor.

(** ** The forward pass *)

(** A rate that compares equal to [0] (either zero) is not greater than [0]. *)
Lemma zero_rate_not_positive (rate : float) :
  PrimFloat.eqb rate 0 = true -> PrimFloat.ltb 0 rate = false.
Proof.
  rewrite FloatAxioms.eqb_spec, FloatAxioms.ltb_spec.
  change (Prim2SF 0) with (S754_zero false).
  destruct (Prim2SF rate) as [sg|sg| |sg m e]; try discriminate; try reflexivity;
    destruct sg; discriminate.
Qed.

Section Forward.

Context {Ext : Type}.

Implicit Types (cae : ConvolutionalAutoEncoder Ext) (w : World Ext) (a : ndarray).

Lemma forward_propagation_split img_arr (s : Obj Ext) :
  forward_propagation img_arr s = (t <- up_to_decoder_loop img_arr ;; decoder_loop t) s.
Proof.
  unfold forward_propagation, up_to_decoder_loop.
  rewrite bind_assoc. apply bind_ext. intros a1 s1.
  rewrite bind_assoc. apply bind_ext. intros a2 s2.
  rewrite bind_assoc. reflexivity.
Qed.

Lemma forward_propagation_world cae img_arr w :
  (world (forward_propagation img_arr (mkObj cae w)).1,
   (forward_propagation img_arr (mkObj cae w)).2)
  = (t <- encoder_phase cae img_arr ;; ndarray_copy t ;;; decoder_phase cae t) w.
Proof.
  rewrite forward_propagation_eq. unfold bind at 1.
  destruct (encoder_phase cae img_arr w) as [w1 [t|e]]; [|reflexivity].
  unfold bind, ndarray_copy. simpl.
  destruct (decoder_phase cae t _) as [w2 o]. reflexivity.
Qed.

Lemma encode_then_decode_eq cae img_arr w :
  encode_then_decode img_arr (mkObj cae w)
  = match encoder_phase cae img_arr w with
    | (w1, Raised e) => (mkObj cae w1, Raised e)
    | (w1, Returned t) =>
        let (w2, o) := decode (layerable_cnn_list cae) t (ndarray_copy t w1).1 in
        (mkObj (with_feature_points cae (NDArray (length (heap w1)) (shape t))) w2, o)
    end.
Proof.
  unfold encode_then_decode, encoder_phase, acquire_buffer.
  destruct (decide (ndim img_arr = 4)) as [Hnd|Hnd]; [|reflexivity].
  bind_ret.
  rewrite bind_getattr.
  unfold bind at 1. unfold call at 1. simpl.
  destruct (encode (layerable_cnn_list cae) img_arr w) as [w1 [t|e]]; reflexivity.
Qed.

(** C10.  When [forward_propagation] raises, the feature points depend on
    where: an exception out of the encoder phase leaves the instance as it
    was, while after a completed encoder phase the instance already holds the
    copy of this call's encoding, a buffer allocated by this call that holds
    the elements the encoder returned, and the exception comes from the
    dropout step or the decoder loop. *)
Theorem forward_propagation_failure_feature_points cae img_arr w (s' : Obj Ext)
    (e : BaseException) :
  forward_propagation img_arr (mkObj cae w) = (s', Raised e) ->
  match encoder_phase cae img_arr w with
  | (w1, Raised e1) => s' = mkObj cae w1 /\ e = e1
  | (w1, Returned t) =>
      let copy := NDArray (length (heap w1)) (shape t) in
      let w2 := (ndarray_copy t w1).1 in
      (extract_feature_points_arr s').2 = Returned (Some copy)
      /\ buffer w2 (data copy) = buffer w1 (data t)
      /\ decoder_phase cae t w2 = (world s', Raised e)
      /\ forall old, __feature_points_arr cae = Some old ->
                     data old < length (heap w1) -> Some copy <> Some old
  end.
Proof.
  rewrite forward_propagation_eq.
  destruct (encoder_phase cae img_arr w) as [w1 [t|e1]].
  - destruct (decoder_phase cae t (ndarray_copy t w1).1) as [w3 o] eqn:Hdec.
    intros H. injection H as <- ->. simpl. split; [reflexivity|]. split; [|split].
    + unfold buffer. simpl. rewrite lookup_app_r by lia.
      rewrite Nat.sub_diag. reflexivity.
    + exact Hdec.
    + intros old _ Hold Heq. injection Heq as Heq. subst old. simpl in Hold. lia.
  - intros H. injection H as <- <-. split; reflexivity.
Qed.

End Forward.

(** *** The forward pass on concrete stacks *)

Lemma forward_propagation_failure_feature_points_witness :
  let cae := Scenario.network [Scenario.plain; Scenario.broken_deconvolve] 0 in
  let r := forward_propagation Scenario.batch (mkObj cae Scenario.world0) in
  r.2 = Raised Scenario.boom
  /\ (extract_feature_points_arr r.1).2 = Returned (Some (NDArray 5 [2; 1; 1; 1]))
  /\ buffer (world r.1) 5 = [7%float; 8%float].
Proof.
  intros cae r.
  assert (Hr : forward_propagation Scenario.batch (mkObj cae Scenario.world0)
               = (r.1, Raised Scenario.boom)) by (vm_compute; reflexivity).
  pose proof (forward_propagation_failure_feature_points
                cae Scenario.batch Scenario.world0 r.1 Scenario.boom Hr) as H.
  vm_compute in H. destruct H as (H1 & _).
  split; [reflexivity|]. split; [exact H1 | reflexivity].
Defined.

(** ** The decoder loop and the failures of the loops *)

Section Failures.

Context {Ext : Type}.

Implicit Types (cae : ConvolutionalAutoEncoder Ext) (w : World Ext) (a : ndarray).
Implicit Types (L : ConvolutionLayer Ext) (s : Obj Ext).

Lemma up_to_decoder_loop_layers img_arr s :
  layerable_cnn_list (self (up_to_decoder_loop img_arr s).1) = layerable_cnn_list (self s).
Proof.
  destruct s as [cae w]. unfold up_to_decoder_loop, acquire_buffer.
  destruct (decide (ndim img_arr = 4)) as [Hnd|Hnd]; [|reflexivity].
  bind_ret.
  rewrite (bind_cong _ (call (encode (layerable_cnn_list cae) img_arr)))
    by apply encoder_loop_eq.
  unfold bind at 1. unfold call at 1. simpl.
  destruct (encode (layerable_cnn_list cae) img_arr w) as [w1 [t|e]]; [|reflexivity].
  unfold capture_feature_points, set_feature_points_arr, ndarray_copy.
  unfold bind at 1 2. unfold call at 1. simpl.
  rewrite hidden_dropout_eq. unfold call. simpl.
  destruct (regularized _ _ t _). reflexivity.
Qed.

Lemma up_to_delta_loop_self delta_arr s :
  self (up_to_delta_loop delta_arr s).1 = self s.
Proof.
  destruct s as [cae w]. unfold up_to_delta_loop, acquire_buffer.
  destruct (decide (ndim delta_arr = 4)) as [Hnd|Hnd]; [|reflexivity].
  bind_ret.
  rewrite (bind_cong _ (call (convolve_deltas (layerable_cnn_list cae) delta_arr)))
    by apply backward_convolve_loop_eq.
  unfold bind at 1. unfold call at 1. simpl.
  destruct (convolve_deltas (layerable_cnn_list cae) delta_arr w) as [w1 [t|e]]; [|reflexivity].
  rewrite hidden_de_dropout_eq. unfold call. simpl.
  destruct (regularized _ _ t _). reflexivity.
Qed.

Lemma back_propagation_split delta_arr s :
  back_propagation delta_arr s = (d <- up_to_delta_loop delta_arr ;; delta_loop d) s.
Proof.
  unfold back_propagation, up_to_delta_loop.
  rewrite bind_assoc. apply bind_ext. intros a1 s1.
  rewrite bind_assoc. reflexivity.
Qed.

Lemma range_split (i n : nat) : i < n -> range n = seq 0 i ++ i :: seq (S i) (n - S i).
Proof.
  intros Hi. unfold range. replace n with (i + S (n - S i)) at 1 by lia.
  rewrite seq_app. reflexivity.
Qed.

(** A loop whose first [i] iterations return and whose iteration [i] is
    given: the loop is that iteration followed by the rest. *)
Lemma for_in_reach {St : Type} (body : nat -> ndarray -> M St ndarray) (i n : nat)
    (a ai : ndarray) (s si : St) :
  i < n ->
  for_in (seq 0 i) body a s = (si, Returned ai) ->
  for_in (range n) body a s
  = (a' <- body i ai ;; for_in (seq (S i) (n - S i)) body a') si.
Proof.
  intros Hi Hpre. rewrite (range_split i n Hi), for_in_app.
  rewrite (bind_returned _ _ _ _ _ Hpre). reflexivity.
Qed.

Lemma decode_layer_returned L a w w1 a1 w2 a2 w3 a3 :
  backward (activation_function (graph L)) a w = (w1, Returned a1) -> ndim a1 = 4 ->
  deconvolve L a1 w1 = (w2, Returned a2) -> ndim a2 = 4 ->
  activate (deactivation_function (graph L)) a2 w2 = (w3, Returned a3) -> ndim a3 = 4 ->
  decode_layer L a w = (w3, Returned a3).
Proof.
  intros H1 N1 H2 N2 H3 N3. unfold decode_layer, typed, acquire_buffer.
  rewrite bind_assoc, (bind_returned _ _ _ _ _ H1), decide_True by exact N1.
  bind_ret.
  rewrite bind_assoc, (bind_returned _ _ _ _ _ H2), decide_True by exact N2.
  bind_ret.
  rewrite (bind_returned _ _ _ _ _ H3), decide_True by exact N3.
  reflexivity.
Qed.

(** C1, as the code has it.  In the decoder loop of [forward_propagation],
    iteration [i] works on the layer [i] places from the end of the stack, and
    when its three calls return (four-dimensional arrays) the running array
    after it is what the activate of the layer's deactivation function returns
    on what the layer's deconvolve returns on what the backward of the layer's
    activation function returns on the running array before it; the pass goes
    on from there with the layers left. *)
Theorem forward_propagation_decoder_step cae img_arr w s1 t (i : nat) si ti L
    w1 a1 w2 a2 w3 a3 :
  let rl := reverse (layerable_cnn_list cae) in
  let n := length (layerable_cnn_list cae) in
  up_to_decoder_loop img_arr (mkObj cae w) = (s1, Returned t) ->
  for_in (seq 0 i) (decoder_body rl) t s1 = (si, Returned ti) ->
  i < n ->
  layerable_cnn_list cae !! (n - 1 - i) = Some L ->
  backward (activation_function (graph L)) ti (world si) = (w1, Returned a1) -> ndim a1 = 4 ->
  deconvolve L a1 w1 = (w2, Returned a2) -> ndim a2 = 4 ->
  activate (deactivation_function (graph L)) a2 w2 = (w3, Returned a3) -> ndim a3 = 4 ->
  decoder_body rl i ti si = (mkObj (self si) w3, Returned a3)
  /\ forward_propagation img_arr (mkObj cae w)
     = for_in (seq (S i) (n - S i)) (decoder_body rl) a3 (mkObj (self si) w3).
Proof.
  intros rl n Hup Hpre Hi HL H1 N1 H2 N2 H3 N3.
  assert (Hrl : rl !! i = Some L).
  { unfold rl. rewrite reverse_lookup by exact Hi. rewrite <- HL. f_equal. lia. }
  assert (Hbody : decoder_body rl i ti si = (mkObj (self si) w3, Returned a3)).
  { destruct si as [caei wi]. rewrite (decoder_body_eq _ _ _ L) by exact Hrl.
    unfold call, try_except. simpl in *.
    rewrite (decode_layer_returned L ti wi w1 a1 w2 a2 w3 a3) by assumption.
    reflexivity. }
  split; [exact Hbody|].
  rewrite forward_propagation_split, (bind_returned _ _ _ _ _ Hup).
  unfold decoder_loop. rewrite bind_assoc.
  pose proof (up_to_decoder_loop_layers img_arr (mkObj cae w)) as Hl.
  rewrite Hup in Hl. simpl in Hl. destruct s1 as [cae1 w'].
  rewrite bind_getattr. simpl in Hl. rewrite Hl.
  bind_ret.
  fold rl. unfold rl at 1. rewrite length_reverse. fold n.
  rewrite (for_in_reach _ i n t ti _ si Hi Hpre).
  rewrite (bind_returned _ _ _ _ _ Hbody). reflexivity.
Qed.

(** C2, as the code has it.  With a stack of two layers, when the deconvolve
    of the second layer of the stack raises in the decoder loop,
    [forward_propagation] raises the same exception, after one debug record
    more whose message is "Error raised in Deconvolution layer 1": the number
    is the place of the layer in the reversed list. *)
Theorem forward_propagation_deconvolve_failure cae L1 L2 img_arr w s1 t s2 t1 s3 e :
  layerable_cnn_list cae = [L1; L2] ->
  up_to_decoder_loop img_arr (mkObj cae w) = (s1, Returned t) ->
  typed 4 (call (backward (activation_function (graph L2)) t)) s1 = (s2, Returned t1) ->
  call (deconvolve L2 t1) s2 = (s3, Raised e) ->
  let r := forward_propagation img_arr (mkObj cae w) in
  r.2 = Raised e
  /\ self r.1 = self s3
  /\ heap (world r.1) = heap (world s3)
  /\ ext (world r.1) = ext (world s3)
  /\ records (world r.1)
     = records (world s3)
       ++ [{| levelname := "DEBUG"; message := "Error raised in Deconvolution layer 1" |}].
Proof.
  intros Hl Hup Hback Hdec r.
  assert (Hr : r = ((call (logger_debug "Error raised in Deconvolution layer 1") s3).1,
                    Raised e)).
  { unfold r.
    rewrite forward_propagation_split, (bind_returned _ _ _ _ _ Hup).
    pose proof (up_to_decoder_loop_layers img_arr (mkObj cae w)) as Hl1.
    rewrite Hup in Hl1. simpl in Hl1. rewrite Hl in Hl1.
    unfold decoder_loop. rewrite bind_assoc. destruct s1 as [cae1 w1]. simpl in Hl1.
    rewrite bind_getattr, Hl1.
    bind_ret.
    change (range (length (reverse [L1; L2]))) with [0; 1].
    change (reverse [L1; L2]) with [L2; L1].
    simpl for_in. apply bind_raised.
    unfold decoder_body, decoder_try, try_except.
    rewrite (getitem_bind _ [L2; L1] 0 L2) by reflexivity.
    rewrite (bind_returned _ _ _ _ _ Hback).
    rewrite (getitem_bind _ [L2; L1] 0 L2) by reflexivity.
    unfold typed at 1. rewrite bind_assoc, (bind_raised _ _ _ _ _ Hdec).
    reflexivity. }
  rewrite Hr. simpl. auto.
Qed.

Lemma delta_loop_unfold delta_arr cae w :
  delta_loop delta_arr (mkObj cae w)
  = for_in (range (length (layerable_cnn_list cae)))
      (delta_body (reverse (layerable_cnn_list cae))) delta_arr (mkObj cae w).
Proof.
  unfold delta_loop. rewrite bind_assoc, bind_getattr.
  bind_ret.
  rewrite length_reverse. reflexivity.
Qed.

(** C8.  When the try block of the second loop of [back_propagation] raises
    at position [i] of the reversed list, the handler logs one debug record
    whose number is [len(layerable_cnn_list) - i], which is the place,
    counted from 1, that the failing layer has in the stack, and the
    exception is raised again as it is. *)
Theorem back_propagation_delta_failure cae delta_arr w s1 d1 (i : nat) s2 d2 s3 e :
  let rl := reverse (layerable_cnn_list cae) in
  up_to_delta_loop delta_arr (mkObj cae w) = (s1, Returned d1) ->
  i < length rl ->
  for_in (seq 0 i) (delta_body rl) d1 s1 = (s2, Returned d2) ->
  delta_try rl i d2 s2 = (s3, Raised e) ->
  let r := back_propagation delta_arr (mkObj cae w) in
  r.2 = Raised e
  /\ self r.1 = self s3
  /\ heap (world r.1) = heap (world s3)
  /\ ext (world r.1) = ext (world s3)
  /\ records (world r.1)
     = records (world s3)
       ++ [{| levelname := "DEBUG";
              message := "Delta computation raised an error in CNN layer "
                         +:+ str (length rl - i) |}]
  /\ rl !! i = layerable_cnn_list cae !! (length rl - i - 1).
Proof.
  intros rl Hup Hi Hpre Htry r.
  unfold rl in Hi. rewrite length_reverse in Hi.
  assert (Hr : r = ((call (logger_debug (delta_message (length rl) i)) s3).1, Raised e)).
  { unfold r.
    rewrite back_propagation_split, (bind_returned _ _ _ _ _ Hup).
    pose proof (up_to_delta_loop_self delta_arr (mkObj cae w)) as Hs.
    rewrite Hup in Hs. simpl in Hs. destruct s1 as [cae1 w1]. simpl in Hs. subst cae1.
    rewrite delta_loop_unfold. fold rl.
    rewrite (for_in_reach _ i _ d1 d2 _ s2 Hi Hpre).
    apply bind_raised.
    unfold delta_body, try_except. rewrite Htry. reflexivity. }
  rewrite Hr. simpl. repeat (split; [reflexivity|]).
  unfold rl. rewrite length_reverse, reverse_lookup by exact Hi.
  f_equal. lia.
Qed.

End Failures.

(** *** The decoder loop and the failures on concrete stacks *)

Lemma forward_propagation_decoder_step_witness :
  let cae := Scenario.network [Scenario.plain; Scenario.plain] 0 in
  let s1 := (up_to_decoder_loop Scenario.batch (mkObj cae Scenario.world0)).1 in
  decoder_body (reverse (layerable_cnn_list cae)) 0 (NDArray 4 [2; 1; 1; 1]) s1
  = (mkObj (self s1)
       (activate (deactivation_function (graph Scenario.plain)) (NDArray 7 [2; 1; 1; 1])
          (deconvolve Scenario.plain (NDArray 6 [2; 1; 1; 1])
             (backward (activation_function (graph Scenario.plain)) (NDArray 4 [2; 1; 1; 1])
                (world s1)).1).1).1,
     Returned (NDArray 8 [2; 1; 1; 1])).
Proof.
  intros cae s1.
  set (t := NDArray 4 [2; 1; 1; 1]).
  set (r1 := backward (activation_function (graph Scenario.plain)) t (world s1)).
  set (r2 := deconvolve Scenario.plain (NDArray 6 [2; 1; 1; 1]) r1.1).
  set (r3 := activate (deactivation_function (graph Scenario.plain))
               (NDArray 7 [2; 1; 1; 1]) r2.1).
  refine (proj1 (forward_propagation_decoder_step cae Scenario.batch Scenario.world0
                   s1 t 0 s1 t Scenario.plain
                   r1.1 (NDArray 6 [2; 1; 1; 1]) r2.1 (NDArray 7 [2; 1; 1; 1])
                   r3.1 (NDArray 8 [2; 1; 1; 1]) _ _ _ _ _ _ _ _ _ _));
    try reflexivity.
  simpl. lia.
Defined.

(** C1, as it is stated, fails: the first call of a decoder step is the
    backward of the layer's activation function.  With one layer whose two
    functions mark what their [backward] returns, [forward_propagation]
    returns the elements marked by the activation function, and the decoder
    step with the deactivation function's backward would have returned the
    other mark. *)
Lemma decoder_step_not_by_deactivation_backward :
  let s0 := mkObj (Scenario.network [Scenario.plain] 0) Scenario.world0 in
  let claimed := (t <- up_to_decoder_loop Scenario.batch ;;
                  call (decode_layer_by_deactivation Scenario.plain t)) s0 in
  returned_elements (forward_propagation Scenario.batch s0) = Some [1%float; 1%float]
  /\ returned_elements claimed = Some [2%float; 2%float]
  /\ returned_elements (forward_propagation Scenario.batch s0) <> returned_elements claimed.
Proof.
  intros s0 claimed.
  assert (H1 : returned_elements (forward_propagation Scenario.batch s0)
               = Some [1%float; 1%float]) by (vm_compute; reflexivity).
  assert (H2 : returned_elements claimed = Some [2%float; 2%float])
    by (vm_compute; reflexivity).
  split; [exact H1|]. split; [exact H2|].
  rewrite H1, H2. intros H.
  apply (f_equal (fun o => match o with
                           | Some (x :: _) => PrimFloat.eqb 1 x
                           | _ => false
                           end)) in H.
  vm_compute in H. discriminate H.
Qed.

Lemma forward_propagation_deconvolve_failure_witness :
  let cae := Scenario.network [Scenario.plain; Scenario.broken_deconvolve] 0 in
  let r := forward_propagation Scenario.batch (mkObj cae Scenario.world0) in
  r.2 = Raised Scenario.boom
  /\ records (world r.1)
     = [{| levelname := "DEBUG"; message := "Error raised in Deconvolution layer 1" |}].
Proof.
  intros cae r.
  set (s1 := (up_to_decoder_loop Scenario.batch (mkObj cae Scenario.world0)).1).
  set (t := NDArray 4 [2; 1; 1; 1]).
  set (s2 := (typed 4 (call (backward (activation_function
                                         (graph Scenario.broken_deconvolve)) t)) s1).1).
  destruct (forward_propagation_deconvolve_failure cae Scenario.plain
              Scenario.broken_deconvolve Scenario.batch Scenario.world0
              s1 t s2 (NDArray 6 [2; 1; 1; 1]) s2 Scenario.boom
              eq_refl eq_refl eq_refl eq_refl) as (H1 & _ & _ & _ & H5).
  split; [exact H1 | exact H5].
Defined.

(** C2, as it is stated, fails: with two layers of which the second one's
    deconvolve raises, the exception is raised again, and the one record
    logged names layer 1; no record contains "layer 2". *)
Lemma deconvolve_failure_not_logged_as_layer_2 :
  let cae := Scenario.network [Scenario.plain; Scenario.broken_deconvolve] 0 in
  let r := forward_propagation Scenario.batch (mkObj cae Scenario.world0) in
  layerable_cnn_list cae !! 1 = Some Scenario.broken_deconvolve
  /\ r.2 = Raised Scenario.boom
  /\ message <$> records (world r.1) = ["Error raised in Deconvolution layer 1"]
  /\ ~ Exists (fun x => references "layer 2" x = true) (records (world r.1)).
Proof.
  intros cae r.
  assert (Hrec : records (world r.1)
                 = [{| levelname := "DEBUG";
                       message := "Error raised in Deconvolution layer 1" |}])
    by (vm_compute; reflexivity).
  split; [reflexivity|]. split; [vm_compute; reflexivity|].
  rewrite Hrec. split; [reflexivity|].
  intros H. apply Exists_cons in H as [H|H].
  - vm_compute in H. discriminate H.
  - apply Exists_nil in H. exact H.
Qed.

Lemma back_propagation_delta_failure_witness :
  let cae := Scenario.network [Scenario.broken_back_propagate; Scenario.plain] 0 in
  let r := back_propagation Scenario.batch (mkObj cae Scenario.world0) in
  r.2 = Raised Scenario.boom
  /\ records (world r.1)
     = [{| levelname := "DEBUG";
           message := "Delta computation raised an error in CNN layer 1" |}]
  /\ layerable_cnn_list cae !! 0 = Some Scenario.broken_back_propagate.
Proof.
  intros cae r.
  set (rl := reverse (layerable_cnn_list cae)).
  set (s1 := (up_to_delta_loop Scenario.batch (mkObj cae Scenario.world0)).1).
  set (d1 := NDArray 2 [2; 1; 1; 1]).
  set (s2 := (for_in (seq 0 1) (delta_body rl) d1 s1).1).
  assert (Hi : 1 < length rl) by (simpl; lia).
  destruct (back_propagation_delta_failure cae Scenario.batch Scenario.world0
              s1 d1 1 s2 (NDArray 4 [2; 1; 1; 1]) s2 Scenario.boom
              eq_refl Hi eq_refl eq_refl) as (H1 & _ & _ & _ & H5 & H6).
  split; [exact H1|]. split; [exact H5|]. reflexivity.
Defined.

(** ** The feature points are a copy

    The copy lives in a buffer that [forward_propagation] allocates and hands
    to nobody.  A collaborator that is not handed a buffer can still reach it
    only if it kept a reference from elsewhere; [leaves p] says that a
    computation does not: it keeps the buffer [p] allocated, does not write to
    it and returns no array on it. *)

Section Copy.

Context {Ext : Type}.

Implicit Types (cae : ConvolutionalAutoEncoder Ext) (w : World Ext) (a : ndarray).
Implicit Types (L : ConvolutionLayer Ext) (p : nat).

Lemma leaves_ret p a : data a <> p -> leaves (Ext := Ext) p (ret a).
Proof. intros Ha w Hp. simpl. repeat split; [exact Hp|]. intros b [= <-]. exact Ha. Qed.

Lemma leaves_raise p e : leaves (Ext := Ext) p (raise e).
Proof. intros w Hp. simpl. repeat split; [exact Hp|]. intros b H. discriminate H. Qed.

Lemma leaves_bind p (m : Py Ext ndarray) (k : ndarray -> Py Ext ndarray) :
  leaves p m -> untouched p k -> leaves p (bind m k).
Proof.
  intros Hm Hk w Hp. destruct (Hm w Hp) as (H1 & H2 & H3).
  unfold bind. destruct (m w) as [w1 [a|e]]; simpl in *.
  - destruct (Hk a (H3 a eq_refl) w1 H1) as (K1 & K2 & K3).
    split; [exact K1|]. split; [congruence | exact K3].
  - repeat split; [exact H1 | exact H2 |]. intros b H. discriminate H.
Qed.

Lemma leaves_typed p nd (m : Py Ext ndarray) : leaves p m -> leaves p (typed nd m).
Proof.
  intros Hm. apply leaves_bind; [exact Hm|].
  intros a Ha. unfold acquire_buffer. destruct (decide (ndim a = nd)).
  - apply leaves_ret. exact Ha.
  - apply leaves_raise.
Qed.

Lemma leaves_try_except p (m : Py Ext ndarray) msg :
  leaves p m -> leaves p (try_except m (logger_debug msg)).
Proof.
  intros Hm w Hp. destruct (Hm w Hp) as (H1 & H2 & H3).
  unfold try_except. destruct (m w) as [w1 [a|e]]; simpl in *.
  - repeat split; assumption.
  - repeat split; [exact H1 | exact H2 |]. intros b H. discriminate H.
Qed.

Lemma leaves_reshape p a newshape :
  data a <> p -> leaves (Ext := Ext) p (reshape a newshape).
Proof.
  intros Ha. unfold reshape.
  destruct (decide (Exists _ newshape)); [apply leaves_raise|].
  destruct (unknown_dims newshape) as [|[|u]].
  - destruct (decide _); [apply leaves_ret; exact Ha | apply leaves_raise].
  - destruct (decide _); [apply leaves_raise | apply leaves_ret; exact Ha].
  - apply leaves_raise.
Qed.

Lemma leaves_bind_shape_getitem p a n (k : Z -> Py Ext ndarray) :
  (forall z, leaves p (k z)) -> leaves p (bind (shape_getitem a n) k).
Proof.
  intros Hk. unfold bind, shape_getitem. destruct (shape a !! n); simpl.
  - apply Hk.
  - apply leaves_raise.
Qed.

Lemma leaves_for_each p (step : nat -> ConvolutionLayer Ext -> ndarray -> Py Ext ndarray)
    (l : list (ConvolutionLayer Ext)) :
  Forall (fun L => forall i, untouched p (step i L)) l ->
  forall i, untouched p (for_each step i l).
Proof.
  induction 1 as [|L l HL _ IH]; intros i a Ha; simpl.
  - apply leaves_ret. exact Ha.
  - apply leaves_bind; [apply HL; exact Ha | apply IH].
Qed.

Lemma decode_untouched p (l : list (ConvolutionLayer Ext)) :
  Forall (layer_untouched p) l -> untouched p (decode l).
Proof.
  intros Hl. unfold decode. apply leaves_for_each.
  apply Forall_reverse. eapply Forall_impl; [exact Hl|].
  intros L (H1 & H2 & H3) i a Ha. apply leaves_try_except. unfold decode_layer.
  apply leaves_bind; [apply leaves_typed, H1, Ha|]. intros a1 Ha1.
  apply leaves_bind; [apply leaves_typed, H2, Ha1|]. intros a2 Ha2.
  apply leaves_typed, H3, Ha2.
Qed.

Lemma regularized_untouched p rate (f : ndarray -> Py Ext ndarray) :
  untouched p f -> untouched p (regularized rate f).
Proof.
  intros Hf a Ha. unfold regularized. destruct (PrimFloat.ltb 0 rate).
  - unfold on_flattened. apply leaves_bind_shape_getitem. intros b.
    apply leaves_bind; [apply leaves_typed, leaves_reshape, Ha|]. intros h Hh.
    apply leaves_bind; [apply leaves_typed, Hf, Hh|]. intros h' Hh'.
    do 4 (apply leaves_bind_shape_getitem; intros ?).
    apply leaves_typed, leaves_reshape, Hh'.
  - apply leaves_ret. exact Ha.
Qed.

(** C3.  After a [forward_propagation] that returns, the accessor returns an
    array of the shape of the encoder's result, whose elements are those the
    encoder's result had when the encoder loop ended, and which lies in a
    buffer of its own: it is neither a view of the returned array nor of the
    running one, so writing through either leaves its elements as they are.
    The collaborators of the decoder side are supposed not to reach a buffer
    they were never handed. *)
Theorem feature_points_are_a_copy cae img_arr w w1 t (s' : Obj Ext) r :
  encoder_phase cae img_arr w = (w1, Returned t) ->
  data t < length (heap w1) ->
  untouched (length (heap w1)) (dropout (opt_params cae)) ->
  Forall (layer_untouched (length (heap w1))) (layerable_cnn_list cae) ->
  forward_propagation img_arr (mkObj cae w) = (s', Returned r) ->
  exists c,
    (extract_feature_points_arr s').2 = Returned (Some c)
    /\ shape c = shape t
    /\ buffer (world s') (data c) = buffer w1 (data t)
    /\ data c <> data r /\ data c <> data t
    /\ forall v,
         buffer (ndarray_store r v (world s')) (data c) = buffer (world s') (data c)
         /\ buffer (ndarray_store t v (world s')) (data c) = buffer (world s') (data c).
Proof.
  intros Henc Hlive Hdrop Hlayers Hfwd.
  rewrite forward_propagation_eq, Henc in Hfwd.
  set (p := length (heap w1)) in *.
  assert (Hdec : untouched p (decoder_phase cae)).
  { intros a Ha. unfold decoder_phase.
    apply leaves_bind; [apply regularized_untouched; [exact Hdrop | exact Ha]|].
    apply decode_untouched. exact Hlayers. }
  assert (Ht : data t <> p) by lia.
  assert (Hp2 : p < length (heap (ndarray_copy t w1).1))
    by (simpl; rewrite length_app; simpl; fold p; lia).
  destruct (Hdec t Ht _ Hp2) as (K1 & K2 & K3).
  destruct (decoder_phase cae t (ndarray_copy t w1).1) as [w3 o].
  injection Hfwd as <- ->. simpl in *.
  exists (NDArray p (shape t)). simpl.
  assert (Hr : p <> data r) by (intros E; apply (K3 r eq_refl); symmetry; exact E).
  split; [reflexivity|]. split; [reflexivity|]. split; [|split; [exact Hr|split; [lia|]]].
  - rewrite K2. unfold buffer. simpl. rewrite lookup_app_r by (fold p; lia).
    fold p. rewrite Nat.sub_diag. reflexivity.
  - intros v. unfold buffer, ndarray_store. simpl.
    rewrite !list_lookup_insert_ne by (try exact (fun E => Hr (eq_sym E)); lia).
    split; reflexivity.
Qed.

End Copy.

Section DoublesLeave.

Context {X : Type}.

Lemma allocating_untouched p f g : untouched p (allocating (X := X) f g).
Proof.
  intros a Ha w Hp. unfold allocating, buffer. simpl. rewrite length_app.
  split; [lia|]. split.
  - rewrite lookup_app_l by exact Hp. reflexivity.
  - intros b [= <-]. simpl. lia.
Qed.

Lemma in_place_untouched p f : untouched p (in_place (X := X) f).
Proof.
  intros a Ha w Hp. unfold in_place, buffer. simpl. rewrite length_insert.
  split; [exact Hp|]. split.
  - rewrite list_lookup_insert_ne by exact Ha. reflexivity.
  - intros b [= <-]. exact Ha.
Qed.

End DoublesLeave.

Lemma feature_points_are_a_copy_witness :
  let cae := Scenario.network [Scenario.plain; Scenario.overwriting] 0 in
  let r := forward_propagation Scenario.batch (mkObj cae Scenario.world0) in
  exists c,
    (extract_feature_points_arr r.1).2 = Returned (Some c)
    /\ shape c = [2; 1; 1; 1]
    /\ buffer (world r.1) (data c) = [7%float; 8%float]
    /\ buffer (world r.1) 4 = [9%float; 9%float]
    /\ data c <> 10.
Proof.
  intros cae r.
  set (w1 := (encoder_phase cae Scenario.batch Scenario.world0).1).
  set (t := NDArray 4 [2; 1; 1; 1]).
  assert (Henc : encoder_phase cae Scenario.batch Scenario.world0 = (w1, Returned t))
    by reflexivity.
  assert (Hlive : data t < length (heap w1)) by (simpl; lia).
  assert (Hdrop : untouched (length (heap w1)) (dropout (opt_params cae)))
    by apply allocating_untouched.
  assert (Hlayers : Forall (layer_untouched (length (heap w1))) (layerable_cnn_list cae))
    by (constructor; [|constructor; [|constructor]];
        (split; [|split]);
        first [apply allocating_untouched | apply in_place_untouched]).
  assert (Hfwd : forward_propagation Scenario.batch (mkObj cae Scenario.world0)
                 = (r.1, Returned (NDArray 10 [2; 1; 1; 1]))) by reflexivity.
  destruct (feature_points_are_a_copy cae Scenario.batch Scenario.world0 w1 t r.1 _
              Henc Hlive Hdrop Hlayers Hfwd) as (c & H1 & H2 & H3 & H4 & _).
  exists c. split; [exact H1|]. split; [exact H2|]. split; [exact H3|].
  split; [reflexivity | exact H4].
Defined.

(** ** The order of the calls *)

Section Traces.

Context {X : Type}.

Implicit Types (w : World (list Call * X)) (a : ndarray) (K : list (callee * method)).

Lemma chained_data a b calls : data a = data b -> chained a calls -> chained b calls.
Proof. destruct calls as [|c calls]; simpl; [auto|]. intros E [H1 H2]. split; congruence. Qed.

Lemma final_data a b calls r :
  data a = data b ->
  (exists r0, final a calls = Returned r0 /\ data r0 = data r) ->
  exists r0, final b calls = Returned r0 /\ data r0 = data r.
Proof.
  destruct calls as [|c calls]; simpl; [|auto].
  intros E (r0 & [= <-] & H). exists b. split; [reflexivity | congruence].
Qed.

Lemma chained_app a calls1 calls2 r0 :
  chained a calls1 -> final a calls1 = Returned r0 -> chained r0 calls2 ->
  chained a (calls1 ++ calls2).
Proof.
  revert a. induction calls1 as [|c calls1 IH]; intros a; simpl.
  - intros _ [= <-] H. exact H.
  - intros [H1 H2] Hf H. split; [exact H1|].
    destruct (result c) as [a'|e]; [apply IH; assumption | discriminate Hf].
Qed.

Lemma final_app a calls1 calls2 r0 :
  final a calls1 = Returned r0 -> final a (calls1 ++ calls2) = final r0 calls2.
Proof.
  revert a. induction calls1 as [|c calls1 IH]; intros a; simpl.
  - intros [= <-]. reflexivity.
  - destruct (result c) as [a'|e]; [apply IH | discriminate].
Qed.

Lemma runs_ret a b : data a = data b -> runs (X := X) a [] (ret b).
Proof.
  intros E w. exists []. simpl. rewrite app_nil_r.
  split; [reflexivity|]. split; [reflexivity|]. split; [exact I|].
  intros r [= <-]. split; [reflexivity|]. exists a. split; [reflexivity | exact E].
Qed.

Lemma runs_raise a K e : runs (X := X) a K (raise e).
Proof.
  intros w. exists []. simpl. rewrite app_nil_r.
  split; [reflexivity|]. split; [apply prefix_nil|]. split; [exact I|].
  intros r H. discriminate H.
Qed.

Lemma runs_bind a K1 K2 (m : Py (list Call * X) ndarray) (k : ndarray -> Py _ ndarray) :
  runs a K1 m -> (forall a', runs a' K2 (k a')) -> runs a (K1 ++ K2) (bind m k).
Proof.
  intros Hm Hk w. destruct (Hm w) as (calls1 & T1 & P1 & C1 & R1).
  unfold bind. destruct (m w) as [w1 [a'|e]]; simpl in *.
  - destruct (R1 a' eq_refl) as (E1 & r0 & F1 & D1).
    destruct (Hk a' w1) as (calls2 & T2 & P2 & C2 & R2).
    exists (calls1 ++ calls2). rewrite T2, T1, app_assoc. split; [reflexivity|].
    rewrite fmap_app, E1. split; [apply prefix_app; exact P2|]. split.
    + apply (chained_app _ _ _ r0); [exact C1 | exact F1 |].
      apply (chained_data a'); [congruence | exact C2].
    + intros r Hr. destruct (R2 r Hr) as (E2 & F2). rewrite E2. split; [reflexivity|].
      rewrite (final_app _ _ _ r0) by exact F1.
      apply (final_data a'); [congruence | exact F2].
  - exists calls1. split; [exact T1|]. split; [apply prefix_app_r; exact P1|].
    split; [exact C1|]. intros r H. discriminate H.
Qed.

Lemma runs_typed a K nd (m : Py (list Call * X) ndarray) : runs a K m -> runs a K (typed nd m).
Proof.
  intros Hm. rewrite <- (app_nil_r K). apply runs_bind; [exact Hm|].
  intros a'. unfold acquire_buffer. destruct (decide (ndim a' = nd)).
  - apply runs_ret. reflexivity.
  - apply runs_raise.
Qed.

Lemma runs_try_except a K (m : Py (list Call * X) ndarray) msg :
  runs a K m -> runs a K (try_except m (logger_debug msg)).
Proof.
  intros Hm w. destruct (Hm w) as (calls & T & P & C & R).
  unfold try_except. destruct (m w) as [w1 [a'|e]]; simpl in *.
  - exists calls. auto.
  - exists calls. split; [exact T|]. split; [exact P|]. split; [exact C|].
    intros r H. discriminate H.
Qed.

Lemma runs_spied a (t : callee) (mth : method) (f : ndarray -> Py X ndarray) :
  runs a [(t, mth)] (spied t mth f a).
Proof.
  intros w. unfold spied.
  destruct (f a (mkWorld (heap w) (records w) (ext w).2)) as [w' o].
  exists [{| target := t; meth := mth; argument := a; result := o |}]. simpl.
  split; [reflexivity|]. split; [reflexivity|]. split.
  - split; [reflexivity|]. destruct o; [exact I | reflexivity].
  - intros r ->. split; [reflexivity|]. exists r. split; reflexivity.
Qed.

Lemma runs_reshape a newshape : runs a [] (reshape (Ext := list Call * X) a newshape).
Proof.
  unfold reshape.
  destruct (decide (Exists _ newshape)); [apply runs_raise|].
  destruct (unknown_dims newshape) as [|[|u]].
  - destruct (decide _); [apply runs_ret; reflexivity | apply runs_raise].
  - destruct (decide _); [apply runs_raise | apply runs_ret; reflexivity].
  - apply runs_raise.
Qed.

Lemma runs_bind_shape_getitem a b n K (k : Z -> Py (list Call * X) ndarray) :
  (forall z, runs a K (k z)) -> runs a K (bind (shape_getitem b n) k).
Proof.
  intros Hk. unfold bind, shape_getitem. destruct (shape b !! n); simpl.
  - apply Hk.
  - apply runs_raise.
Qed.

Lemma runs_for_each (step : nat -> ConvolutionLayer (list Call * X) -> ndarray -> Py _ ndarray)
    (calls_of : nat -> list (callee * method)) :
  (forall i name L a, runs a (calls_of name) (step i (spy_layer name L) a)) ->
  forall names (l : list (ConvolutionLayer X)) i a,
    length names = length l ->
    runs a (names ≫= calls_of) (for_each step i (spy_stack names l) a).
Proof.
  intros Hstep. induction names as [|name names IH]; intros [|L l] i a Hlen;
    try discriminate Hlen; simpl.
  - apply runs_ret. reflexivity.
  - apply (runs_bind a (calls_of name) (names ≫= calls_of)); [apply Hstep|].
    intros a'. apply IH. simpl in Hlen. lia.
Qed.

Lemma reverse_spy_stack names (l : list (ConvolutionLayer X)) :
  length names = length l ->
  reverse (spy_stack names l) = spy_stack (reverse names) (reverse l).
Proof.
  unfold spy_stack. revert l. induction names as [|name names IH]; intros [|L l] Hlen;
    try discriminate Hlen; simpl.
  - reflexivity.
  - rewrite !reverse_cons, IH by (simpl in Hlen; lia).
    rewrite zip_with_app by (rewrite !length_reverse; simpl in Hlen; lia).
    reflexivity.
Qed.

Lemma runs_encode_layer name (L : ConvolutionLayer X) a :
  runs a (encode_calls name) (encode_layer (spy_layer name L) a).
Proof.
  unfold encode_layer, encode_calls.
  apply (runs_bind a [_] [_]); [apply runs_typed, runs_spied|].
  intros a'. apply runs_typed, runs_spied.
Qed.

Lemma runs_decode_layer name (L : ConvolutionLayer X) a :
  runs a (decode_calls name) (decode_layer (spy_layer name L) a).
Proof.
  unfold decode_layer, decode_calls.
  apply (runs_bind a [_] [_; _]); [apply runs_typed, runs_spied|].
  intros a1. apply (runs_bind a1 [_] [_]); [apply runs_typed, runs_spied|].
  intros a2. apply runs_typed, runs_spied.
Qed.



Lemma runs_regularized a (o : OptParams X) (pick : forall E, OptParams E -> ndarray -> Py E ndarray)
    (mth : method) :
  (forall h, runs h [(Optimizer, mth)] (pick _ (spy_optimizer o) h)) ->
  runs a (optimizer_calls (dropout_rate o) mth)
    (regularized (dropout_rate o) (pick _ (spy_optimizer o)) a).
Proof.
  intros Hpick. unfold regularized, optimizer_calls.
  destruct (PrimFloat.ltb 0 (dropout_rate o)); [|apply runs_ret; reflexivity].
  unfold on_flattened. apply runs_bind_shape_getitem. intros b.
  apply (runs_bind a [] [_]); [apply runs_typed, runs_reshape|]. intros h.
  apply (runs_bind h [_] []); [apply runs_typed, Hpick|]. intros h'.
  do 4 (apply runs_bind_shape_getitem; intros ?).
  apply runs_typed, runs_reshape.
Qed.


Lemma runs_after_copy a t K (m : Py (list Call * X) ndarray) :
  runs a K m -> runs a K (bind (ndarray_copy t) (fun _ => m)).
Proof.
  intros Hm w. unfold bind, ndarray_copy.
  destruct (Hm (mkWorld (heap w ++ [buffer w (data t)]) (records w) (ext w)))
    as (calls & T & H).
  exists calls. split; [exact T | exact H].
Qed.

(** The forward pass on the world, the copy included. *)
Lemma runs_forward (cae : ConvolutionalAutoEncoder X) img_arr :
  runs img_arr
    (forward_calls (length (layerable_cnn_list cae)) (dropout_rate (opt_params cae)))
    (t <- encoder_phase (spy_on cae) img_arr ;;
     ndarray_copy t ;;; decoder_phase (spy_on cae) t).
Proof.
  unfold forward_calls, encoder_phase, decoder_phase. simpl.
  apply runs_bind.
  { rewrite <- (app_nil_l (_ ≫= _)). apply runs_bind.
    - unfold acquire_buffer. destruct (decide (ndim img_arr = 4));
        [apply runs_ret; reflexivity | apply runs_raise].
    - intros a. unfold encode. apply (runs_for_each _ encode_calls).
      + intros i name L a'. apply runs_try_except, runs_encode_layer.
      + apply length_seq. }
  intros t. apply runs_after_copy. apply runs_bind.
  { apply (runs_regularized t (opt_params cae) (@dropout) m_dropout).
    intros h. apply runs_spied. }
  intros t'. unfold decode.
  rewrite reverse_spy_stack by apply length_seq.
  apply (runs_for_each _ decode_calls).
  - intros i name L a. apply runs_try_except, runs_decode_layer.
  - rewrite !length_reverse. apply length_seq.
Qed.


Lemma chained_take a calls k : chained a calls -> chained a (take k calls).
Proof.
  revert a k. induction calls as [|c calls IH]; intros a [|k]; simpl; try exact id.
  - intros _. exact I.
  - intros [H1 H2]. split; [exact H1|].
    destruct (result c) as [a'|e]; [apply IH; exact H2|].
    subst calls. destruct k; reflexivity.
Qed.

Lemma chained_drop a calls k : chained a calls -> exists a0, chained a0 (drop k calls).
Proof.
  revert a k. induction calls as [|c calls IH]; intros a [|k]; simpl.
  - intros _. exists a. exact I.
  - intros _. exists a. exact I.
  - intros H. exists a. exact H.
  - intros [_ H2]. destruct (result c) as [a'|e]; [apply (IH a'); exact H2|].
    subst calls. exists a. destruct k; exact I.
Qed.





Lemma layer_calls_not_optimizer (calls_of : nat -> list (callee * method)) names :
  (forall name, Forall (fun k => k.1 <> Optimizer) (calls_of name)) ->
  Forall (fun k : callee * method => k.1 <> Optimizer) (names ≫= calls_of).
Proof.
  intros H. induction names as [|name names IH]; simpl.
  - constructor.
  - apply Forall_app. split; [apply H | exact IH].
Qed.

(** The calls of a forward pass on a recording instance are the first ones
    of: for every layer in stack order its convolve (with the bias) and the
    activate of its activation function; then [dropout] if the rate is
    positive; then, for every layer in reverse order, the backward of its
    activation function, its deconvolve and the activate of its deactivation
    function; and all of these if the pass returns.  Each call is handed a
    view of the array the call before it returned. *)
Lemma forward_propagation_call_order (cae : ConvolutionalAutoEncoder X) img_arr
    (w : World (list Call * X)) :
  let K := forward_calls (length (layerable_cnn_list cae)) (dropout_rate (opt_params cae)) in
  let r := forward_propagation img_arr (mkObj (spy_on cae) w) in
  exists calls,
    trace (world r.1) = trace w ++ calls
    /\ kind <$> calls `prefix_of` K
    /\ (forall a, r.2 = Returned a -> kind <$> calls = K)
    /\ chained img_arr calls.
Proof.
  intros K r. pose proof (forward_propagation_world (spy_on cae) img_arr w) as Hw.
  fold r in Hw. destruct (runs_forward cae img_arr w) as (calls & T & P & C & R).
  rewrite <- Hw in T, R. simpl in T, R.
  exists calls. split; [exact T|]. split; [exact P|]. split; [|exact C].
  intros a Ha. apply (R a Ha).
Qed.

(** C4.  With a dropout rate equal to [0], [forward_propagation] is the
    encode-then-decode transform, in which no method of the optimizer and no
    [reshape] occurs; its effect on the world, its outcome and the feature
    points it leaves are the same whatever [dropout] and [de_dropout] are, so
    the pass is as deterministic as the layers; and on the recording instance
    no call of the pass is a call on the optimizer. *)
Theorem forward_propagation_without_dropout (cae : ConvolutionalAutoEncoder X) img_arr
    (w : World X) :
  PrimFloat.eqb (dropout_rate (opt_params cae)) 0 = true ->
  forward_propagation img_arr (mkObj cae w) = encode_then_decode img_arr (mkObj cae w)
  /\ (forall opt : OptParams X,
        PrimFloat.eqb (dropout_rate opt) 0 = true ->
        let r := forward_propagation img_arr (mkObj cae w) in
        let r' := forward_propagation img_arr (mkObj (with_optimizer cae opt) w) in
        world r'.1 = world r.1 /\ r'.2 = r.2
        /\ __feature_points_arr (self r'.1) = __feature_points_arr (self r.1))
  /\ (forall tr,
        let r := forward_propagation img_arr (mkObj (spy_on cae) (with_trace tr w)) in
        exists calls,
          trace (world r.1) = tr ++ calls
          /\ Forall (fun c => target c <> Optimizer) calls).
Proof.
  intros Hrate.
  assert (Hnodrop : forall cae' : ConvolutionalAutoEncoder X,
             PrimFloat.eqb (dropout_rate (opt_params cae')) 0 = true ->
             forall t (v : World X),
               decoder_phase cae' t v = decode (layerable_cnn_list cae') t v).
  { intros cae' H t v. unfold decoder_phase, regularized.
    rewrite (zero_rate_not_positive _ H). reflexivity. }
  split; [|split].
  - rewrite forward_propagation_eq, encode_then_decode_eq.
    destruct (encoder_phase cae img_arr w) as [w1 [t|e]]; [|reflexivity].
    rewrite Hnodrop by exact Hrate. reflexivity.
  - intros opt Hopt. simpl. rewrite !forward_propagation_eq.
    change (encoder_phase (with_optimizer cae opt) img_arr w)
      with (encoder_phase cae img_arr w).
    destruct (encoder_phase cae img_arr w) as [w1 [t|e]]; [|auto].
    rewrite (Hnodrop cae Hrate), (Hnodrop (with_optimizer cae opt) Hopt).
    change (layerable_cnn_list (with_optimizer cae opt)) with (layerable_cnn_list cae).
    destruct (decode (layerable_cnn_list cae) t (ndarray_copy t w1).1). auto.
  - intros tr r.
    destruct (forward_propagation_call_order cae img_arr (with_trace tr w))
      as (calls & T & P & _).
    exists calls. split; [exact T|].
    assert (HK : Forall (fun k : callee * method => k.1 <> Optimizer)
                   (forward_calls (length (layerable_cnn_list cae))
                      (dropout_rate (opt_params cae)))).
    { unfold forward_calls, optimizer_calls.
      rewrite (zero_rate_not_positive _ Hrate).
      apply Forall_app. split; [|apply Forall_app; split; [constructor|]];
        apply layer_calls_not_optimizer; intros name; repeat constructor; discriminate. }
    destruct P as [rest P]. rewrite P in HK. apply Forall_app in HK as [HK _].
    clear -HK. induction calls as [|c calls IH]; [constructor|].
    simpl in HK. apply Forall_cons in HK as [Hc HK].
    constructor; [exact Hc | apply IH, HK].
Qed.

End Traces.

Lemma forward_propagation_without_dropout_witness :
  let cae := Scenario.network [Scenario.plain; Scenario.plain] 0 in
  PrimFloat.eqb (dropout_rate (opt_params cae)) 0 = true
  /\ forward_propagation Scenario.batch (mkObj cae Scenario.world0)
     = encode_then_decode Scenario.batch (mkObj cae Scenario.world0).
Proof.
  split.
  - reflexivity.
  - apply (forward_propagation_without_dropout
             (Scenario.network [Scenario.plain; Scenario.plain] 0)).
    reflexivity.
Defined.

(** ** Shapes *)

Lemma reshape_rows {Ext : Type} (a : ndarray) (b c h x : nat) (w : World Ext) :
  shape a = [b; c; h; x] -> b <> 0 ->
  reshape a [Z.of_nat b; (-1)%Z] w = (w, Returned (NDArray (data a) [b; c * h * x])).
Proof.
  intros Hs Hb. unfold reshape, size. rewrite Hs. simpl foldr.
  destruct (decide (Exists _ _)) as [Hex|_].
  { exfalso. apply Exists_cons in Hex as [Hex|Hex]; [lia|].
    apply Exists_cons in Hex as [Hex|Hex]; [lia|]. apply Exists_nil in Hex. exact Hex. }
  unfold unknown_dims, known_size. simpl.
  rewrite filter_cons_False by lia. rewrite filter_cons_True by reflexivity. simpl.
  rewrite !(decide_False (P := Z.of_nat b = (-1)%Z)) by lia.
  assert (Hsz : Z.of_nat (b * (c * (h * (x * 1)))) = (Z.of_nat (c * h * x) * (Z.of_nat b * 1))%Z)
    by lia.
  rewrite Hsz.
  destruct (decide _) as [[H0|Hmod]|_].
  - exfalso. lia.
  - exfalso. apply Hmod. apply Z.mod_mul. lia.
  - unfold ret. rewrite Z.div_mul by lia. rewrite !Nat2Z.id. reflexivity.
Qed.

Lemma reshape_back {Ext : Type} (a : ndarray) (b c h x : nat) (w : World Ext) :
  shape a = [b; c * h * x] ->
  reshape a [Z.of_nat b; Z.of_nat c; Z.of_nat h; Z.of_nat x] w
  = (w, Returned (NDArray (data a) [b; c; h; x])).
Proof.
  intros Hs. unfold reshape, size. rewrite Hs. simpl foldr.
  destruct (decide (Exists _ _)) as [Hex|_].
  { exfalso. repeat (apply Exists_cons in Hex as [Hex|Hex]; [lia|]).
    apply Exists_nil in Hex. exact Hex. }
  unfold unknown_dims, known_size.
  rewrite !filter_cons_False by lia. simpl.
  rewrite !(decide_False (P := Z.of_nat b = (-1)%Z)) by lia.
  rewrite !(decide_False (P := Z.of_nat c = (-1)%Z)) by lia.
  rewrite !(decide_False (P := Z.of_nat h = (-1)%Z)) by lia.
  rewrite !(decide_False (P := Z.of_nat x = (-1)%Z)) by lia.
  rewrite decide_True by lia.
  unfold ret. rewrite !Nat2Z.id. reflexivity.
Qed.

Section Shapes.

Context {Ext : Type}.

Variable Inv : World Ext -> Prop.

Implicit Types (L : ConvolutionLayer Ext) (l : list (ConvolutionLayer Ext)).
Implicit Types (s : list nat) (a : ndarray) (w : World Ext).

Lemma maps_shape_bind (f g : ndarray -> Py Ext ndarray) s1 s2 s3 :
  maps_shape Inv f s1 s2 -> maps_shape Inv g s2 s3 -> maps_shape Inv (fun a => bind (f a) g) s1 s3.
Proof.
  intros Hf Hg a w Hs Hw. destruct (Hf a w Hs Hw) as (w1 & a1 & E1 & Hs1 & Hw1).
  destruct (Hg a1 w1 Hs1 Hw1) as (w2 & a2 & E2 & Hs2 & Hw2).
  exists w2, a2. rewrite (bind_returned _ _ _ _ _ E1). auto.
Qed.

Lemma maps_shape_typed (f : ndarray -> Py Ext ndarray) s s' :
  maps_shape Inv f s s' -> maps_shape Inv (fun a => typed (length s') (f a)) s s'.
Proof.
  intros Hf a w Hs Hw. destruct (Hf a w Hs Hw) as (w1 & a1 & E1 & Hs1 & Hw1).
  exists w1, a1. unfold typed. rewrite (bind_returned _ _ _ _ _ E1).
  unfold acquire_buffer, ndim. rewrite Hs1, decide_True by reflexivity. auto.
Qed.

Lemma maps_shape_try_except (f : ndarray -> Py Ext ndarray) s s' (h : Py Ext unit) :
  maps_shape Inv f s s' -> maps_shape Inv (fun a => try_except (f a) h) s s'.
Proof.
  intros Hf a w Hs Hw. destruct (Hf a w Hs Hw) as (w1 & a1 & E1 & H).
  exists w1, a1. unfold try_except. rewrite E1. auto.
Qed.

Lemma encode_layer_shape L s s' : layer_contract Inv L s s' -> maps_shape Inv (encode_layer L) s s'.
Proof.
  intros HL. unfold encode_layer. rewrite <- (four_out _ _ _ _ HL).
  apply (maps_shape_bind _ _ s s' s').
  - apply (maps_shape_typed (fun a => convolve L a false)), HL.
  - apply maps_shape_typed, HL.
Qed.

Lemma decode_layer_shape L s s' : layer_contract Inv L s s' -> maps_shape Inv (decode_layer L) s' s.
Proof.
  intros HL. unfold decode_layer.
  apply (maps_shape_bind _ _ s' s' s).
  { rewrite <- (four_out _ _ _ _ HL). apply maps_shape_typed, HL. }
  apply (maps_shape_bind _ _ s' s s).
  { rewrite <- (four_in _ _ _ _ HL). apply maps_shape_typed, HL. }
  rewrite <- (four_in _ _ _ _ HL). apply maps_shape_typed, HL.
Qed.

Lemma for_each_app (step : nat -> ConvolutionLayer Ext -> ndarray -> Py Ext ndarray)
    l1 l2 i a w :
  for_each step i (l1 ++ l2) a w
  = (a' <- for_each step i l1 a ;; for_each step (i + length l1) l2 a') w.
Proof.
  revert i a w. induction l1 as [|L l1 IH]; intros i a w; simpl.
  - rewrite Nat.add_0_r. reflexivity.
  - rewrite bind_assoc. apply bind_ext. intros a' w'. rewrite IH.
    replace (S i + length l1) with (i + S (length l1)) by lia. reflexivity.
Qed.

Lemma encode_shape l s s' (msg : nat -> string) :
  stack_contract Inv s l s' ->
  forall i, maps_shape Inv
              (for_each (fun i L a => try_except (encode_layer L a) (logger_debug (msg i))) i l)
              s s'.
Proof.
  induction 1 as [s|s s1 s2 L l HL _ IH]; intros i; simpl.
  - intros a w Hs Hw. exists w, a. auto.
  - apply (maps_shape_bind _ _ s s1 s2); [|apply IH].
    apply maps_shape_try_except, encode_layer_shape, HL.
Qed.

Lemma decode_shape l s s' (msg : nat -> string) :
  stack_contract Inv s l s' ->
  forall i, maps_shape Inv
              (for_each (fun i L a => try_except (decode_layer L a) (logger_debug (msg i))) i
                 (reverse l))
              s' s.
Proof.
  induction 1 as [s|s s1 s2 L l HL _ IH]; intros i.
  - intros a w Hs Hw. exists w, a. auto.
  - rewrite reverse_cons. intros a w Hs Hw.
    destruct (IH i a w Hs Hw) as (w1 & a1 & E1 & Hs1 & Hw1).
    destruct (maps_shape_try_except _ _ _ (logger_debug (msg (i + length (reverse l))))
                (decode_layer_shape L s s1 HL) a1 w1 Hs1 Hw1)
      as (w2 & a2 & E2 & Hs2 & Hw2).
    exists w2, a2. rewrite for_each_app, (bind_returned _ _ _ _ _ E1). simpl.
    rewrite (bind_returned _ _ _ _ _ E2). auto.
Qed.

Lemma stack_contract_four l s s' : stack_contract Inv s l s' -> length s = 4 -> length s' = 4.
Proof. induction 1 as [s|s s1 s2 L l HL _ IH]; [auto|]. intros _. apply IH, HL. Qed.

Lemma stack_contract_batch l s s' : stack_contract Inv s l s' -> head s' = head s.
Proof.
  induction 1 as [s|s s1 s2 L l HL _ IH]; [reflexivity|].
  rewrite IH. apply HL.
Qed.

(** The optimizer's method on the flattened array, for an array of four
    dimensions whose batch is not empty. *)
Lemma on_flattened_shape (f : ndarray -> Py Ext ndarray) (b c h x : nat) :
  b <> 0 ->
  maps_shape Inv f [b; c * h * x] [b; c * h * x] ->
  maps_shape Inv (on_flattened f) [b; c; h; x] [b; c; h; x].
Proof.
  intros Hb Hf a w Hs Hw. unfold on_flattened, shape_getitem. rewrite Hs. simpl.
  bind_ret.
  unfold typed at 1. rewrite bind_assoc.
  rewrite (bind_returned _ _ _ _ _ (reshape_rows a b c h x w Hs Hb)).
  unfold acquire_buffer at 1. simpl.
  bind_ret.
  destruct (Hf (NDArray (data a) [b; c * h * x]) w eq_refl Hw) as (w1 & h1 & E1 & Hs1 & Hw1).
  unfold typed at 1. rewrite bind_assoc, (bind_returned _ _ _ _ _ E1).
  unfold acquire_buffer at 1, ndim. rewrite Hs1. simpl.
  bind_ret.
  do 4 bind_ret.
  unfold typed. rewrite (bind_returned _ _ _ _ _ (reshape_back h1 b c h x w1 Hs1)).
  exists w1, (NDArray (data h1) [b; c; h; x]). auto.
Qed.

End Shapes.

Section ForwardShape.

Context {X : Type}.

Implicit Types (cae : ConvolutionalAutoEncoder X).

(** The forward pass under the shape contract, with the property of the
    world that the collaborators keep. *)
Lemma forward_propagation_shape_inv {Ext : Type} (Inv : World Ext -> Prop)
    (cae : ConvolutionalAutoEncoder Ext) img_arr w hidden :
  (forall w h r, Inv w -> Inv (mkWorld h r (ext w))) ->
  ndim img_arr = 4 ->
  stack_contract Inv (shape img_arr) (layerable_cnn_list cae) hidden ->
  (PrimFloat.ltb 0 (dropout_rate (opt_params cae)) = true ->
   head (shape img_arr) <> Some 0
   /\ forall rows cols, head (shape img_arr) = Some rows ->
        maps_shape Inv (dropout (opt_params cae)) [rows; cols] [rows; cols]) ->
  Inv w ->
  exists s' r,
    forward_propagation img_arr (mkObj cae w) = (s', Returned r)
    /\ shape r = shape img_arr /\ Inv (world s').
Proof.
  intros Inv_ext Hnd Hstack Hopt Hw.
  rewrite forward_propagation_eq. unfold encoder_phase, acquire_buffer.
  rewrite decide_True by exact Hnd.
  bind_ret.
  destruct (encode_shape Inv _ _ _ convolution_message Hstack 0 img_arr w eq_refl Hw)
    as (w1 & t & E1 & Hs1 & Hw1).
  unfold encode. rewrite E1.
  set (w2 := (ndarray_copy t w1).1).
  assert (Hw2 : Inv w2) by (apply Inv_ext; exact Hw1).
  assert (Hreg : exists w3 t', regularized (dropout_rate (opt_params cae))
                                 (dropout (opt_params cae)) t w2 = (w3, Returned t')
                               /\ shape t' = hidden /\ Inv w3).
  { unfold regularized.
    destruct (PrimFloat.ltb 0 (dropout_rate (opt_params cae))) eqn:Hrate.
    - destruct (Hopt eq_refl) as [Hb Hdrop].
      pose proof (stack_contract_four Inv _ _ _ Hstack Hnd) as H4.
      pose proof (stack_contract_batch Inv _ _ _ Hstack) as Hbatch.
      destruct hidden as [|b [|c [|h [|x [|? ?]]]]]; try discriminate H4.
      simpl in Hbatch.
      assert (Hb0 : b <> 0) by (intros ->; apply Hb; symmetry; exact Hbatch).
      destruct (on_flattened_shape Inv (dropout (opt_params cae)) b c h x Hb0
                  (Hdrop b (c * h * x) (eq_sym Hbatch)) t w2 Hs1 Hw2)
        as (w3 & t' & E3 & Hs3 & Hw3).
      exists w3, t'. auto.
    - exists w2, t. auto. }
  destruct Hreg as (w3 & t' & E3 & Hs3 & Hw3).
  destruct (decode_shape Inv _ _ _ deconvolution_message Hstack 0 t' w3 Hs3 Hw3)
    as (w4 & r & E4 & Hs4 & Hw4).
  unfold decoder_phase. rewrite (bind_returned _ _ _ _ _ E3). unfold decode. rewrite E4.
  eexists. exists r. split; [reflexivity|]. split; [exact Hs4 | exact Hw4].
Qed.

Lemma spied_maps_shape (t : callee) (mth : method) (f : ndarray -> Py X ndarray) s s' :
  maps_shape anything f s s' -> maps_shape (batch_traced (head s)) (spied t mth f) s s'.
Proof.
  intros Hf a w Hs Hw. unfold spied.
  destruct (Hf a (mkWorld (heap w) (records w) (ext w).2) Hs I) as (w1 & r & E & Hr & _).
  rewrite E. eexists. exists r. split; [reflexivity|]. split; [exact Hr|].
  unfold batch_traced, trace. simpl. apply Forall_app. split; [exact Hw|].
  constructor; [simpl; rewrite Hs; reflexivity | constructor].
Qed.

Lemma spy_layer_contract name (L : ConvolutionLayer X) s s' :
  layer_contract anything L s s' ->
  layer_contract (batch_traced (head s)) (spy_layer name L) s s'.
Proof.
  intros HL. pose proof (same_batch _ _ _ _ HL) as Hb.
  split; try apply HL; simpl.
  - apply (spied_maps_shape _ _ (fun a => convolve L a false)), HL.
  - rewrite <- Hb. apply spied_maps_shape, HL.
  - rewrite <- Hb. apply spied_maps_shape, HL.
  - rewrite <- Hb. apply spied_maps_shape, HL.
  - apply spied_maps_shape, HL.
Qed.

Lemma spy_stack_contract names (l : list (ConvolutionLayer X)) s s' :
  stack_contract anything s l s' -> length names = length l ->
  stack_contract (batch_traced (head s)) s (spy_stack names l) s'.
Proof.
  intros H. revert names. induction H as [s|s s1 s2 L l HL _ IH];
    intros [|name names] Hlen; try discriminate Hlen; simpl.
  - constructor.
  - apply (stack_contract_cons _ s s1 s2); [apply spy_layer_contract, HL|].
    rewrite <- (same_batch _ _ _ _ HL). apply IH. simpl in Hlen. lia.
Qed.

(** C5.  Under the shape contract (each layer's convolve and deconvolve map
    its two shapes to one another, the activation functions and the dropout
    keep the shape they are given, and all of them return), and for a batch
    that is not empty when the dropout is on, [forward_propagation] on an
    array of four dimensions returns an array of the shape of its input; and
    on the recording instance every collaborator call of the pass is handed
    an array with the batch dimension of the input. *)
Theorem forward_propagation_shape cae img_arr (w : World X) hidden :
  ndim img_arr = 4 ->
  stack_contract anything (shape img_arr) (layerable_cnn_list cae) hidden ->
  (PrimFloat.ltb 0 (dropout_rate (opt_params cae)) = true ->
   head (shape img_arr) <> Some 0
   /\ forall rows cols,
        maps_shape anything (dropout (opt_params cae)) [rows; cols] [rows; cols]) ->
  (exists s' r,
     forward_propagation img_arr (mkObj cae w) = (s', Returned r)
     /\ shape r = shape img_arr)
  /\ (exists s' r,
        forward_propagation img_arr (mkObj (spy_on cae) (with_trace [] w)) = (s', Returned r)
        /\ shape r = shape img_arr
        /\ Forall (fun c => head (shape (argument c)) = head (shape img_arr))
             (trace (world s'))).
Proof.
  intros Hnd Hstack Hopt. split.
  - assert (Hext : forall (w0 : World X) h r,
               anything w0 -> anything (mkWorld h r (ext w0))) by (intros; exact I).
    assert (Hopt' : PrimFloat.ltb 0 (dropout_rate (opt_params cae)) = true ->
              head (shape img_arr) <> Some 0
              /\ forall rows cols, head (shape img_arr) = Some rows ->
                   maps_shape anything (dropout (opt_params cae))
                     [rows; cols] [rows; cols]).
    { intros Hrate. destruct (Hopt Hrate) as [Hb Hdrop]. split; [exact Hb|].
      intros rows cols _. apply Hdrop. }
    destruct (forward_propagation_shape_inv anything cae img_arr w hidden
                Hext Hnd Hstack Hopt' I) as (s' & r & E & Hr & _).
    exists s', r. auto.
  - apply (forward_propagation_shape_inv (batch_traced (head (shape img_arr)))
             (spy_on cae) img_arr (with_trace [] w) hidden).
    + intros w0 h r H. exact H.
    + exact Hnd.
    + apply spy_stack_contract; [exact Hstack | apply length_seq].
    + intros Hrate. destruct (Hopt Hrate) as [Hb Hdrop]. split; [exact Hb|].
      intros rows cols Hrows. simpl.
      replace (head (shape img_arr)) with (head [rows; cols]) by (symmetry; exact Hrows).
      apply spied_maps_shape, Hdrop.
    + constructor.
Qed.

End ForwardShape.

Lemma allocating_maps_shape (f : list float -> list float) (g : list nat -> list nat)
    (s : list nat) :
  maps_shape (@anything unit) (allocating f g) s (g s).
Proof.
  intros a w Hs _. unfold allocating. eexists. eexists.
  split; [reflexivity|]. simpl. rewrite Hs. split; [reflexivity | exact I].
Qed.

Lemma shaping_contract (s s' : list nat) :
  length s = 4 -> length s' = 4 -> head s' = head s ->
  layer_contract anything (Scenario.shaping s s') s s'.
Proof.
  intros H4 H4' Hb. split; try assumption.
  - apply (allocating_maps_shape _ (fun _ => s')).
  - apply (allocating_maps_shape _ id).
  - apply (allocating_maps_shape _ id).
  - apply (allocating_maps_shape _ (fun _ => s)).
  - apply (allocating_maps_shape _ id).
Qed.

Lemma forward_propagation_shape_witness :
  let cae := Scenario.network [Scenario.shaping [2; 1; 4; 4] [2; 3; 2; 2];
                               Scenario.shaping [2; 3; 2; 2] [2; 5; 1; 1]] 0.5 in
  exists s' r,
    forward_propagation Scenario.images (mkObj cae Scenario.world1) = (s', Returned r)
    /\ shape r = [2; 1; 4; 4].
Proof.
  intros cae.
  assert (Hstack : stack_contract anything (shape Scenario.images)
                     (layerable_cnn_list cae) [2; 5; 1; 1]).
  { apply (stack_contract_cons _ _ [2; 3; 2; 2]); [apply shaping_contract; reflexivity|].
    apply (stack_contract_cons _ _ [2; 5; 1; 1]); [apply shaping_contract; reflexivity|].
    constructor. }
  assert (Hopt : PrimFloat.ltb 0 (dropout_rate (opt_params cae)) = true ->
                 head (shape Scenario.images) <> Some 0
                 /\ forall rows cols,
                      maps_shape anything (dropout (opt_params cae))
                        [rows; cols] [rows; cols]).
  { intros _. split; [discriminate|]. intros rows cols.
    apply (allocating_maps_shape _ id). }
  exact (proj1 (forward_propagation_shape cae Scenario.images Scenario.world1 [2; 5; 1; 1]
                  eq_refl Hstack Hopt)).
Defined.

(** ** The passes on a recording instance *)

(** A forward pass over two layers with the dropout on. *)
Example forward_propagation_calls :
  let cae := spy_on (Scenario.network [Scenario.plain; Scenario.plain] 0.5) in
  let r := forward_propagation Scenario.batch (mkObj cae (with_trace [] Scenario.world0)) in
  kind <$> trace (world r.1)
  = [(Layer 0, m_convolve false); (Layer 0, m_activation_activate);
     (Layer 1, m_convolve false); (Layer 1, m_activation_activate);
     (Optimizer, m_dropout);
     (Layer 1, m_activation_backward); (Layer 1, m_deconvolve);
     (Layer 1, m_deactivation_activate);
     (Layer 0, m_activation_backward); (Layer 0, m_deconvolve);
     (Layer 0, m_deactivation_activate)]
  /\ r.2 = Returned (NDArray 12 [2; 1; 1; 1]).
Proof. split; reflexivity. Qed.

(** A backward pass over two layers with the dropout on. *)
Example back_propagation_calls :
  let cae := spy_on (Scenario.network [Scenario.plain; Scenario.plain] 0.5) in
  let r := back_propagation Scenario.batch (mkObj cae (with_trace [] Scenario.world0)) in
  kind <$> trace (world r.1)
  = [(Layer 0, m_convolve true); (Layer 1, m_convolve true);
     (Optimizer, m_de_dropout);
     (Layer 1, m_back_propagate); (Layer 1, m_deactivation_forward);
     (Layer 0, m_back_propagate); (Layer 0, m_deactivation_forward)]
  /\ r.2 = Returned (NDArray 7 [2; 1; 1; 1]).
Proof. split; reflexivity. Qed.

(** The deconvolve of the first layer of a stack of two is the one whose
    failure is logged as that of layer 2. *)
Example deconvolve_failure_of_first_layer :
  let cae := Scenario.network [Scenario.broken_deconvolve; Scenario.plain] 0 in
  let r := forward_propagation Scenario.batch (mkObj cae Scenario.world0) in
  r.2 = Raised Scenario.boom
  /\ message <$> records (world r.1) = ["Error raised in Deconvolution layer 2"].
Proof. split; reflexivity. Qed.

(** With the dropout on, an empty batch cannot be flattened. *)
Example forward_propagation_empty_batch :
  let cae := Scenario.network [Scenario.plain] 0.5 in
  let w := mkWorld [[]] [] tt in
  (forward_propagation (NDArray 0 [0; 1; 1; 1]) (mkObj cae w)).2
  = Raised (ValueError "cannot reshape array").
Proof. reflexivity. Qed.

(** ** The failures of the other loops, and the calls outside the loops *)

Section MoreFailures.

Context {Ext : Type}.

Implicit Types (cae : ConvolutionalAutoEncoder Ext) (w : World Ext) (a : ndarray).
Implicit Types (L : ConvolutionLayer Ext) (s : Obj Ext).

Lemma keeps_self_ret {A : Type} (x : A) : keeps_self (Ext := Ext) (ret x).
Proof. intros s. reflexivity. Qed.

Lemma keeps_self_raise {A : Type} e : keeps_self (Ext := Ext) (A := A) (raise e).
Proof. intros s. reflexivity. Qed.

Lemma keeps_self_call {A : Type} (m : Py Ext A) : keeps_self (call m).
Proof. intros s. unfold call. destruct (m (world s)). reflexivity. Qed.

Lemma keeps_self_getattr {A : Type} (f : ConvolutionalAutoEncoder Ext -> A) :
  keeps_self (getattr f).
Proof. intros s. reflexivity. Qed.

Lemma keeps_self_bind {A B : Type} (m : Method Ext A) (k : A -> Method Ext B) :
  keeps_self m -> (forall x, keeps_self (k x)) -> keeps_self (bind m k).
Proof.
  intros Hm Hk s. unfold bind. specialize (Hm s).
  destruct (m s) as [s1 [x|e]]; simpl in *; [|exact Hm].
  rewrite Hk. exact Hm.
Qed.

Lemma keeps_self_getitem {A : Type} (l : list A) i : keeps_self (Ext := Ext) (getitem l i).
Proof. unfold getitem. destruct (l !! i); [apply keeps_self_ret | apply keeps_self_raise]. Qed.

Lemma keeps_self_typed nd (m : Method Ext ndarray) : keeps_self m -> keeps_self (typed nd m).
Proof.
  intros Hm. apply keeps_self_bind; [exact Hm|]. intros x. unfold acquire_buffer.
  destruct (decide (ndim x = nd)); [apply keeps_self_ret | apply keeps_self_raise].
Qed.

Lemma keeps_self_try_except {A : Type} (m : Method Ext A) (h : Method Ext unit) :
  keeps_self m -> keeps_self h -> keeps_self (try_except m h).
Proof.
  intros Hm Hh s. unfold try_except. specialize (Hm s).
  destruct (m s) as [s1 [x|e]]; simpl in *; [exact Hm|].
  specialize (Hh s1). destruct (h s1) as [s2 [[]|e']]; simpl in *; congruence.
Qed.

Lemma keeps_self_for_in r (body : nat -> ndarray -> Method Ext ndarray) a :
  (forall i x, keeps_self (body i x)) -> keeps_self (for_in r body a).
Proof.
  intros Hbody. revert a. induction r as [|i r IH]; intros a; simpl.
  - apply keeps_self_ret.
  - apply keeps_self_bind; [apply Hbody | exact IH].
Qed.

Lemma keeps_self_layer i :
  keeps_self (Ext := Ext) (l <- getattr layerable_cnn_list ;; getitem l i).
Proof.
  apply keeps_self_bind; [apply keeps_self_getattr | intros l; apply keeps_self_getitem].
Qed.

Lemma keeps_self_encoder_try i a : keeps_self (Ext := Ext) (encoder_try i a).
Proof.
  unfold encoder_try.
  apply keeps_self_bind; [apply keeps_self_layer|]. intros L.
  apply keeps_self_bind; [apply keeps_self_typed, keeps_self_call|]. intros x.
  apply keeps_self_bind; [apply keeps_self_layer|]. intros L'.
  apply keeps_self_typed, keeps_self_call.
Qed.

Lemma keeps_self_encoder_body i a : keeps_self (Ext := Ext) (encoder_body i a).
Proof.
  apply keeps_self_try_except; [apply keeps_self_encoder_try | apply keeps_self_call].
Qed.

Lemma keeps_self_backward_convolve_try i a :
  keeps_self (Ext := Ext) (backward_convolve_try i a).
Proof.
  unfold backward_convolve_try.
  apply keeps_self_bind; [apply keeps_self_layer|]. intros L.
  apply keeps_self_typed, keeps_self_call.
Qed.

Lemma keeps_self_backward_convolve_body i a :
  keeps_self (Ext := Ext) (backward_convolve_body i a).
Proof.
  apply keeps_self_try_except; [apply keeps_self_backward_convolve_try | apply keeps_self_call].
Qed.

Lemma keeps_self_decoder_try (l : list (ConvolutionLayer Ext)) i a :
  keeps_self (decoder_try l i a).
Proof.
  unfold decoder_try.
  apply keeps_self_bind; [apply keeps_self_getitem|]. intros L.
  apply keeps_self_bind; [apply keeps_self_typed, keeps_self_call|]. intros x.
  apply keeps_self_bind; [apply keeps_self_getitem|]. intros L'.
  apply keeps_self_bind; [apply keeps_self_typed, keeps_self_call|]. intros x'.
  apply keeps_self_bind; [apply keeps_self_getitem|]. intros L''.
  apply keeps_self_typed, keeps_self_call.
Qed.

Lemma keeps_self_decoder_body (l : list (ConvolutionLayer Ext)) i a :
  keeps_self (decoder_body l i a).
Proof.
  apply keeps_self_try_except; [apply keeps_self_decoder_try | apply keeps_self_call].
Qed.

Lemma keeps_self_eq {A : Type} (m : Method Ext A) s s' o :
  keeps_self m -> m s = (s', o) -> self s' = self s.
Proof. intros Hm E. specialize (Hm s). rewrite E in Hm. exact Hm. Qed.

Lemma encoder_loop_unfold img_arr cae w :
  encoder_loop img_arr (mkObj cae w)
  = for_in (range (length (layerable_cnn_list cae))) encoder_body img_arr (mkObj cae w).
Proof. unfold encoder_loop. rewrite bind_assoc, bind_getattr. reflexivity. Qed.

Lemma backward_convolve_loop_unfold delta_arr cae w :
  backward_convolve_loop delta_arr (mkObj cae w)
  = for_in (range (length (layerable_cnn_list cae))) backward_convolve_body delta_arr
      (mkObj cae w).
Proof. unfold backward_convolve_loop. rewrite bind_assoc, bind_getattr. reflexivity. Qed.

Lemma decoder_loop_unfold img_arr cae w :
  decoder_loop img_arr (mkObj cae w)
  = for_in (range (length (layerable_cnn_list cae)))
      (decoder_body (reverse (layerable_cnn_list cae))) img_arr (mkObj cae w).
Proof.
  unfold decoder_loop. rewrite bind_assoc, bind_getattr. bind_ret.
  rewrite length_reverse. reflexivity.
Qed.

(** X1.  When the try block of the encoder loop raises at position [i],
    [forward_propagation] logs one debug record, "Error raised in Convolution
    layer" with [i + 1], and raises the same exception; the instance, and so
    the feature points of an earlier pass, are as they were. *)
Theorem forward_propagation_encoder_failure cae img_arr w (i : nat) s2 a2 s3 e :
  ndim img_arr = 4 ->
  i < length (layerable_cnn_list cae) ->
  for_in (seq 0 i) encoder_body img_arr (mkObj cae w) = (s2, Returned a2) ->
  encoder_try i a2 s2 = (s3, Raised e) ->
  let r := forward_propagation img_arr (mkObj cae w) in
  r.2 = Raised e
  /\ self r.1 = cae
  /\ heap (world r.1) = heap (world s3)
  /\ ext (world r.1) = ext (world s3)
  /\ records (world r.1)
     = records (world s3)
       ++ [{| levelname := "DEBUG";
              message := "Error raised in Convolution layer " +:+ str (i + 1) |}].
Proof.
  intros Hnd Hi Hpre Htry r.
  assert (Hr : r = ((call (logger_debug (convolution_message i)) s3).1, Raised e)).
  { unfold r, forward_propagation, acquire_buffer. rewrite decide_True by exact Hnd.
    bind_ret. apply bind_raised. rewrite encoder_loop_unfold.
    rewrite (for_in_reach _ i _ img_arr a2 _ s2 Hi Hpre).
    apply bind_raised. unfold encoder_body, try_except. rewrite Htry. reflexivity. }
  assert (Hs : self s3 = cae).
  { rewrite (keeps_self_eq _ _ _ _ (keeps_self_encoder_try i a2) Htry).
    apply (keeps_self_eq _ _ _ _
             (keeps_self_for_in (seq 0 i) encoder_body img_arr keeps_self_encoder_body)
             Hpre). }
  rewrite Hr. simpl. auto.
Qed.

(** X2.  When the try block of the decoder loop raises at position [i] of
    the reversed list, whichever of its three calls it is,
    [forward_propagation] logs one debug record, "Error raised in
    Deconvolution layer" with [i + 1], and raises the same exception.  The
    layer at work is the one at place [len - i] of the stack, counted from 1,
    so the number logged is its place in the stack only for the middle layer
    of a stack of odd length. *)
Theorem forward_propagation_decoder_failure cae img_arr w s1 t (i : nat) s2 t2 s3 e :
  let rl := reverse (layerable_cnn_list cae) in
  let n := length (layerable_cnn_list cae) in
  up_to_decoder_loop img_arr (mkObj cae w) = (s1, Returned t) ->
  i < n ->
  for_in (seq 0 i) (decoder_body rl) t s1 = (s2, Returned t2) ->
  decoder_try rl i t2 s2 = (s3, Raised e) ->
  let r := forward_propagation img_arr (mkObj cae w) in
  r.2 = Raised e
  /\ self r.1 = self s1
  /\ heap (world r.1) = heap (world s3)
  /\ ext (world r.1) = ext (world s3)
  /\ records (world r.1)
     = records (world s3)
       ++ [{| levelname := "DEBUG";
              message := "Error raised in Deconvolution layer " +:+ str (i + 1) |}]
  /\ rl !! i = layerable_cnn_list cae !! (n - i - 1)
  /\ (i + 1 = n - i <-> n = 2 * i + 1).
Proof.
  intros rl n Hup Hi Hpre Htry r.
  assert (Hr : r = ((call (logger_debug (deconvolution_message i)) s3).1, Raised e)).
  { unfold r. rewrite forward_propagation_split, (bind_returned _ _ _ _ _ Hup).
    pose proof (up_to_decoder_loop_layers img_arr (mkObj cae w)) as Hl.
    rewrite Hup in Hl. simpl in Hl. destruct s1 as [cae1 w1]. simpl in Hl.
    rewrite decoder_loop_unfold, Hl. fold rl n.
    rewrite (for_in_reach _ i _ t t2 _ s2 Hi Hpre).
    apply bind_raised. unfold decoder_body, try_except. rewrite Htry. reflexivity. }
  assert (Hs : self s3 = self s1).
  { rewrite (keeps_self_eq _ _ _ _ (keeps_self_decoder_try rl i t2) Htry).
    apply (keeps_self_eq _ _ _ _
             (keeps_self_for_in (seq 0 i) (decoder_body rl) t (keeps_self_decoder_body rl))
             Hpre). }
  rewrite Hr. simpl. repeat (split; [first [reflexivity | exact Hs]|]).
  split; [|lia].
  unfold rl, n. rewrite reverse_lookup by exact Hi. f_equal. lia.
Qed.

(** X3.  When the try block of the first loop of [back_propagation] raises
    at position [i], the pass logs one debug record, "Backward raised error in
    Convolution layer" with [i + 1], and raises the same exception; neither
    [de_dropout] nor the second loop runs, the world being the one the
    failing convolve left, with the record. *)
Theorem back_propagation_convolve_failure cae delta_arr w (i : nat) s2 d2 s3 e :
  ndim delta_arr = 4 ->
  i < length (layerable_cnn_list cae) ->
  for_in (seq 0 i) backward_convolve_body delta_arr (mkObj cae w) = (s2, Returned d2) ->
  backward_convolve_try i d2 s2 = (s3, Raised e) ->
  let r := back_propagation delta_arr (mkObj cae w) in
  r.2 = Raised e
  /\ self r.1 = cae
  /\ heap (world r.1) = heap (world s3)
  /\ ext (world r.1) = ext (world s3)
  /\ records (world r.1)
     = records (world s3)
       ++ [{| levelname := "DEBUG";
              message := "Backward raised error in Convolution layer " +:+ str (i + 1) |}].
Proof.
  intros Hnd Hi Hpre Htry r.
  assert (Hr : r = ((call (logger_debug (backward_convolution_message i)) s3).1, Raised e)).
  { unfold r, back_propagation, acquire_buffer. rewrite decide_True by exact Hnd.
    bind_ret. apply bind_raised. rewrite backward_convolve_loop_unfold.
    rewrite (for_in_reach _ i _ delta_arr d2 _ s2 Hi Hpre).
    apply bind_raised. unfold backward_convolve_body, try_except. rewrite Htry.
    reflexivity. }
  assert (Hs : self s3 = cae).
  { rewrite (keeps_self_eq _ _ _ _ (keeps_self_backward_convolve_try i d2) Htry).
    apply (keeps_self_eq _ _ _ _
             (keeps_self_for_in (seq 0 i) backward_convolve_body delta_arr
                keeps_self_backward_convolve_body) Hpre). }
  rewrite Hr. simpl. auto.
Qed.

End MoreFailures.

Lemma forward_propagation_encoder_failure_witness :
  let cae := Scenario.network [Scenario.plain; Scenario.broken_convolve] 0 in
  let r := forward_propagation Scenario.batch (mkObj cae Scenario.world0) in
  r.2 = Raised Scenario.boom
  /\ self r.1 = cae
  /\ records (world r.1)
     = [{| levelname := "DEBUG"; message := "Error raised in Convolution layer 2" |}].
Proof.
  intros cae r.
  set (s2 := (for_in (seq 0 1) encoder_body Scenario.batch (mkObj cae Scenario.world0)).1).
  assert (Hi : 1 < length (layerable_cnn_list cae)) by (simpl; lia).
  destruct (forward_propagation_encoder_failure cae Scenario.batch Scenario.world0
              1 s2 (NDArray 2 [2; 1; 1; 1]) s2 Scenario.boom
              eq_refl Hi eq_refl eq_refl) as (H1 & H2 & _ & _ & H5).
  split; [exact H1|]. split; [exact H2 | exact H5].
Defined.

Lemma forward_propagation_decoder_failure_witness :
  let cae := Scenario.network
               [Scenario.broken_deconvolve; Scenario.plain; Scenario.plain] 0 in
  let r := forward_propagation Scenario.batch (mkObj cae Scenario.world0) in
  r.2 = Raised Scenario.boom
  /\ records (world r.1)
     = [{| levelname := "DEBUG"; message := "Error raised in Deconvolution layer 3" |}]
  /\ layerable_cnn_list cae !! 0 = Some Scenario.broken_deconvolve.
Proof.
  intros cae r.
  set (rl := reverse (layerable_cnn_list cae)).
  set (s1 := (up_to_decoder_loop Scenario.batch (mkObj cae Scenario.world0)).1).
  set (t := NDArray 6 [2; 1; 1; 1]).
  set (s2 := (for_in (seq 0 2) (decoder_body rl) t s1).1).
  set (s3 := (decoder_try rl 2 (NDArray 13 [2; 1; 1; 1]) s2).1).
  assert (Hi : 2 < length (layerable_cnn_list cae)) by (simpl; lia).
  destruct (forward_propagation_decoder_failure cae Scenario.batch Scenario.world0
              s1 t 2 s2 (NDArray 13 [2; 1; 1; 1]) s3 Scenario.boom
              eq_refl Hi eq_refl eq_refl) as (H1 & _ & _ & _ & H5 & _).
  split; [exact H1|]. split; [exact H5 | reflexivity].
Defined.

Lemma back_propagation_convolve_failure_witness :
  let cae := Scenario.network [Scenario.plain; Scenario.broken_convolve] 0.5 in
  let r := back_propagation Scenario.batch (mkObj cae Scenario.world0) in
  r.2 = Raised Scenario.boom
  /\ heap (world r.1) = [[7%float; 8%float]; [7%float; 8%float]]
  /\ records (world r.1)
     = [{| levelname := "DEBUG";
           message := "Backward raised error in Convolution layer 2" |}].
Proof.
  intros cae r.
  set (s2 := (for_in (seq 0 1) backward_convolve_body Scenario.batch
                (mkObj cae Scenario.world0)).1).
  assert (Hi : 1 < length (layerable_cnn_list cae)) by (simpl; lia).
  destruct (back_propagation_convolve_failure cae Scenario.batch Scenario.world0
              1 s2 (NDArray 1 [2; 1; 1; 1]) s2 Scenario.boom
              eq_refl Hi eq_refl eq_refl) as (H1 & _ & H3 & _ & H5).
  split; [exact H1|]. split; [exact H3 | exact H5].
Defined.

(** ** More on the calls of the passes *)

Section MoreTraces.

Context {X : Type}.

Implicit Types (w : World (list Call * X)) (a : ndarray).

Lemma layer_calls_length (calls_of : nat -> list (callee * method)) (k : nat) names :
  (forall name, length (calls_of name) = k) ->
  length (names ≫= calls_of) = k * length names.
Proof.
  intros H. induction names as [|name names IH]; [simpl; lia|].
  change ((name :: names) ≫= calls_of) with (calls_of name ++ (names ≫= calls_of)).
  rewrite length_app, H, IH. simpl. lia.
Qed.

(** X4.  On a recording instance, the calls of a [forward_propagation] are
    the first ones of: for every layer in stack order its convolve, with the
    bias, and the activate of its activation function; [dropout] if the rate
    is positive; for every layer in reverse order the backward of its
    activation function, its deconvolve and the activate of its deactivation
    function; all of them if the pass returns.  Within the encoder loop, and
    within the decoder loop, each call is handed a view of the array the call
    before it returned, the first call of the encoder loop a view of
    [img_arr]; this holds from the first call to the last when the rate is
    not positive, no [reshape] standing between the loops then.  The
    optimizer is called at one place only, after the two calls on each of the
    layers. *)
Theorem forward_propagation_calls_in_order (cae : ConvolutionalAutoEncoder X) img_arr w :
  let n := length (layerable_cnn_list cae) in
  let K := forward_calls n (dropout_rate (opt_params cae)) in
  let r := forward_propagation img_arr (mkObj (spy_on cae) w) in
  exists calls,
    trace (world r.1) = trace w ++ calls
    /\ kind <$> calls `prefix_of` K
    /\ (forall a, r.2 = Returned a -> kind <$> calls = K)
    /\ chained img_arr (take (2 * n) calls)
    /\ (exists a0,
          chained a0
            (drop (2 * n + length (optimizer_calls (dropout_rate (opt_params cae)) m_dropout))
               calls))
    /\ (PrimFloat.ltb 0 (dropout_rate (opt_params cae)) = false -> chained img_arr calls)
    /\ (forall j c, calls !! j = Some c -> target c = Optimizer ->
          j = 2 * n /\ meth c = m_dropout).
Proof.
  intros n K r.
  destruct (forward_propagation_call_order cae img_arr w) as (calls & T & P & R & C).
  exists calls. split; [exact T|]. split; [exact P|]. split; [exact R|].
  split; [apply chained_take; exact C|].
  split; [apply (chained_drop img_arr); exact C|].
  split; [intros _; exact C|].
  intros j c Hc Ht.
  assert (HK : K !! j = Some (kind c)).
  { apply (prefix_lookup_Some (kind <$> calls)); [|exact P].
    rewrite list_lookup_fmap, Hc. reflexivity. }
  unfold K, forward_calls in HK.
  assert (Hlen : length (seq 0 n ≫= encode_calls) = 2 * n).
  { rewrite (layer_calls_length _ 2) by reflexivity. rewrite length_seq. reflexivity. }
  assert (Henc : Forall (fun k : callee * method => k.1 <> Optimizer)
                   (seq 0 n ≫= encode_calls)).
  { apply layer_calls_not_optimizer. intros name. repeat constructor; discriminate. }
  assert (Hdec : Forall (fun k : callee * method => k.1 <> Optimizer)
                   (reverse (seq 0 n) ≫= decode_calls)).
  { apply layer_calls_not_optimizer. intros name. repeat constructor; discriminate. }
  rewrite Forall_lookup in Henc, Hdec.
  destruct (decide (j < 2 * n)) as [Hj|Hj].
  { rewrite lookup_app_l in HK by lia. exfalso. apply (Henc j _ HK). exact Ht. }
  rewrite lookup_app_r in HK by lia. rewrite Hlen in HK.
  unfold optimizer_calls in HK.
  destruct (PrimFloat.ltb 0 (dropout_rate (opt_params cae))).
  - destruct (j - 2 * n) as [|j'] eqn:Ej; simpl in HK.
    + injection HK as HK. split; [lia|]. unfold kind in HK. congruence.
    + exfalso. apply (Hdec j' _ HK). exact Ht.
  - simpl in HK. exfalso. apply (Hdec _ _ HK). exact Ht.
Qed.

Lemma propagates_ret a : propagates (X := X) (ret a).
Proof.
  intros w. exists []. simpl. rewrite app_nil_r. split; [reflexivity|].
  intros c e Hc. apply elem_of_nil in Hc. destruct Hc.
Qed.

Lemma propagates_raise e : propagates (X := X) (raise e).
Proof.
  intros w. exists []. simpl. rewrite app_nil_r. split; [reflexivity|].
  intros c e' Hc. apply elem_of_nil in Hc. destruct Hc.
Qed.

Lemma propagates_bind (m : Py (list Call * X) ndarray) (k : ndarray -> Py _ ndarray) :
  propagates m -> (forall a, propagates (k a)) -> propagates (bind m k).
Proof.
  intros Hm Hk w. destruct (Hm w) as (calls1 & T1 & R1).
  unfold bind. destruct (m w) as [w1 [a|e]]; simpl in *.
  - destruct (Hk a w1) as (calls2 & T2 & R2).
    exists (calls1 ++ calls2). rewrite T2, T1, app_assoc. split; [reflexivity|].
    intros c e Hc Hres. apply elem_of_app in Hc as [Hc|Hc].
    + discriminate (R1 c e Hc Hres).
    + apply (R2 c e Hc Hres).
  - exists calls1. split; [exact T1 | exact R1].
Qed.

Lemma propagates_typed nd (m : Py (list Call * X) ndarray) :
  propagates m -> propagates (typed nd m).
Proof.
  intros Hm w. destruct (Hm w) as (calls & T & R).
  unfold typed, bind, acquire_buffer. destruct (m w) as [w1 [a|e]]; simpl in *.
  - exists calls. destruct (decide (ndim a = nd)) as [Hnd|Hnd]; simpl;
      (split; [exact T|]); intros c e Hc Hres; discriminate (R c e Hc Hres).
  - exists calls. split; [exact T | exact R].
Qed.

Lemma propagates_try_except (m : Py (list Call * X) ndarray) msg :
  propagates m -> propagates (try_except m (logger_debug msg)).
Proof.
  intros Hm w. destruct (Hm w) as (calls & T & R).
  unfold try_except. destruct (m w) as [w1 [a|e]]; simpl in *.
  - exists calls. split; [exact T | exact R].
  - exists calls. split; [exact T | exact R].
Qed.

Lemma propagates_spied (t : callee) (mth : method) (f : ndarray -> Py X ndarray) a :
  propagates (spied t mth f a).
Proof.
  intros w. unfold spied.
  destruct (f a (mkWorld (heap w) (records w) (ext w).2)) as [w' o].
  exists [{| target := t; meth := mth; argument := a; result := o |}]. simpl.
  split; [reflexivity|]. intros c e Hc Hres.
  apply list_elem_of_singleton in Hc. subst c. exact Hres.
Qed.

Lemma propagates_reshape a newshape :
  propagates (reshape (Ext := list Call * X) a newshape).
Proof.
  unfold reshape.
  destruct (decide (Exists _ newshape)); [apply propagates_raise|].
  destruct (unknown_dims newshape) as [|[|u]].
  - destruct (decide _); [apply propagates_ret | apply propagates_raise].
  - destruct (decide _); [apply propagates_raise | apply propagates_ret].
  - apply propagates_raise.
Qed.

Lemma propagates_bind_shape_getitem b n (k : Z -> Py (list Call * X) ndarray) :
  (forall z, propagates (k z)) -> propagates (bind (shape_getitem b n) k).
Proof.
  intros Hk. unfold bind, shape_getitem. destruct (shape b !! n); simpl.
  - apply Hk.
  - apply propagates_raise.
Qed.

Lemma propagates_for_each
    (step : nat -> ConvolutionLayer (list Call * X) -> ndarray -> Py _ ndarray) :
  (forall i name L a, propagates (step i (spy_layer name L) a)) ->
  forall names (l : list (ConvolutionLayer X)) i a,
    propagates (for_each step i (spy_stack names l) a).
Proof.
  intros Hstep. induction names as [|name names IH]; intros [|L l] i a; simpl;
    try apply propagates_ret.
  apply propagates_bind; [apply Hstep | intros a'; apply IH].
Qed.

Lemma propagates_regularized rate (f : ndarray -> Py (list Call * X) ndarray) a :
  (forall h, propagates (f h)) -> propagates (regularized rate f a).
Proof.
  intros Hf. unfold regularized. destruct (PrimFloat.ltb 0 rate); [|apply propagates_ret].
  unfold on_flattened. apply propagates_bind_shape_getitem. intros b.
  apply propagates_bind; [apply propagates_typed, propagates_reshape|]. intros h.
  apply propagates_bind; [apply propagates_typed, Hf|]. intros h'.
  do 4 (apply propagates_bind_shape_getitem; intros ?).
  apply propagates_typed, propagates_reshape.
Qed.

Lemma propagates_after_copy t (m : Py (list Call * X) ndarray) :
  propagates m -> propagates (bind (ndarray_copy t) (fun _ => m)).
Proof.
  intros Hm w. unfold bind, ndarray_copy.
  destruct (Hm (mkWorld (heap w ++ [buffer w (data t)]) (records w) (ext w)))
    as (calls & T & H).
  exists calls. split; [exact T | exact H].
Qed.

Lemma propagates_acquire nd a (k : ndarray -> Py (list Call * X) ndarray) :
  (forall a', propagates (k a')) -> propagates (bind (acquire_buffer nd a) k).
Proof.
  intros Hk. unfold bind, acquire_buffer.
  destruct (decide (ndim a = nd)); simpl; [apply Hk | apply propagates_raise].
Qed.

(** X5.  No exception of a collaborator is swallowed or replaced: on a
    recording instance, when a call that [forward_propagation] or
    [back_propagation] makes on a layer, on an activation function or on the
    optimizer raises, the pass raises that same exception. *)
Theorem collaborator_exceptions_propagate (cae : ConvolutionalAutoEncoder X) arr w :
  (let r := forward_propagation arr (mkObj (spy_on cae) w) in
   exists calls,
     trace (world r.1) = trace w ++ calls
     /\ forall c e, c ∈ calls -> result c = Raised e -> r.2 = Raised e)
  /\ (let r := back_propagation arr (mkObj (spy_on cae) w) in
      exists calls,
        trace (world r.1) = trace w ++ calls
        /\ forall c e, c ∈ calls -> result c = Raised e -> r.2 = Raised e).
Proof.
  split.
  - intros r. pose proof (forward_propagation_world (spy_on cae) arr w) as Hw.
    fold r in Hw.
    assert (H : propagates (t <- encoder_phase (spy_on cae) arr ;;
                            ndarray_copy t ;;; decoder_phase (spy_on cae) t)).
    { unfold encoder_phase, decoder_phase. simpl.
      apply propagates_bind.
      - apply propagates_acquire. intros a. unfold encode.
        apply propagates_for_each. intros i name L a'.
        apply propagates_try_except. unfold encode_layer.
        apply propagates_bind; [apply propagates_typed, propagates_spied|].
        intros x. apply propagates_typed, propagates_spied.
      - intros t. apply propagates_after_copy. apply propagates_bind.
        + apply propagates_regularized. intros h. apply propagates_spied.
        + intros t'. unfold decode.
          rewrite reverse_spy_stack by apply length_seq.
          apply propagates_for_each. intros i name L a'.
          apply propagates_try_except. unfold decode_layer.
          apply propagates_bind; [apply propagates_typed, propagates_spied|]. intros x.
          apply propagates_bind; [apply propagates_typed, propagates_spied|]. intros x'.
          apply propagates_typed, propagates_spied. }
    destruct (H w) as (calls & T & R). rewrite <- Hw in T, R. simpl in T, R.
    exists calls. split; [exact T | exact R].
  - intros r. unfold r. rewrite back_propagation_eq. unfold call. simpl.
    assert (H : propagates (propagate_back (spy_on cae) arr)).
    { unfold propagate_back. simpl. apply propagates_acquire. intros d.
      apply propagates_bind.
      - unfold convolve_deltas. apply propagates_for_each. intros i name L a'.
        apply propagates_try_except. unfold convolve_delta.
        apply propagates_typed.
        apply (propagates_spied (Layer name) (m_convolve true)
                 (fun a => convolve L a true)).
      - intros d1. apply propagates_bind.
        + apply propagates_regularized. intros h. apply propagates_spied.
        + intros d2. unfold propagate_deltas.
          rewrite reverse_spy_stack by apply length_seq.
          apply propagates_for_each. intros i name L a'.
          apply propagates_try_except. unfold propagate_delta.
          apply propagates_bind; [apply propagates_typed, propagates_spied|]. intros x.
          apply propagates_typed, propagates_spied. }
    destruct (H w) as (calls & T & R).
    destruct (propagate_back (spy_on cae) arr w) as [w' o]. simpl in *.
    exists calls. split; [exact T | exact R].
Qed.

End MoreTraces.

(** ** The shape of the delta that the backward pass returns *)

Section BackwardShape.

Context {Ext : Type}.

Variable Inv : World Ext -> Prop.

Implicit Types (L : ConvolutionLayer Ext) (l : list (ConvolutionLayer Ext)).
Implicit Types (s : list nat) (a : ndarray) (w : World Ext).

Lemma convolve_delta_maps_shape L s s' :
  layer_delta_contract Inv L s s' -> maps_shape Inv (convolve_delta L) s s'.
Proof.
  intros HL. unfold convolve_delta. rewrite <- (delta_four_out _ _ _ _ HL).
  apply (maps_shape_typed Inv (fun a => convolve L a true)), HL.
Qed.

Lemma propagate_delta_maps_shape L s s' :
  layer_delta_contract Inv L s s' -> maps_shape Inv (propagate_delta L) s' s.
Proof.
  intros HL. unfold propagate_delta.
  apply (maps_shape_bind Inv _ _ s' s s).
  { rewrite <- (delta_four_in _ _ _ _ HL). apply maps_shape_typed, HL. }
  rewrite <- (delta_four_in _ _ _ _ HL). apply maps_shape_typed, HL.
Qed.

Lemma convolve_deltas_shape l s s' (msg : nat -> string) :
  stack_delta_contract Inv s l s' ->
  forall i, maps_shape Inv
              (for_each (fun i L a => try_except (convolve_delta L a) (logger_debug (msg i)))
                 i l)
              s s'.
Proof.
  induction 1 as [s|s s1 s2 L l HL _ IH]; intros i; simpl.
  - intros a w Hs Hw. exists w, a. auto.
  - apply (maps_shape_bind Inv _ _ s s1 s2); [|apply IH].
    apply maps_shape_try_except, convolve_delta_maps_shape, HL.
Qed.

Lemma propagate_deltas_shape l s s' (msg : nat -> string) :
  stack_delta_contract Inv s l s' ->
  forall i, maps_shape Inv
              (for_each (fun i L a => try_except (propagate_delta L a) (logger_debug (msg i)))
                 i (reverse l))
              s' s.
Proof.
  induction 1 as [s|s s1 s2 L l HL _ IH]; intros i.
  - intros a w Hs Hw. exists w, a. auto.
  - rewrite reverse_cons. intros a w Hs Hw.
    destruct (IH i a w Hs Hw) as (w1 & a1 & E1 & Hs1 & Hw1).
    destruct (maps_shape_try_except Inv _ _ _ (logger_debug (msg (i + length (reverse l))))
                (propagate_delta_maps_shape L s s1 HL) a1 w1 Hs1 Hw1)
      as (w2 & a2 & E2 & Hs2 & Hw2).
    exists w2, a2. rewrite for_each_app, (bind_returned _ _ _ _ _ E1). simpl.
    rewrite (bind_returned _ _ _ _ _ E2). auto.
Qed.

Lemma stack_delta_contract_four l s s' :
  stack_delta_contract Inv s l s' -> length s = 4 -> length s' = 4.
Proof. induction 1 as [s|s s1 s2 L l HL _ IH]; [auto|]. intros _. apply IH, HL. Qed.

Lemma stack_delta_contract_batch l s s' :
  stack_delta_contract Inv s l s' -> head s' = head s.
Proof.
  induction 1 as [s|s s1 s2 L l HL _ IH]; [reflexivity|].
  rewrite IH. apply HL.
Qed.

(** X6.  Under the shape contract of the backward pass (each layer's
    bias-free convolve and back_propagate map its two shapes to one another,
    the forward of the deactivation functions and the de_dropout keep the
    shape they are given, and all of them return), and for a batch that is
    not empty when the dropout is on, [back_propagation] on a delta of four
    dimensions returns a delta of the shape of its argument, and the instance
    is as before. *)
Theorem back_propagation_shape (cae : ConvolutionalAutoEncoder Ext) delta_arr w hidden :
  ndim delta_arr = 4 ->
  stack_delta_contract Inv (shape delta_arr) (layerable_cnn_list cae) hidden ->
  (PrimFloat.ltb 0 (dropout_rate (opt_params cae)) = true ->
   head (shape delta_arr) <> Some 0
   /\ forall rows cols,
        maps_shape Inv (de_dropout (opt_params cae)) [rows; cols] [rows; cols]) ->
  Inv w ->
  exists w' r,
    back_propagation delta_arr (mkObj cae w) = (mkObj cae w', Returned r)
    /\ shape r = shape delta_arr /\ Inv w'.
Proof.
  intros Hnd Hstack Hopt Hw.
  rewrite back_propagation_eq. unfold call, propagate_back, acquire_buffer. simpl.
  rewrite decide_True by exact Hnd.
  bind_ret.
  destruct (convolve_deltas_shape _ _ _ backward_convolution_message Hstack 0
              delta_arr w eq_refl Hw) as (w1 & t & E1 & Hs1 & Hw1).
  unfold convolve_deltas. rewrite (bind_returned _ _ _ _ _ E1).
  assert (Hreg : exists w3 t', regularized (dropout_rate (opt_params cae))
                                 (de_dropout (opt_params cae)) t w1 = (w3, Returned t')
                               /\ shape t' = hidden /\ Inv w3).
  { unfold regularized.
    destruct (PrimFloat.ltb 0 (dropout_rate (opt_params cae))) eqn:Hrate.
    - destruct (Hopt eq_refl) as [Hb Hdrop].
      pose proof (stack_delta_contract_four _ _ _ Hstack Hnd) as H4.
      pose proof (stack_delta_contract_batch _ _ _ Hstack) as Hbatch.
      destruct hidden as [|b [|c [|h [|x [|? ?]]]]]; try discriminate H4.
      simpl in Hbatch.
      assert (Hb0 : b <> 0) by (intros ->; apply Hb; symmetry; exact Hbatch).
      destruct (on_flattened_shape Inv (de_dropout (opt_params cae)) b c h x Hb0
                  (Hdrop b (c * h * x)) t w1 Hs1 Hw1)
        as (w3 & t' & E3 & Hs3 & Hw3).
      exists w3, t'. auto.
    - exists w1, t. auto. }
  destruct Hreg as (w3 & t' & E3 & Hs3 & Hw3).
  destruct (propagate_deltas_shape _ _ _ (delta_message (length (layerable_cnn_list cae)))
              Hstack 0 t' w3 Hs3 Hw3) as (w4 & r & E4 & Hs4 & Hw4).
  rewrite (bind_returned _ _ _ _ _ E3). unfold propagate_deltas. rewrite E4.
  exists w4, r. split; [reflexivity|]. split; [exact Hs4 | exact Hw4].
Qed.

End BackwardShape.

Lemma shaping_delta_contract (s s' : list nat) :
  length s = 4 -> length s' = 4 -> head s' = head s ->
  layer_delta_contract anything (Scenario.shaping s s') s s'.
Proof.
  intros H4 H4' Hb. split; try assumption.
  - apply (allocating_maps_shape _ (fun _ => s')).
  - apply (allocating_maps_shape _ (fun _ => s)).
  - apply (allocating_maps_shape _ id).
Qed.

Lemma back_propagation_shape_witness :
  let cae := Scenario.network [Scenario.shaping [2; 1; 4; 4] [2; 3; 2; 2];
                               Scenario.shaping [2; 3; 2; 2] [2; 5; 1; 1]] 0.5 in
  exists w' r,
    back_propagation Scenario.images (mkObj cae Scenario.world1) = (mkObj cae w', Returned r)
    /\ shape r = [2; 1; 4; 4] /\ anything w'.
Proof.
  intros cae.
  assert (Hstack : stack_delta_contract anything (shape Scenario.images)
                     (layerable_cnn_list cae) [2; 5; 1; 1]).
  { apply (stack_delta_contract_cons _ _ [2; 3; 2; 2]);
      [apply shaping_delta_contract; reflexivity|].
    apply (stack_delta_contract_cons _ _ [2; 5; 1; 1]);
      [apply shaping_delta_contract; reflexivity|].
    constructor. }
  assert (Hopt : PrimFloat.ltb 0 (dropout_rate (opt_params cae)) = true ->
                 head (shape Scenario.images) <> Some 0
                 /\ forall rows cols,
                      maps_shape anything (de_dropout (opt_params cae))
                        [rows; cols] [rows; cols]).
  { intros _. split; [discriminate|]. intros rows cols.
    apply (allocating_maps_shape _ id). }
  exact (back_propagation_shape anything cae Scenario.images Scenario.world1 [2; 5; 1; 1]
           eq_refl Hstack Hopt I).
Defined.

(** ** What the passes log *)

Section Logging.

Context {Ext : Type}.

Implicit Types (L : ConvolutionLayer Ext) (l : list (ConvolutionLayer Ext)).
Implicit Types (a : ndarray) (w : World Ext).

Lemma silent_ret {A : Type} (x : A) : silent (Ext := Ext) (ret x).
Proof. intros w. reflexivity. Qed.

Lemma silent_raise {A : Type} e : silent (Ext := Ext) (A := A) (raise e).
Proof. intros w. reflexivity. Qed.

Lemma silent_bind {A B : Type} (m : Py Ext A) (k : A -> Py Ext B) :
  silent m -> (forall x, silent (k x)) -> silent (bind m k).
Proof.
  intros Hm Hk w. specialize (Hm w). unfold bind.
  destruct (m w) as [w1 [x|e]]; simpl in *; [|exact Hm].
  rewrite (Hk x w1). exact Hm.
Qed.

Lemma silent_acquire_buffer nd a : silent (Ext := Ext) (acquire_buffer nd a).
Proof. unfold acquire_buffer. destruct (decide _); intros w; reflexivity. Qed.

Lemma silent_typed nd (m : Py Ext ndarray) : silent m -> silent (typed nd m).
Proof. intros Hm. apply silent_bind; [exact Hm|]. intros x. apply silent_acquire_buffer. Qed.

Lemma silent_shape_getitem a k : silent (Ext := Ext) (shape_getitem a k).
Proof. unfold shape_getitem. destruct (shape a !! k); intros w; reflexivity. Qed.

Lemma silent_reshape a newshape : silent (Ext := Ext) (reshape a newshape).
Proof.
  unfold reshape. destruct (decide (Exists _ newshape)); [apply silent_raise|].
  destruct (unknown_dims newshape) as [|[|u]].
  - destruct (decide _); [apply silent_ret | apply silent_raise].
  - destruct (decide _); [apply silent_raise | apply silent_ret].
  - apply silent_raise.
Qed.

Lemma silent_ndarray_copy a : silent (Ext := Ext) (ndarray_copy a).
Proof. intros w. reflexivity. Qed.

Lemma silent_regularized rate (f : ndarray -> Py Ext ndarray) a :
  quiet f -> silent (regularized rate f a).
Proof.
  intros Hf. unfold regularized. destruct (PrimFloat.ltb 0 rate); [|apply silent_ret].
  unfold on_flattened.
  apply silent_bind; [apply silent_shape_getitem|]. intros b.
  apply silent_bind; [apply silent_typed, silent_reshape|]. intros h.
  apply silent_bind; [apply silent_typed, Hf|]. intros h'.
  do 4 (apply silent_bind; [apply silent_shape_getitem|]; intros ?).
  apply silent_typed, silent_reshape.
Qed.

Lemma logs_silent (m : Py Ext ndarray) :
  silent m -> forall w, logs_on_failure_only w (m w).1 (m w).2.
Proof.
  intros Hm w. specialize (Hm w). unfold logs_on_failure_only.
  destruct (m w) as [w1 [x|e]]; simpl in *; [exact Hm | left; exact Hm].
Qed.

Lemma logs_try_except (m : Py Ext ndarray) msg :
  silent m ->
  forall w, logs_on_failure_only w (try_except m (logger_debug msg) w).1
              (try_except m (logger_debug msg) w).2.
Proof.
  intros Hm w. specialize (Hm w). unfold try_except, logs_on_failure_only.
  destruct (m w) as [w1 [x|e]]; simpl in *; [exact Hm|].
  right. exists msg. rewrite Hm. reflexivity.
Qed.

Lemma logs_bind (m : Py Ext ndarray) (k : ndarray -> Py Ext ndarray) :
  (forall w, logs_on_failure_only w (m w).1 (m w).2) ->
  (forall x w, logs_on_failure_only w (k x w).1 (k x w).2) ->
  forall w, logs_on_failure_only w (bind m k w).1 (bind m k w).2.
Proof.
  intros Hm Hk w. specialize (Hm w). unfold bind.
  destruct (m w) as [w1 [x|e]]; simpl in *; [|exact Hm].
  specialize (Hk x w1). unfold logs_on_failure_only in *. rewrite <- Hm. exact Hk.
Qed.

Lemma logs_for_each (step : nat -> ConvolutionLayer Ext -> ndarray -> Py Ext ndarray) l :
  Forall (fun L => forall i a w, logs_on_failure_only w (step i L a w).1 (step i L a w).2) l ->
  forall i a w, logs_on_failure_only w (for_each step i l a w).1 (for_each step i l a w).2.
Proof.
  induction 1 as [|L l HL _ IH]; intros i a w; simpl; [reflexivity|].
  apply logs_bind; [apply HL | intros x w'; apply IH].
Qed.

Lemma encode_layer_silent L a : layer_quiet L -> silent (encode_layer L a).
Proof.
  intros (Hc & _ & _ & (Ha & _ & _) & _). unfold encode_layer.
  apply silent_bind; [apply silent_typed, (Hc no_bias_flag_default)|].
  intros x. apply silent_typed, Ha.
Qed.

Lemma decode_layer_silent L a : layer_quiet L -> silent (decode_layer L a).
Proof.
  intros (_ & Hd & _ & (_ & Hb & _) & (Ha & _ & _)). unfold decode_layer.
  apply silent_bind; [apply silent_typed, Hb|]. intros x.
  apply silent_bind; [apply silent_typed, Hd|]. intros x'.
  apply silent_typed, Ha.
Qed.

Lemma convolve_delta_silent L a : layer_quiet L -> silent (convolve_delta L a).
Proof.
  intros (Hc & _). unfold convolve_delta. apply silent_typed, (Hc true).
Qed.

Lemma propagate_delta_silent L a : layer_quiet L -> silent (propagate_delta L a).
Proof.
  intros (_ & _ & Hb & _ & (_ & _ & Hf)). unfold propagate_delta.
  apply silent_bind; [apply silent_typed, Hb|]. intros x.
  apply silent_typed, Hf.
Qed.

(** X7.  The passes log on failure only: when none of the collaborators
    logs, a [forward_propagation] or a [back_propagation] that returns has
    added no record, and one that raises has added at most one record, of
    level DEBUG. *)
Theorem passes_log_on_failure_only (cae : ConvolutionalAutoEncoder Ext) arr w :
  Forall layer_quiet (layerable_cnn_list cae) ->
  optimizer_quiet (opt_params cae) ->
  (let r := forward_propagation arr (mkObj cae w) in
   logs_on_failure_only w (world r.1) r.2)
  /\ (let r := back_propagation arr (mkObj cae w) in
      logs_on_failure_only w (world r.1) r.2).
Proof.
  intros Hl [Hdrop Hde].
  assert (Hrev : Forall layer_quiet (reverse (layerable_cnn_list cae))).
  { apply Forall_reverse. exact Hl. }
  split.
  - intros r. pose proof (forward_propagation_world cae arr w) as Hw. fold r in Hw.
    pose proof (f_equal fst Hw) as H1. pose proof (f_equal snd Hw) as H2.
    simpl in H1, H2. rewrite H1, H2. clear r Hw H1 H2. revert w.
    apply logs_bind.
    + unfold encoder_phase. apply logs_bind; [apply logs_silent, silent_acquire_buffer|].
      intros x. unfold encode. apply logs_for_each.
      eapply Forall_impl; [exact Hl|]. intros L HL i a. simpl.
      apply logs_try_except, encode_layer_silent, HL.
    + intros t. apply logs_bind; [apply logs_silent, silent_ndarray_copy|].
      intros _. unfold decoder_phase.
      apply logs_bind; [apply logs_silent, silent_regularized, Hdrop|].
      intros t'. unfold decode. apply logs_for_each.
      eapply Forall_impl; [exact Hrev|]. intros L HL i a. simpl.
      apply logs_try_except, decode_layer_silent, HL.
  - intros r. unfold r. rewrite back_propagation_eq. unfold call. simpl.
    assert (H : forall w0, logs_on_failure_only w0 (propagate_back cae arr w0).1
                             (propagate_back cae arr w0).2).
    { unfold propagate_back.
      apply logs_bind; [apply logs_silent, silent_acquire_buffer|]. intros d.
      apply logs_bind.
      - unfold convolve_deltas. apply logs_for_each.
        eapply Forall_impl; [exact Hl|]. intros L HL i a. simpl.
        apply logs_try_except, convolve_delta_silent, HL.
      - intros d1. apply logs_bind; [apply logs_silent, silent_regularized, Hde|].
        intros d2. unfold propagate_deltas. apply logs_for_each.
        eapply Forall_impl; [exact Hrev|]. intros L HL i a. simpl.
        apply logs_try_except, propagate_delta_silent, HL. }
    specialize (H w). destruct (propagate_back cae arr w) as [w' o]. exact H.
Qed.

End Logging.

Lemma allocating_quiet (f : list float -> list float) (g : list nat -> list nat) :
  quiet (Ext := unit) (allocating f g).
Proof. intros a w. reflexivity. Qed.

Lemma plain_quiet : layer_quiet Scenario.plain.
Proof.
  split; [intros flag; apply allocating_quiet|].
  split; [apply allocating_quiet|]. split; [apply allocating_quiet|].
  split; (split; [|split]); apply allocating_quiet.
Qed.

Lemma passes_log_on_failure_only_witness :
  let cae := Scenario.network [Scenario.plain; Scenario.plain] 0.5 in
  (let r := forward_propagation Scenario.batch (mkObj cae Scenario.world0) in
   logs_on_failure_only Scenario.world0 (world r.1) r.2)
  /\ (let r := back_propagation Scenario.batch (mkObj cae Scenario.world0) in
      logs_on_failure_only Scenario.world0 (world r.1) r.2).
Proof.
  intros cae.
  apply (passes_log_on_failure_only cae Scenario.batch Scenario.world0).
  - constructor; [apply plain_quiet|]. constructor; [apply plain_quiet | constructor].
  - split; apply allocating_quiet.
Defined.

(** ** The step between the two loops *)

Section HiddenStep.

Context {Ext : Type}.

Implicit Types (cae : ConvolutionalAutoEncoder Ext) (w : World Ext) (a : ndarray).

Lemma on_flattened_returned (f : ndarray -> Py Ext ndarray) a (b c h x : nat) w w1 h1 :
  shape a = [b; c; h; x] -> b <> 0 ->
  f (NDArray (data a) [b; c * h * x]) w = (w1, Returned h1) ->
  shape h1 = [b; c * h * x] ->
  on_flattened f a w = (w1, Returned (NDArray (data h1) [b; c; h; x])).
Proof.
  intros Hs Hb Hf Hs1. unfold on_flattened, shape_getitem. rewrite Hs. simpl.
  bind_ret.
  unfold typed at 1. rewrite bind_assoc.
  rewrite (bind_returned _ _ _ _ _ (reshape_rows a b c h x w Hs Hb)).
  unfold acquire_buffer at 1. simpl.
  bind_ret.
  unfold typed at 1. rewrite bind_assoc, (bind_returned _ _ _ _ _ Hf).
  unfold acquire_buffer at 1, ndim. rewrite Hs1. simpl.
  bind_ret.
  do 4 bind_ret.
  unfold typed. rewrite (bind_returned _ _ _ _ _ (reshape_back h1 b c h x w1 Hs1)).
  reflexivity.
Qed.

Lemma on_flattened_raised (f : ndarray -> Py Ext ndarray) a (b c h x : nat) w w1 e :
  shape a = [b; c; h; x] -> b <> 0 ->
  f (NDArray (data a) [b; c * h * x]) w = (w1, Raised e) ->
  on_flattened f a w = (w1, Raised e).
Proof.
  intros Hs Hb Hf. unfold on_flattened, shape_getitem. rewrite Hs. simpl.
  bind_ret.
  unfold typed at 1. rewrite bind_assoc.
  rewrite (bind_returned _ _ _ _ _ (reshape_rows a b c h x w Hs Hb)).
  unfold acquire_buffer at 1. simpl.
  bind_ret.
  unfold typed at 1. rewrite bind_assoc. apply bind_raised. exact Hf.
Qed.

Lemma on_flattened_not_flat (f : ndarray -> Py Ext ndarray) a (b c h x : nat) w w1 h1 :
  shape a = [b; c; h; x] -> b <> 0 ->
  f (NDArray (data a) [b; c * h * x]) w = (w1, Returned h1) ->
  ndim h1 <> 2 ->
  on_flattened f a w
  = (w1, Raised (ValueError ("Buffer has wrong number of dimensions (expected "
                             +:+ str 2 +:+ ", got " +:+ str (ndim h1) +:+ ")"))).
Proof.
  intros Hs Hb Hf Hnd. unfold on_flattened, shape_getitem. rewrite Hs. simpl.
  bind_ret.
  unfold typed at 1. rewrite bind_assoc.
  rewrite (bind_returned _ _ _ _ _ (reshape_rows a b c h x w Hs Hb)).
  unfold acquire_buffer at 1. simpl.
  bind_ret.
  unfold typed at 1. rewrite bind_assoc, (bind_returned _ _ _ _ _ Hf).
  unfold acquire_buffer at 1. rewrite decide_False by exact Hnd. reflexivity.
Qed.

Lemma on_flattened_empty_batch (f : ndarray -> Py Ext ndarray) a w :
  head (shape a) = Some 0 ->
  on_flattened f a w = (w, Raised (ValueError "cannot reshape array")).
Proof.
  intros Hs. unfold on_flattened, shape_getitem.
  destruct (shape a) as [|b s'] eqn:E; [discriminate Hs|].
  injection Hs as ->. simpl.
  bind_ret.
  unfold typed, reshape. unfold bind at 2.
  destruct (decide (Exists _ _)) as [Hex|_].
  { exfalso. apply Exists_cons in Hex as [Hex|Hex]; [lia|].
    apply Exists_cons in Hex as [Hex|Hex]; [lia|]. apply Exists_nil in Hex. exact Hex. }
  reflexivity.
Qed.

(** X8.  With a positive rate and a batch that is not empty, the step
    between the two loops hands the optimizer an array of shape (batch,
    channels * height * width) that holds the elements of the running array,
    and gives back an array with the four dimensions of the running array
    that holds the elements of what the optimizer returned; neither [reshape]
    logs, touches the collaborators' state or writes to a buffer there was.
    An exception of the optimizer leaves the step as it is, in the world the
    optimizer left: nothing is logged for it.  A result that has not two
    dimensions is refused.  This holds of [dropout] in [forward_propagation]
    and of [de_dropout] in [back_propagation]. *)
Theorem hidden_dropout_flattens cae a w (b c h x : nat) :
  PrimFloat.ltb 0 (dropout_rate (opt_params cae)) = true ->
  shape a = [b; c; h; x] -> b <> 0 ->
  let refused (h1 : ndarray) :=
    ValueError ("Buffer has wrong number of dimensions (expected "
                +:+ str 2 +:+ ", got " +:+ str (ndim h1) +:+ ")") in
  let same_but_buffers (w0 w' : World Ext) :=
    records w' = records w0 /\ ext w' = ext w0
    /\ forall p, p < length (heap w0) -> buffer w' p = buffer w0 p in
  (exists flat w0,
     shape flat = [b; c * h * x]
     /\ buffer w0 (data flat) = buffer w (data a)
     /\ same_but_buffers w w0
     /\ match dropout (opt_params cae) flat w0 with
        | (w1, Raised e) => hidden_dropout a (mkObj cae w) = (mkObj cae w1, Raised e)
        | (w1, Returned h1) =>
            (shape h1 = [b; c * h * x] ->
             exists r w2,
               hidden_dropout a (mkObj cae w) = (mkObj cae w2, Returned r)
               /\ shape r = [b; c; h; x]
               /\ buffer w2 (data r) = buffer w1 (data h1)
               /\ same_but_buffers w1 w2)
            /\ (ndim h1 <> 2 ->
                hidden_dropout a (mkObj cae w) = (mkObj cae w1, Raised (refused h1)))
        end)
  /\ (exists flat w0,
        shape flat = [b; c * h * x]
        /\ buffer w0 (data flat) = buffer w (data a)
        /\ same_but_buffers w w0
        /\ match de_dropout (opt_params cae) flat w0 with
           | (w1, Raised e) => hidden_de_dropout a (mkObj cae w) = (mkObj cae w1, Raised e)
           | (w1, Returned h1) =>
               (shape h1 = [b; c * h * x] ->
                exists r w2,
                  hidden_de_dropout a (mkObj cae w) = (mkObj cae w2, Returned r)
                  /\ shape r = [b; c; h; x]
                  /\ buffer w2 (data r) = buffer w1 (data h1)
                  /\ same_but_buffers w1 w2)
               /\ (ndim h1 <> 2 ->
                   hidden_de_dropout a (mkObj cae w)
                   = (mkObj cae w1, Raised (refused h1)))
           end).
Proof.
  intros Hrate Hs Hb refused same_but_buffers.
  assert (Hsame : forall w0, same_but_buffers w0 w0).
  { intros w0. split; [reflexivity|]. split; [reflexivity|]. intros p _. reflexivity. }
  split.
  - exists (NDArray (data a) [b; c * h * x]), w.
    split; [reflexivity|]. split; [reflexivity|]. split; [apply Hsame|].
    rewrite hidden_dropout_eq. unfold call, regularized. simpl. rewrite Hrate.
    destruct (dropout (opt_params cae) (NDArray (data a) [b; c * h * x]) w)
      as [w1 [h1|e]] eqn:Hf.
    + split.
      * intros Hs1. exists (NDArray (data h1) [b; c; h; x]), w1.
        rewrite (on_flattened_returned _ a b c h x w w1 h1 Hs Hb Hf Hs1).
        split; [reflexivity|]. split; [reflexivity|]. split; [reflexivity | apply Hsame].
      * intros Hnd. rewrite (on_flattened_not_flat _ a b c h x w w1 h1 Hs Hb Hf Hnd).
        reflexivity.
    + rewrite (on_flattened_raised _ a b c h x w w1 e Hs Hb Hf). reflexivity.
  - exists (NDArray (data a) [b; c * h * x]), w.
    split; [reflexivity|]. split; [reflexivity|]. split; [apply Hsame|].
    rewrite hidden_de_dropout_eq. unfold call, regularized. simpl. rewrite Hrate.
    destruct (de_dropout (opt_params cae) (NDArray (data a) [b; c * h * x]) w)
      as [w1 [h1|e]] eqn:Hf.
    + split.
      * intros Hs1. exists (NDArray (data h1) [b; c; h; x]), w1.
        rewrite (on_flattened_returned _ a b c h x w w1 h1 Hs Hb Hf Hs1).
        split; [reflexivity|]. split; [reflexivity|]. split; [reflexivity | apply Hsame].
      * intros Hnd. rewrite (on_flattened_not_flat _ a b c h x w w1 h1 Hs Hb Hf Hnd).
        reflexivity.
    + rewrite (on_flattened_raised _ a b c h x w w1 e Hs Hb Hf). reflexivity.
Qed.

(** X9.  With a positive rate and an empty batch, the step between the two
    loops raises the [ValueError] of [reshape((0, -1))] before the optimizer
    is called: the world is as it was. *)
Theorem hidden_dropout_empty_batch cae a w :
  PrimFloat.ltb 0 (dropout_rate (opt_params cae)) = true ->
  head (shape a) = Some 0 ->
  hidden_dropout a (mkObj cae w)
  = (mkObj cae w, Raised (ValueError "cannot reshape array"))
  /\ hidden_de_dropout a (mkObj cae w)
     = (mkObj cae w, Raised (ValueError "cannot reshape array")).
Proof.
  intros Hrate Hs. rewrite hidden_dropout_eq, hidden_de_dropout_eq.
  unfold call, regularized. simpl. rewrite Hrate, !on_flattened_empty_batch by exact Hs.
  split; reflexivity.
Qed.



Lemma passes_refuse_wrong_dimensions_four arr (s : Obj Ext) :
  ndim arr <> 4 ->
  forward_propagation arr s
  = (s, Raised (ValueError ("Buffer has wrong number of dimensions (expected "
                            +:+ str 4 +:+ ", got " +:+ str (ndim arr) +:+ ")")))
  /\ back_propagation arr s
     = (s, Raised (ValueError ("Buffer has wrong number of dimensions (expected "
                               +:+ str 4 +:+ ", got " +:+ str (ndim arr) +:+ ")"))).
Proof.
  intros Hnd. unfold forward_propagation, back_propagation, acquire_buffer.
  rewrite !decide_False by exact Hnd. split; reflexivity.
Qed.

(** X12.  An array whose number of dimensions is not four is refused by
    both passes before anything else happens: no collaborator is called,
    nothing is logged, and the instance and the world are as they were. *)
Theorem passes_refuse_wrong_dimensions arr (s : Obj Ext) :
  ndim arr <> 4 ->
  let refused :=
    ValueError ("Buffer has wrong number of dimensions (expected "
                +:+ str 4 +:+ ", got " +:+ str (ndim arr) +:+ ")") in
  forward_propagation arr s = (s, Raised refused)
  /\ back_propagation arr s = (s, Raised refused).
Proof.
  intros Hnd refused. unfold forward_propagation, back_propagation, acquire_buffer.
  rewrite !decide_False by exact Hnd. split; reflexivity.
Qed.

(** X13.  [forward_propagation] does not read the feature points: whatever
    they are before the call, the call does the same to the world and has the
    same outcome, and once the encoder loop has returned it leaves the same
    instance. *)
Theorem forward_propagation_ignores_feature_points cae img_arr w (cache : option ndarray) :
  let cae' := {| layerable_cnn_list := layerable_cnn_list cae;
                 opt_params := opt_params cae;
                 __feature_points_arr := cache |} in
  let r := forward_propagation img_arr (mkObj cae w) in
  let r' := forward_propagation img_arr (mkObj cae' w) in
  world r'.1 = world r.1
  /\ r'.2 = r.2
  /\ ((exists w1 t, encoder_phase cae img_arr w = (w1, Returned t)) -> self r'.1 = self r.1)
  /\ ((exists w1 e, encoder_phase cae img_arr w = (w1, Raised e)) ->
      self r'.1 = cae' /\ self r.1 = cae).
Proof.
  intros cae' r r'. unfold r, r'. rewrite !forward_propagation_eq.
  change (encoder_phase cae' img_arr w) with (encoder_phase cae img_arr w).
  destruct (encoder_phase cae img_arr w) as [w1 [t|e]].
  - change (decoder_phase cae' t) with (decoder_phase cae t).
    destruct (decoder_phase cae t (ndarray_copy t w1).1) as [w2 o]. simpl.
    split; [reflexivity|]. split; [reflexivity|]. split; [reflexivity|].
    intros (w1' & e & H). discriminate H.
  - simpl. split; [reflexivity|]. split; [reflexivity|]. split.
    + intros (w1' & t & H). discriminate H.
    + intros _. split; reflexivity.
Qed.

(** X14.  With an empty stack and a rate that is not positive, both passes
    return the array they were given, itself and not a copy;
    [forward_propagation] still copies it to the feature points, in a new
    buffer, and [back_propagation] leaves the world as it was. *)
Theorem passes_on_empty_stack cae arr w :
  layerable_cnn_list cae = [] ->
  PrimFloat.ltb 0 (dropout_rate (opt_params cae)) = false ->
  ndim arr = 4 ->
  forward_propagation arr (mkObj cae w)
  = (mkObj (with_feature_points cae (NDArray (length (heap w)) (shape arr)))
       (mkWorld (heap w ++ [buffer w (data arr)]) (records w) (ext w)),
     Returned arr)
  /\ back_propagation arr (mkObj cae w) = (mkObj cae w, Returned arr).
Proof.
  intros Hl Hrate Hnd. split.
  - rewrite forward_propagation_eq. unfold encoder_phase, decoder_phase, acquire_buffer.
    rewrite decide_True by exact Hnd. unfold regularized, encode, decode.
    rewrite Hrate, Hl. reflexivity.
  - rewrite back_propagation_eq.
    unfold call, propagate_back, acquire_buffer, regularized, convolve_deltas,
      propagate_deltas.
    rewrite decide_True by exact Hnd. rewrite Hrate, Hl. reflexivity.
Qed.

End HiddenStep.

Lemma hidden_dropout_flattens_witness :
  let cae := Scenario.network [] 0.5 in
  exists flat w0,
    shape flat = [2; 16]
    /\ buffer w0 (data flat) = replicate 32 0%float
    /\ match dropout (opt_params cae) flat w0 with
       | (w1, Raised e) =>
           hidden_dropout Scenario.images (mkObj cae Scenario.world1)
           = (mkObj cae w1, Raised e)
       | (w1, Returned h1) =>
           shape h1 = [2; 16] ->
           exists r w2,
             hidden_dropout Scenario.images (mkObj cae Scenario.world1)
             = (mkObj cae w2, Returned r)
             /\ shape r = [2; 1; 4; 4]
             /\ buffer w2 (data r) = buffer w1 (data h1)
       end.
Proof.
  intros cae.
  assert (Hb : 2 <> 0) by lia.
  destruct (proj1 (hidden_dropout_flattens cae Scenario.images Scenario.world1 2 1 4 4
                     eq_refl eq_refl Hb)) as (flat & w0 & Hs & Hbuf & _ & H).
  exists flat, w0. split; [exact Hs|]. split; [exact Hbuf|].
  destruct (dropout (opt_params cae) flat w0) as [w1 [h1|e]]; [|exact H].
  intros Hs1. destruct (proj1 H Hs1) as (r & w2 & E & Hr & Hb2 & _).
  exists r, w2. split; [exact E|]. split; [exact Hr | exact Hb2].
Defined.

Lemma hidden_dropout_empty_batch_witness :
  let cae := Scenario.network [Scenario.plain] 0.5 in
  let w := mkWorld [[]] [] tt in
  hidden_dropout (NDArray 0 [0; 1; 1; 1]) (mkObj cae w)
  = (mkObj cae w, Raised (ValueError "cannot reshape array"))
  /\ hidden_de_dropout (NDArray 0 [0; 1; 1; 1]) (mkObj cae w)
     = (mkObj cae w, Raised (ValueError "cannot reshape array")).
Proof.
  intros cae w.
  apply (hidden_dropout_empty_batch cae (NDArray 0 [0; 1; 1; 1]) w); reflexivity.
Defined.



Lemma passes_refuse_wrong_dimensions_witness :
  let s := mkObj (Scenario.network [Scenario.plain] 0.5) Scenario.world0 in
  let refused := ValueError "Buffer has wrong number of dimensions (expected 4, got 2)" in
  forward_propagation (NDArray 0 [2; 1]) s = (s, Raised refused)
  /\ back_propagation (NDArray 0 [2; 1]) s = (s, Raised refused).
Proof.
  intros s refused.
  assert (Hnd : ndim (NDArray 0 [2; 1]) <> 4) by (vm_compute; lia).
  exact (passes_refuse_wrong_dimensions (NDArray 0 [2; 1]) s Hnd).
Defined.

Lemma passes_on_empty_stack_witness :
  let cae := Scenario.network [] 0 in
  forward_propagation Scenario.batch (mkObj cae Scenario.world0)
  = (mkObj (with_feature_points cae (NDArray 1 [2; 1; 1; 1]))
       (mkWorld [[7%float; 8%float]; [7%float; 8%float]] [] tt),
     Returned Scenario.batch)
  /\ back_propagation Scenario.batch (mkObj cae Scenario.world0)
     = (mkObj cae Scenario.world0, Returned Scenario.batch).
Proof.
  intros cae.
  exact (passes_on_empty_stack cae Scenario.batch Scenario.world0 eq_refl eq_refl eq_refl).
Defined.

(** ** Where the exceptions of the passes come from *)

Section Provenance.

Context {X : Type}.

Implicit Types (w : World (list Call * X)) (a : ndarray) (P Q : ndarray -> Prop).

Lemma accounted_ret P a : P a -> accounted (X := X) P (ret a).
Proof. intros Ha w. exists []. simpl. rewrite app_nil_r. auto. Qed.

Lemma accounted_value_error P msg : accounted (X := X) P (raise (ValueError msg)).
Proof. intros w. exists []. simpl. rewrite app_nil_r. auto. Qed.

Lemma accounted_weaken P Q (m : Py (list Call * X) ndarray) :
  (forall a, P a -> Q a) -> accounted P m -> accounted Q m.
Proof.
  intros HPQ Hm w. destruct (Hm w) as (calls & T & R). exists calls. split; [exact T|].
  destruct (m w).2; [apply HPQ, R | exact R].
Qed.

Lemma accounted_bind P Q (m : Py (list Call * X) ndarray) (k : ndarray -> Py _ ndarray) :
  accounted P m -> (forall a, P a -> accounted Q (k a)) -> accounted Q (bind m k).
Proof.
  intros Hm Hk w. destruct (Hm w) as (calls1 & T1 & R1).
  unfold bind. destruct (m w) as [w1 [a|e]]; simpl in *.
  - destruct (Hk a R1 w1) as (calls2 & T2 & R2).
    exists (calls1 ++ calls2). rewrite T2, T1, app_assoc. split; [reflexivity|].
    destruct (k a w1).2 as [r|e]; [exact R2|].
    destruct R2 as [(c & Hc & Hres)|Hv]; [left | right; exact Hv].
    exists c. split; [|exact Hres]. rewrite last_app, Hc. reflexivity.
  - exists calls1. split; [exact T1 | exact R1].
Qed.

Lemma accounted_acquire_buffer nd a :
  accounted (X := X) (fun r => ndim r = nd) (acquire_buffer nd a).
Proof.
  unfold acquire_buffer. destruct (decide (ndim a = nd)) as [Hnd|Hnd].
  - apply accounted_ret. exact Hnd.
  - apply accounted_value_error.
Qed.

Lemma accounted_typed P nd (m : Py (list Call * X) ndarray) :
  accounted P m -> accounted (fun r => ndim r = nd) (typed nd m).
Proof.
  intros Hm. apply (accounted_bind P); [exact Hm|].
  intros a _. apply accounted_acquire_buffer.
Qed.

Lemma accounted_try_except P (m : Py (list Call * X) ndarray) msg :
  accounted P m -> accounted P (try_except m (logger_debug msg)).
Proof.
  intros Hm w. destruct (Hm w) as (calls & T & R).
  unfold try_except. destruct (m w) as [w1 [a|e]]; simpl in *.
  - exists calls. split; [exact T | exact R].
  - exists calls. split; [exact T | exact R].
Qed.

Lemma accounted_spied (t : callee) (mth : method) (f : ndarray -> Py X ndarray) a :
  accounted (fun _ => True) (spied t mth f a).
Proof.
  intros w. unfold spied.
  destruct (f a (mkWorld (heap w) (records w) (ext w).2)) as [w' o].
  exists [{| target := t; meth := mth; argument := a; result := o |}]. simpl.
  split; [reflexivity|]. destruct o as [r|e]; [exact I|].
  left. eexists. split; reflexivity.
Qed.

Lemma accounted_reshape a newshape :
  accounted (fun _ => True) (reshape (Ext := list Call * X) a newshape).
Proof.
  unfold reshape.
  destruct (decide (Exists _ newshape)); [apply accounted_value_error|].
  destruct (unknown_dims newshape) as [|[|u]].
  - destruct (decide _); [apply accounted_ret; exact I | apply accounted_value_error].
  - destruct (decide _); [apply accounted_value_error | apply accounted_ret; exact I].
  - apply accounted_value_error.
Qed.

Lemma accounted_bind_shape_getitem Q a n (k : Z -> Py (list Call * X) ndarray) :
  n < ndim a -> (forall z, accounted Q (k z)) -> accounted Q (bind (shape_getitem a n) k).
Proof.
  intros Hn Hk. unfold bind, shape_getitem.
  destruct (shape a !! n) eqn:E; simpl.
  - apply Hk.
  - apply lookup_ge_None in E. unfold ndim in Hn. lia.
Qed.

Lemma accounted_for_each
    (step : nat -> ConvolutionLayer (list Call * X) -> ndarray -> Py _ ndarray) :
  (forall i name L a, accounted (fun r => ndim r = 4) (step i (spy_layer name L) a)) ->
  forall names (l : list (ConvolutionLayer X)) i a,
    ndim a = 4 ->
    accounted (fun r => ndim r = 4) (for_each step i (spy_stack names l) a).
Proof.
  intros Hstep. induction names as [|name names IH]; intros [|L l] i a Ha; simpl;
    try (apply accounted_ret; exact Ha).
  apply (accounted_bind (fun r => ndim r = 4)); [apply Hstep|].
  intros a' Ha'. apply IH. exact Ha'.
Qed.

Lemma accounted_regularized rate (f : ndarray -> Py (list Call * X) ndarray) a :
  (forall h, accounted (fun _ => True) (f h)) ->
  ndim a = 4 ->
  accounted (fun r => ndim r = 4) (regularized rate f a).
Proof.
  intros Hf Ha. unfold regularized.
  destruct (PrimFloat.ltb 0 rate); [|apply accounted_ret; exact Ha].
  unfold on_flattened.
  apply accounted_bind_shape_getitem; [lia|]. intros b.
  apply (accounted_bind (fun r => ndim r = 2)); [apply (accounted_typed (fun _ => True)), accounted_reshape|].
  intros h _.
  apply (accounted_bind (fun r => ndim r = 2)); [apply (accounted_typed (fun _ => True)), Hf|].
  intros h' _.
  do 4 (apply accounted_bind_shape_getitem; [lia|]; intros ?).
  apply (accounted_typed (fun _ => True)), accounted_reshape.
Qed.

Lemma accounted_after_copy P t (m : Py (list Call * X) ndarray) :
  accounted P m -> accounted P (bind (ndarray_copy t) (fun _ => m)).
Proof.
  intros Hm w. unfold bind, ndarray_copy.
  destruct (Hm (mkWorld (heap w ++ [buffer w (data t)]) (records w) (ext w)))
    as (calls & T & H).
  exists calls. split; [exact T | exact H].
Qed.

(** X15.  Given an array, and collaborators that return arrays when they
    return, the passes raise no exception of their own but [ValueError]: on
    a recording instance, an exception of [forward_propagation] or
    [back_propagation] is the one that the last call made on a collaborator
    has raised, or it is a [ValueError] (of the check of the number of
    dimensions, or of [reshape]); in particular the loops never index the
    stack out of range.  A pass that returns returns an array of four
    dimensions. *)
Theorem passes_raise_collaborator_or_value_errors (cae : ConvolutionalAutoEncoder X) arr w :
  (let r := forward_propagation arr (mkObj (spy_on cae) w) in
   exists calls,
     trace (world r.1) = trace w ++ calls
     /\ match r.2 with
        | Returned a => ndim a = 4
        | Raised e =>
            (exists c, last calls = Some c /\ result c = Raised e)
            \/ exc_type e = "ValueError"
        end)
  /\ (let r := back_propagation arr (mkObj (spy_on cae) w) in
      exists calls,
        trace (world r.1) = trace w ++ calls
        /\ match r.2 with
           | Returned a => ndim a = 4
           | Raised e =>
               (exists c, last calls = Some c /\ result c = Raised e)
               \/ exc_type e = "ValueError"
           end).
Proof.
  split.
  - intros r. pose proof (forward_propagation_world (spy_on cae) arr w) as Hw.
    fold r in Hw.
    assert (H : accounted (fun a => ndim a = 4)
                  (t <- encoder_phase (spy_on cae) arr ;;
                   ndarray_copy t ;;; decoder_phase (spy_on cae) t)).
    { unfold encoder_phase, decoder_phase. simpl.
      apply (accounted_bind (fun a => ndim a = 4)).
      - apply (accounted_bind (fun a => ndim a = 4)); [apply accounted_acquire_buffer|].
        intros a Ha. unfold encode.
        apply accounted_for_each; [|exact Ha]. intros i name L a'.
        apply accounted_try_except. unfold encode_layer.
        apply (accounted_bind (fun a => ndim a = 4));
          [apply (accounted_typed (fun _ => True)), accounted_spied|].
        intros x _. apply (accounted_typed (fun _ => True)), accounted_spied.
      - intros t Ht. apply accounted_after_copy.
        apply (accounted_bind (fun a => ndim a = 4)).
        + apply accounted_regularized; [|exact Ht]. intros h. apply accounted_spied.
        + intros t' Ht'. unfold decode.
          rewrite reverse_spy_stack by apply length_seq.
          apply accounted_for_each; [|exact Ht']. intros i name L a'.
          apply accounted_try_except. unfold decode_layer.
          apply (accounted_bind (fun a => ndim a = 4));
            [apply (accounted_typed (fun _ => True)), accounted_spied|]. intros x _.
          apply (accounted_bind (fun a => ndim a = 4));
            [apply (accounted_typed (fun _ => True)), accounted_spied|]. intros x' _.
          apply (accounted_typed (fun _ => True)), accounted_spied. }
    destruct (H w) as (calls & T & R). rewrite <- Hw in T, R. simpl in T, R.
    exists calls. split; [exact T | exact R].
  - intros r. unfold r. rewrite back_propagation_eq. unfold call. simpl.
    assert (H : accounted (fun a => ndim a = 4) (propagate_back (spy_on cae) arr)).
    { unfold propagate_back. simpl.
      apply (accounted_bind (fun a => ndim a = 4)); [apply accounted_acquire_buffer|].
      intros d Hd.
      apply (accounted_bind (fun a => ndim a = 4)).
      - unfold convolve_deltas. apply accounted_for_each; [|exact Hd].
        intros i name L a'.
        apply accounted_try_except. unfold convolve_delta.
        apply (accounted_typed (fun _ => True)).
        apply (accounted_spied (Layer name) (m_convolve true)
                 (fun a => convolve L a true)).
      - intros d1 Hd1. apply (accounted_bind (fun a => ndim a = 4)).
        + apply accounted_regularized; [|exact Hd1]. intros h. apply accounted_spied.
        + intros d2 Hd2. unfold propagate_deltas.
          rewrite reverse_spy_stack by apply length_seq.
          apply accounted_for_each; [|exact Hd2]. intros i name L a'.
          apply accounted_try_except. unfold propagate_delta.
          apply (accounted_bind (fun a => ndim a = 4));
            [apply (accounted_typed (fun _ => True)), accounted_spied|]. intros x _.
          apply (accounted_typed (fun _ => True)), accounted_spied. }
    destruct (H w) as (calls & T & R).
    destruct (propagate_back (spy_on cae) arr w) as [w' o]. simpl in *.
    exists calls. split; [exact T | exact R].
Qed.

End Provenance.

(** ** The number of dimensions of what the passes return *)

Section FourDimensions.

Context {Ext : Type}.

Implicit Types (cae : ConvolutionalAutoEncoder Ext) (w : World Ext) (a : ndarray).

Lemma typed_returned nd (m : Py Ext ndarray) w r :
  (typed nd m w).2 = Returned r -> ndim r = nd.
Proof.
  unfold typed, bind, acquire_buffer. destruct (m w) as [w1 [a|e]]; [|discriminate].
  destruct (decide (ndim a = nd)) as [Hnd|Hnd]; [|discriminate].
  simpl. intros H. injection H as <-. exact Hnd.
Qed.

Lemma bind_returned_four {A : Type} (m : Py Ext A) (k : A -> Py Ext ndarray) :
  (forall x w r, (k x w).2 = Returned r -> ndim r = 4) ->
  forall w r, (bind m k w).2 = Returned r -> ndim r = 4.
Proof.
  intros Hk w r. unfold bind. destruct (m w) as [w1 [x|e]]; [apply Hk | discriminate].
Qed.

Lemma try_except_returned_four (m : Py Ext ndarray) (h : Py Ext unit) :
  (forall w r, (m w).2 = Returned r -> ndim r = 4) ->
  forall w r, (try_except m h w).2 = Returned r -> ndim r = 4.
Proof.
  intros Hm w r. specialize (Hm w r). unfold try_except.
  destruct (m w) as [w1 [x|e]]; [exact Hm|].
  destruct (h w1) as [w2 [u|e']]; discriminate.
Qed.

Lemma for_each_returned_four
    (step : nat -> ConvolutionLayer Ext -> ndarray -> Py Ext ndarray)
    (l : list (ConvolutionLayer Ext)) :
  (forall i L a w r, (step i L a w).2 = Returned r -> ndim r = 4) ->
  forall i a w r, ndim a = 4 -> (for_each step i l a w).2 = Returned r -> ndim r = 4.
Proof.
  intros Hstep. induction l as [|L l IH]; intros i a w r Ha; simpl.
  - intros H. injection H as <-. exact Ha.
  - unfold bind. pose proof (Hstep i L a w) as HL.
    destruct (step i L a w) as [w1 [a'|e]]; [|discriminate].
    apply IH. apply HL. reflexivity.
Qed.

Lemma regularized_returned_four rate (f : ndarray -> Py Ext ndarray) a w r :
  ndim a = 4 -> (regularized rate f a w).2 = Returned r -> ndim r = 4.
Proof.
  intros Ha. unfold regularized. destruct (PrimFloat.ltb 0 rate).
  - unfold on_flattened. revert w r.
    do 3 (apply bind_returned_four; intros ?).
    do 4 (apply bind_returned_four; intros ?).
    intros w r. apply typed_returned.
  - simpl. intros H. injection H as <-. exact Ha.
Qed.

Lemma encode_returned_four (l : list (ConvolutionLayer Ext)) a w r :
  ndim a = 4 -> (encode l a w).2 = Returned r -> ndim r = 4.
Proof.
  unfold encode. apply for_each_returned_four.
  intros i L a'. apply try_except_returned_four.
  unfold encode_layer. apply bind_returned_four; intros ?. apply typed_returned.
Qed.

Lemma decode_returned_four (l : list (ConvolutionLayer Ext)) a w r :
  ndim a = 4 -> (decode l a w).2 = Returned r -> ndim r = 4.
Proof.
  unfold decode. apply for_each_returned_four.
  intros i L a'. apply try_except_returned_four.
  unfold decode_layer. do 2 (apply bind_returned_four; intros ?). apply typed_returned.
Qed.

Lemma convolve_deltas_returned_four (l : list (ConvolutionLayer Ext)) a w r :
  ndim a = 4 -> (convolve_deltas l a w).2 = Returned r -> ndim r = 4.
Proof.
  unfold convolve_deltas. apply for_each_returned_four.
  intros i L a'. apply try_except_returned_four.
  unfold convolve_delta. apply typed_returned.
Qed.

Lemma propagate_deltas_returned_four (l : list (ConvolutionLayer Ext)) a w r :
  ndim a = 4 -> (propagate_deltas l a w).2 = Returned r -> ndim r = 4.
Proof.
  unfold propagate_deltas. apply for_each_returned_four.
  intros i L a'. apply try_except_returned_four.
  unfold propagate_delta. apply bind_returned_four; intros ?. apply typed_returned.
Qed.

(** X16.  Given an array, and whatever arrays the collaborators return, of
    any shape and any number of dimensions, a [forward_propagation] or a
    [back_propagation] that returns returns an array of four dimensions, and
    the array it was given has four. *)
Theorem passes_return_four_dimensions cae arr w r :
  (forward_propagation arr (mkObj cae w)).2 = Returned r
  \/ (back_propagation arr (mkObj cae w)).2 = Returned r ->
  ndim r = 4 /\ ndim arr = 4.
Proof.
  intros H.
  destruct (decide (ndim arr = 4)) as [Hnd|Hnd].
  2:{ exfalso. destruct (passes_refuse_wrong_dimensions_four arr (mkObj cae w) Hnd)
        as [Hf Hb].
      destruct H as [H|H]; [rewrite Hf in H | rewrite Hb in H]; discriminate H. }
  split; [|exact Hnd]. destruct H as [H|H].
  - pose proof (forward_propagation_world cae arr w) as Hw.
    apply (f_equal snd) in Hw. simpl in Hw. rewrite H in Hw. symmetry in Hw.
    revert Hw. unfold encoder_phase, acquire_buffer. rewrite decide_True by exact Hnd.
    unfold bind at 1.
    change ((img_arr <- ret arr ;; encode (layerable_cnn_list cae) img_arr) w)
      with (encode (layerable_cnn_list cae) arr w).
    pose proof (encode_returned_four (layerable_cnn_list cae) arr w) as Henc.
    destruct (encode (layerable_cnn_list cae) arr w) as [w1 [t|e]]; [|discriminate].
    specialize (Henc t Hnd eq_refl).
    unfold bind at 1. simpl. unfold decoder_phase. unfold bind at 1.
    pose proof (regularized_returned_four (dropout_rate (opt_params cae))
                  (dropout (opt_params cae)) t
                  (mkWorld (heap w1 ++ [buffer w1 (data t)]) (records w1) (ext w1))) as Hreg.
    destruct (regularized _ _ t _) as [w3 [t'|e]]; [|discriminate].
    apply decode_returned_four. apply Hreg; [exact Henc | reflexivity].
  - rewrite back_propagation_eq in H. unfold call in H. simpl in H.
    destruct (propagate_back cae arr w) as [w' o] eqn:E. simpl in H. subst o.
    apply (f_equal snd) in E. simpl in E. revert E.
    unfold propagate_back, acquire_buffer. rewrite decide_True by exact Hnd.
    bind_ret. unfold bind at 1.
    pose proof (convolve_deltas_returned_four (layerable_cnn_list cae) arr w) as Hconv.
    destruct (convolve_deltas (layerable_cnn_list cae) arr w) as [w1 [d|e]]; [|discriminate].
    specialize (Hconv d Hnd eq_refl).
    unfold bind at 1.
    pose proof (regularized_returned_four (dropout_rate (opt_params cae))
                  (de_dropout (opt_params cae)) d w1) as Hreg.
    destruct (regularized _ _ d w1) as [w3 [d'|e]]; [|discriminate].
    apply propagate_deltas_returned_four. apply Hreg; [exact Hconv | reflexivity].
Qed.

End FourDimensions.

Lemma passes_return_four_dimensions_witness :
  ndim (NDArray 6 [2; 1; 1; 1]) = 4 /\ ndim Scenario.batch = 4.
Proof.
  apply (passes_return_four_dimensions (Scenario.network [Scenario.plain] 0)
           Scenario.batch Scenario.world0 (NDArray 6 [2; 1; 1; 1])).
  left. reflexivity.
Defined.

(** ** Recording changes nothing *)

Section Transparency.

Context {X : Type}.

Implicit Types (w : World (list Call * X)) (a : ndarray).

Lemma simulates_ret {A : Type} (x : A) : simulates (X := X) (ret x) (ret x).
Proof. intros w. reflexivity. Qed.

Lemma simulates_raise {A : Type} e : simulates (X := X) (A := A) (raise e) (raise e).
Proof. intros w. reflexivity. Qed.

Lemma simulates_bind {A B : Type} (m' : Py (list Call * X) A) (m : Py X A)
    (k' : A -> Py (list Call * X) B) (k : A -> Py X B) :
  simulates m' m -> (forall x, simulates (k' x) (k x)) -> simulates (bind m' k') (bind m k).
Proof.
  intros Hm Hk w. unfold bind. rewrite <- (Hm w).
  destruct (m' w) as [w1 [x|e]]; simpl; [apply Hk | reflexivity].
Qed.

Lemma simulates_acquire_buffer nd a :
  simulates (X := X) (acquire_buffer nd a) (acquire_buffer nd a).
Proof.
  unfold acquire_buffer. destruct (decide _); [apply simulates_ret | apply simulates_raise].
Qed.

Lemma simulates_typed nd (m' : Py (list Call * X) ndarray) (m : Py X ndarray) :
  simulates m' m -> simulates (typed nd m') (typed nd m).
Proof.
  intros Hm. apply simulates_bind; [exact Hm|]. intros x. apply simulates_acquire_buffer.
Qed.

Lemma simulates_shape_getitem a n :
  simulates (X := X) (shape_getitem a n) (shape_getitem a n).
Proof.
  unfold shape_getitem. destruct (shape a !! n); [apply simulates_ret | apply simulates_raise].
Qed.

Lemma simulates_reshape a newshape :
  simulates (X := X) (reshape a newshape) (reshape a newshape).
Proof.
  unfold reshape. destruct (decide (Exists _ newshape)); [apply simulates_raise|].
  destruct (unknown_dims newshape) as [|[|u]].
  - destruct (decide _); [apply simulates_ret | apply simulates_raise].
  - destruct (decide _); [apply simulates_raise | apply simulates_ret].
  - apply simulates_raise.
Qed.

Lemma simulates_ndarray_copy a : simulates (X := X) (ndarray_copy a) (ndarray_copy a).
Proof. intros w. reflexivity. Qed.

Lemma simulates_try_except (m' : Py (list Call * X) ndarray) (m : Py X ndarray) msg :
  simulates m' m ->
  simulates (try_except m' (logger_debug msg)) (try_except m (logger_debug msg)).
Proof.
  intros Hm w. unfold try_except. rewrite <- (Hm w).
  destruct (m' w) as [w1 [x|e]]; reflexivity.
Qed.

Lemma simulates_spied (t : callee) (mth : method) (f : ndarray -> Py X ndarray) a :
  simulates (spied t mth f a) (f a).
Proof.
  intros w. unfold spied, erase at 2.
  destruct (f a (mkWorld (heap w) (records w) (ext w).2)) as [[h r x] o]. reflexivity.
Qed.

Lemma simulates_for_each
    (step' : nat -> ConvolutionLayer (list Call * X) -> ndarray -> Py _ ndarray)
    (step : nat -> ConvolutionLayer X -> ndarray -> Py X ndarray) :
  (forall i name L a, simulates (step' i (spy_layer name L) a) (step i L a)) ->
  forall names (l : list (ConvolutionLayer X)) i a,
    length names = length l ->
    simulates (for_each step' i (spy_stack names l) a) (for_each step i l a).
Proof.
  intros Hstep. induction names as [|name names IH]; intros [|L l] i a Hlen;
    try discriminate Hlen; simpl.
  - apply simulates_ret.
  - apply simulates_bind; [apply Hstep|]. intros a'. apply IH. simpl in Hlen. lia.
Qed.

Lemma simulates_regularized rate (f' : ndarray -> Py (list Call * X) ndarray)
    (f : ndarray -> Py X ndarray) a :
  (forall h, simulates (f' h) (f h)) ->
  simulates (regularized rate f' a) (regularized rate f a).
Proof.
  intros Hf. unfold regularized. destruct (PrimFloat.ltb 0 rate); [|apply simulates_ret].
  unfold on_flattened.
  apply simulates_bind; [apply simulates_shape_getitem|]. intros b.
  apply simulates_bind; [apply simulates_typed, simulates_reshape|]. intros h.
  apply simulates_bind; [apply simulates_typed, Hf|]. intros h'.
  do 4 (apply simulates_bind; [apply simulates_shape_getitem|]; intros ?).
  apply simulates_typed, simulates_reshape.
Qed.

Lemma simulates_encoder_phase (cae : ConvolutionalAutoEncoder X) a :
  simulates (encoder_phase (spy_on cae) a) (encoder_phase cae a).
Proof.
  unfold encoder_phase. apply simulates_bind; [apply simulates_acquire_buffer|].
  intros x. unfold encode. simpl. apply simulates_for_each; [|apply length_seq].
  intros i name L a'. apply simulates_try_except. unfold encode_layer.
  apply simulates_bind; [apply simulates_typed, simulates_spied|].
  intros y. apply simulates_typed, simulates_spied.
Qed.

Lemma simulates_decoder_phase (cae : ConvolutionalAutoEncoder X) a :
  simulates (decoder_phase (spy_on cae) a) (decoder_phase cae a).
Proof.
  unfold decoder_phase. simpl. apply simulates_bind.
  - apply simulates_regularized. intros h. apply simulates_spied.
  - intros x. unfold decode. rewrite reverse_spy_stack by apply length_seq.
    apply simulates_for_each; [|rewrite !length_reverse; apply length_seq].
    intros i name L a'. apply simulates_try_except. unfold decode_layer.
    apply simulates_bind; [apply simulates_typed, simulates_spied|]. intros y.
    apply simulates_bind; [apply simulates_typed, simulates_spied|]. intros y'.
    apply simulates_typed, simulates_spied.
Qed.

Lemma simulates_propagate_back (cae : ConvolutionalAutoEncoder X) a :
  simulates (propagate_back (spy_on cae) a) (propagate_back cae a).
Proof.
  unfold propagate_back. simpl.
  apply simulates_bind; [apply simulates_acquire_buffer|]. intros d.
  apply simulates_bind.
  { unfold convolve_deltas. apply simulates_for_each; [|apply length_seq].
    intros i name L a'. apply simulates_try_except. unfold convolve_delta.
    apply simulates_typed.
    apply (simulates_spied (Layer name) (m_convolve true) (fun a => convolve L a true)). }
  intros d1. apply simulates_bind.
  { apply simulates_regularized. intros h. apply simulates_spied. }
  intros d2. unfold propagate_deltas. rewrite reverse_spy_stack by apply length_seq.
  assert (Hlen : length (spy_stack (seq 0 (length (layerable_cnn_list cae)))
                          (layerable_cnn_list cae))
                 = length (layerable_cnn_list cae)).
  { unfold spy_stack. rewrite length_zip_with, length_seq. lia. }
  rewrite Hlen.
  apply simulates_for_each; [|rewrite !length_reverse; apply length_seq].
  intros i name L a'. apply simulates_try_except. unfold propagate_delta.
  apply simulates_bind; [apply simulates_typed, simulates_spied|]. intros y.
  apply simulates_typed, simulates_spied.
Qed.

(** X17.  The passes use their collaborators through their methods only:
    on the instance whose collaborators record their calls, a
    [forward_propagation] or a [back_propagation] has the outcome, and leaves
    the buffers, the log, the collaborators' state and the feature points,
    that it has and leaves on the instance itself. *)
Theorem recording_is_transparent (cae : ConvolutionalAutoEncoder X) arr w :
  (let r := forward_propagation arr (mkObj cae (erase w)) in
   let r' := forward_propagation arr (mkObj (spy_on cae) w) in
   erase (world r'.1) = world r.1 /\ r'.2 = r.2
   /\ __feature_points_arr (self r'.1) = __feature_points_arr (self r.1))
  /\ (let r := back_propagation arr (mkObj cae (erase w)) in
      let r' := back_propagation arr (mkObj (spy_on cae) w) in
      erase (world r'.1) = world r.1 /\ r'.2 = r.2
      /\ __feature_points_arr (self r'.1) = __feature_points_arr (self r.1)).
Proof.
  split.
  - intros r r'. unfold r, r'. rewrite !forward_propagation_eq.
    pose proof (simulates_encoder_phase cae arr w) as Henc.
    destruct (encoder_phase (spy_on cae) arr w) as [w1 [t|e]]; simpl in Henc;
      rewrite <- Henc.
    + pose proof (simulates_decoder_phase cae t (ndarray_copy t w1).1) as Hdec.
      change (erase (ndarray_copy t w1).1) with (ndarray_copy t (erase w1)).1 in Hdec.
      cbv iota beta. rewrite <- Hdec.
      destruct (decoder_phase (spy_on cae) t (ndarray_copy t w1).1) as [w2 o].
      simpl. auto.
    + simpl. auto.
  - intros r r'. unfold r, r'. rewrite !back_propagation_eq. unfold call. simpl.
    pose proof (simulates_propagate_back cae arr w) as H.
    destruct (propagate_back (spy_on cae) arr w) as [w1 o]. simpl in H.
    rewrite <- H. simpl. auto.
Qed.

End Transparency.
